(** * funserver: the container-runtime lifecycle manager

    A shallow embedding of package [container] of ReallyHardTech/funserver
    (server.go, utils.go, the WSL2 helpers, the bundled-binary extractor, the
    manager, the client's container operations and compose) and the
    properties of its lifecycle contract.

    The Go code talks to the operating system all the time.  The embedding
    keeps the code's control flow and makes the operating system explicit:

    - a [Host] record holds what the code cannot influence: the platform, the
      fixed directories, and the outcome of every external call (PATH lookups,
      commands, signals, faults of file operations), indexed by the number of
      external calls made so far, so that the same call can answer differently
      the second time;
    - a [World] record holds what the code changes: a file system, a virtual
      clock in nanoseconds, the log, and a trace of the effects that leave the
      process (files opened for writing, copies, processes spawned, signals).

    Go functions become functions in the state monad [M] over [World]; a Go
    [error] is an [option string] ([None] is [nil]). *)

From Stdlib Require Import ZArith String Ascii List Lia Bool.
From stdpp Require Import base tactics option list gmap strings pretty.

Local Open Scope string_scope.
Local Open Scope Z_scope.

(** ** Go values *)

(** A Go [error]: [None] is [nil], [Some msg] an error whose text is [msg]. *)
Abbreviation error := (option string).

(** [errors.Wrap(err, msg)] and [fmt.Errorf("msg: %w", err)]. *)
Definition errors_Wrap (err msg : string) : string := msg +:+ ": " +:+ err.

(** [time.Duration]: a number of nanoseconds. *)
Abbreviation Duration := Z.
Definition Millisecond : Duration := 1000000.
Definition Second : Duration := 1000 * Millisecond.

(** ** Strings *)

Module strings.

(** [strings.HasPrefix(s, prefix)]. *)
Definition HasPrefix (s prefix : string) : bool := String.prefix prefix s.

(** [strings.Contains(s, substr)]. *)
Fixpoint Contains (s substr : string) : bool :=
  String.prefix substr s
  || match s with
     | EmptyString => false
     | String _ s' => Contains s' substr
     end.

Definition lower_ascii (c : ascii) : ascii :=
  let n := nat_of_ascii c in
  if (Nat.leb 65 n && Nat.leb n 90)%bool then ascii_of_nat (n + 32) else c.

(** [strings.ToLower] on ASCII text. *)
Fixpoint ToLower (s : string) : string :=
  match s with
  | EmptyString => EmptyString
  | String c s' => String (lower_ascii c) (ToLower s')
  end.

Definition is_space (c : ascii) : bool :=
  let n := nat_of_ascii c in
  (Nat.eqb n 32 || Nat.eqb n 9 || Nat.eqb n 10 || Nat.eqb n 13
   || Nat.eqb n 11 || Nat.eqb n 12)%bool.

Fixpoint trim_left (s : string) : string :=
  match s with
  | String c s' => if is_space c then trim_left s' else s
  | EmptyString => EmptyString
  end.

(** [strings.TrimSpace] on ASCII text. *)
Definition TrimSpace (s : string) : string :=
  String.rev (trim_left (String.rev (trim_left s))).

End strings.

(** The prefix of the named-pipe address scheme. *)
Definition pipePrefix : string := "\\.\pipe\".

(** ** The host and the world *)

(** Signals the code sends. *)
Inductive Signal := Interrupt | SIGTERM | Signal0.

(** The cases of the [select] in [Server.Stop]. *)
Inductive StopCase := CaseTimeout | CaseDone | CaseCtx.

#[global] Instance StopCase_eq_dec : EqDecision StopCase.
Proof. solve_decision. Defined.

(** A file-system node: permission bits and, for a file, its bytes. *)
Inductive Node :=
| File (mode : Z) (data : string)
| Dir (mode : Z).

Definition node_mode (n : Node) : Z :=
  match n with File m _ => m | Dir m => m end.

Definition node_IsDir (n : Node) : bool :=
  match n with Dir _ => true | File _ _ => false end.

(** Effects that leave the process, in the order they happen. *)
Inductive Event :=
| EvMkdir (path : string)
| EvOpenWrite (path : string)
| EvCopy (src dst : string)
| EvRemove (path : string)
| EvRun (argv : list string)
| EvSpawn (pid : nat) (argv : list string)
| EvSignal (pid : nat) (sig : Signal)
| EvKill (pid : nat)
| EvDial (address : string)
| EvCloseClient (address : string).

#[global] Instance Signal_eq_dec : EqDecision Signal.
Proof. solve_decision. Defined.
#[global] Instance Event_eq_dec : EqDecision Event.
Proof. solve_decision. Defined.

(** What the code reads from its environment and cannot change.  Every
    outcome takes the index of the external call ([steps] of the world). *)
Record Host := {
  (** [runtime.GOOS] *)
  GOOS : string;
  (** [os.Getenv("OS")] *)
  env_OS : string;
  (** [os.UserHomeDir()] (the code drops its error) *)
  home_dir : string;
  (** [os.UserConfigDir()] ([None] for an error) and [os.TempDir()] *)
  os_UserConfigDir : option string;
  os_TempDir : string;
  (** [os.Executable()] *)
  os_Executable : string + string;
  (** [os.Getpid()] *)
  os_Getpid : Z;
  (** the process umask: a created node gets [perm &^ umask] *)
  umask : Z;
  (** [filepath.Join], [filepath.Dir] and the last element of a path *)
  filepath_Join : list string -> string;
  filepath_Dir : string -> string;
  filepath_Base : string -> string;
  (** nodes made by other processes (the engine's socket, a PID file): what
      [os.Stat] finds at a virtual time when the path is not in the world's own
      file system *)
  ext_node : string -> Z -> option Node;
  (** a fault of a file operation ([op] names it) on [path] *)
  io_fault : string -> string -> nat -> error;
  (** [exec.LookPath] *)
  look_path : string -> nat -> option string;
  (** a command run to completion: error and combined output *)
  run_result : list string -> nat -> error * string;
  (** [cmd.Start()] *)
  spawn_result : list string -> nat -> error;
  (** [process.Signal] and [process.Kill] *)
  signal_result : nat -> Signal -> nat -> error;
  kill_result : nat -> nat -> error;
  (** [Wait] on a process: [Some (d, e)] when it returns [e] after [d]
      nanoseconds, [None] when the process outlives every budget *)
  wait_result : nat -> nat -> option (Duration * error);
  (** the case a [select] takes when several are ready at once *)
  tie_break : nat -> list StopCase -> StopCase;
  (** in [WaitForSocket]: whether the ticker wins when it fires together with
      the deadline *)
  tick_first : nat -> bool;
  (** an HTTP GET: a transport error, or the status line and the body *)
  http_get : string -> nat -> string + (Z * string * string);
  (** [containerd.New(socket)] and [Close] on the resulting client *)
  dial_result : string -> nat -> error;
  close_result : string -> nat -> error;
}.

(** What the code changes. *)
Record World := {
  fs : gmap string Node;
  clock : Z;
  steps : nat;
  logs : list string;
  trace : list Event;
}.

Definition with_fs (f : gmap string Node -> gmap string Node) (w : World) : World :=
  {| fs := f (fs w); clock := clock w; steps := steps w; logs := logs w;
     trace := trace w |}.
Definition with_clock (t : Z) (w : World) : World :=
  {| fs := fs w; clock := t; steps := steps w; logs := logs w;
     trace := trace w |}.
Definition with_step (w : World) : World :=
  {| fs := fs w; clock := clock w; steps := S (steps w); logs := logs w;
     trace := trace w |}.
Definition with_log (msg : string) (w : World) : World :=
  {| fs := fs w; clock := clock w; steps := steps w; logs := (logs w ++ [msg])%list;
     trace := trace w |}.
Definition with_event (e : Event) (w : World) : World :=
  {| fs := fs w; clock := clock w; steps := steps w; logs := logs w;
     trace := (trace w ++ [e])%list |}.

(** ** The state monad *)

Definition M (A : Type) : Type := World -> A * World.

#[global] Instance M_ret : MRet M := fun A (a : A) w => (a, w).
#[global] Instance M_bind : MBind M :=
  fun A B (f : A -> M B) (c : M A) w => let r := c w in f r.1 r.2.

(** The result and the final world of a run. *)
Definition result {A} (c : M A) (w : World) : A := (c w).1.
Definition after {A} (c : M A) (w : World) : World := (c w).2.

(** [if err := c; err != nil { return wrap(err) }; k] *)
Definition or_return {A} (c : M error) (wrap : string -> A) (k : M A) : M A :=
  e ← c; match e with Some msg => mret (wrap msg) | None => k end.

(** ** The operating system, as the code uses it *)

Section os.
Context (H : Host).

(** The index of the next external call. *)
Definition tick : M nat := fun w => (steps w, with_step w).
Definition emit (e : Event) : M unit := fun w => (tt, with_event e w).
Definition log_Printf (msg : string) : M unit := fun w => (tt, with_log msg w).
Definition fmt_Printf (msg : string) : M unit := log_Printf msg.
Definition now : M Z := fun w => (clock w, w).
Definition get_fs : M (gmap string Node) := fun w => (fs w, w).
Definition wait_until (t : Z) : M unit :=
  fun w => (tt, with_clock (Z.max (clock w) t) w).
Definition time_Sleep (d : Duration) : M unit :=
  fun w => (tt, with_clock (clock w + Z.max 0 d) w).
Definition update_fs (f : gmap string Node -> gmap string Node) : M unit :=
  fun w => (tt, with_fs f w).

Definition on_windows : bool := String.eqb (GOOS H) "windows".

(** The permission bits of a node created with [perm]: the umask is taken
    off, except on Windows, which has none. *)
Definition created_mode (perm : Z) : Z :=
  if on_windows then perm else Z.ldiff perm (umask H).

(** [info.Mode()] of what [os.Stat] found.  On Windows the permission bits
    are made up from the read-only attribute (the write bit 0200 here): a
    file shows 0666, or 0444 when it is read-only, and never an executable
    bit; a directory shows 0777 or 0555. *)
Definition FileInfo_Mode (n : Node) : Z :=
  if on_windows then
    let bits := if Z.testbit (node_mode n) 7 then 438 else 292 in
    if node_IsDir n then Z.lor bits 73 else bits
  else node_mode n.

(** [os.Stat(path)]: [None] for an error. *)
Definition os_Stat (path : string) : M (option Node) :=
  fun w => (match fs w !! path with
            | Some n => Some n
            | None => ext_node H path (clock w)
            end, w).

(** [os.MkdirAll(path, perm)]: nothing to do for a directory that is there.
    Parents are not tracked. *)
Definition os_MkdirAll (path : string) (perm : Z) : M error :=
  st ← os_Stat path;
  match st with
  | Some (Dir _) => mret None
  | Some (File _ _) => mret (Some ("mkdir " +:+ path +:+ ": not a directory"))
  | None =>
      n ← tick;
      match io_fault H "mkdir" path n with
      | Some e => mret (Some e)
      | None =>
          update_fs (insert path (Dir (created_mode perm)));;
          emit (EvMkdir path);;
          mret None
      end
  end.

(** [os.Open(path)]: the open file, named by its path.  A directory opens
    too; it is [io.Copy] that cannot read it. *)
Definition os_Open (path : string) : M (string + string) :=
  st ← os_Stat path;
  match st with
  | None => mret (inl ("open " +:+ path +:+ ": no such file or directory"))
  | Some _ =>
      n ← tick;
      match io_fault H "open" path n with
      | Some e => mret (inl e)
      | None => mret (inr path)
      end
  end.

(** [os.OpenFile(path, flags, perm)] for writing with [O_CREATE]: an
    existing file keeps its permission bits and, unless [trunc], its bytes;
    a new file gets [perm] under the umask. *)
Definition os_OpenFile (path : string) (trunc : bool) (perm : Z) : M error :=
  st ← os_Stat path;
  n ← tick;
  match st with
  | Some (Dir _) => mret (Some ("open " +:+ path +:+ ": is a directory"))
  | Some (File m d) =>
      match io_fault H "openfile" path n with
      | Some e => mret (Some e)
      | None =>
          update_fs (insert path (File m (if trunc then "" else d)));;
          emit (EvOpenWrite path);;
          mret None
      end
  | None =>
      match io_fault H "openfile" path n with
      | Some e => mret (Some e)
      | None =>
          update_fs (insert path (File (created_mode perm) ""));;
          emit (EvOpenWrite path);;
          mret None
      end
  end.

(** Writing [data] at offset 0 over [old]. *)
Definition overwrite (data old : string) : string :=
  data +:+ String.substring (String.length data)
                            (String.length old - String.length data) old.

(** [io.Copy(destFile, reader)] into the file opened at [dst], for a reader
    that yields [data]. *)
Definition io_Copy (src dst data : string) : M error :=
  n ← tick;
  match io_fault H "copy" dst n with
  | Some e => mret (Some e)
  | None =>
      update_fs (fun m =>
        match m !! dst with
        | Some (File md old) => <[dst := File md (overwrite data old)]> m
        | _ => m
        end);;
      emit (EvCopy src dst);;
      mret None
  end.

(** [io.Copy(destFile, sourceFile)] between two open files.  The bytes of
    the source are read when the copy runs, that is after the destination
    was opened: a file copied onto itself is read as that open left it.  A
    directory cannot be read. *)
Definition io_Copy_file (src dst : string) : M error :=
  st ← os_Stat src;
  match st with
  | Some (File _ data) => io_Copy src dst data
  | Some (Dir _) => mret (Some ("read " +:+ src +:+ ": is a directory"))
  | None => mret (Some ("read " +:+ src +:+ ": file already closed"))
  end.

(** [os.Chmod(path, mode)]. *)
Definition os_Chmod (path : string) (mode : Z) : M error :=
  st ← os_Stat path;
  n ← tick;
  match st, io_fault H "chmod" path n with
  | None, _ => mret (Some ("chmod " +:+ path +:+ ": no such file or directory"))
  | Some _, Some e => mret (Some e)
  | Some (File _ d), None => update_fs (insert path (File mode d));; mret None
  | Some (Dir _), None => update_fs (insert path (Dir mode));; mret None
  end.

(** [os.Remove(path)], result dropped by the callers. *)
Definition os_Remove (path : string) : M unit :=
  update_fs (delete path);; emit (EvRemove path).

(** [os.ReadDir(dir)]: the names and nodes directly under [dir]. *)
Definition dir_entries (dir : string) (m : gmap string Node)
  : list (string * Node) :=
  omap (M := list)
       (fun kv : string * Node =>
          if String.eqb (filepath_Dir H kv.1) dir
          then Some (filepath_Base H kv.1, kv.2) else None)
       (map_to_list m).

Definition os_ReadDir (dir : string) : M (option (list (string * Node))) :=
  st ← os_Stat dir;
  m ← get_fs;
  mret (match st with
        | Some (Dir _) => Some (dir_entries dir m)
        | _ => None
        end).

(** [exec.LookPath(name)]. *)
Definition exec_LookPath (name : string) : M (option string) :=
  n ← tick; mret (look_path H name n).

(** [cmd.CombinedOutput()] and [cmd.Output()] of [exec.Command(argv...)]. *)
Definition cmd_CombinedOutput (argv : list string) : M (error * string) :=
  n ← tick; emit (EvRun argv);; mret (run_result H argv n).

(** [cmd.Start()]: the new process on success. *)
Definition cmd_Start (argv : list string) : M (string + nat) :=
  n ← tick;
  match spawn_result H argv n with
  | Some e => mret (inl e)
  | None => emit (EvSpawn n argv);; mret (inr n)
  end.

(** [process.Signal(sig)]; the trace records the request. *)
Definition process_Signal (pid : nat) (sig : Signal) : M error :=
  n ← tick; emit (EvSignal pid sig);; mret (signal_result H pid sig n).

(** [process.Kill()]; the trace records the request. *)
Definition process_Kill (pid : nat) : M error :=
  n ← tick; emit (EvKill pid);; mret (kill_result H pid n).

Definition IsRunningOnMacOS : bool := String.eqb (GOOS H) "darwin".
Definition IsRunningOnWindows : bool := String.eqb (env_OS H) "Windows_NT".

End os.

(** ** utils.go: the bundled-binary cache *)

Section provisioning.
Context (H : Host).

(** [BundledBinaryDir], set once by [init]. *)
Definition BundledBinaryDir : string :=
  filepath_Join H [default (os_TempDir H) (os_UserConfigDir H);
                   "funserver"; "bin"].

Definition GetBundledContainerdPath : string :=
  filepath_Join H [BundledBinaryDir;
                   if on_windows H then "containerd.exe" else "containerd"].

Definition GetBundledRuncPath : string :=
  filepath_Join H [BundledBinaryDir;
                   if on_windows H then "runc.exe" else "runc"].

Definition GetBundledCNIPath : string :=
  filepath_Join H [BundledBinaryDir; "cni"].

Definition GetBundledHyperKitPath : string :=
  filepath_Join H [BundledBinaryDir; "hyperkit"].

(** The shape shared by [GetContainerdPath], [GetRuncPath] and
    [GetHyperKitPath]: the bundled binary first, then the PATH. *)
Definition bundled_or_PATH (bundledPath name : string) : M string :=
  st ← os_Stat H bundledPath;
  match st with
  | Some _ => mret bundledPath
  | None => p ← exec_LookPath H name; mret (default "" p)
  end.

Definition GetContainerdPath : M string :=
  bundled_or_PATH GetBundledContainerdPath "containerd".
Definition GetRuncPath : M string :=
  bundled_or_PATH GetBundledRuncPath "runc".
Definition GetHyperKitPath : M string :=
  bundled_or_PATH GetBundledHyperKitPath "hyperkit".

Definition standardPaths : list string :=
  ["/opt/cni/bin"; "/usr/local/opt/cni/bin"; "C:\Program Files\cni"].

Fixpoint first_existing (paths : list string) : M string :=
  match paths with
  | [] => mret ""
  | p :: rest =>
      st ← os_Stat H p;
      match st with Some _ => mret p | None => first_existing rest end
  end.

Definition GetCNIPath : M string :=
  st ← os_Stat H GetBundledCNIPath;
  entries ← os_ReadDir H GetBundledCNIPath;
  match st, entries with
  | Some _, Some (_ :: _) => mret GetBundledCNIPath
  | _, _ => first_existing standardPaths
  end.

Definition nonempty (s : string) : bool := negb (String.eqb s "").

Definition IsContainerdInstalled : M bool := p ← GetContainerdPath; mret (nonempty p).
Definition IsRuncInstalled : M bool := p ← GetRuncPath; mret (nonempty p).
Definition HasCNIPlugins : M bool := p ← GetCNIPath; mret (nonempty p).
Definition IsHyperKitInstalled : M bool := p ← GetHyperKitPath; mret (nonempty p).

(** [info.Mode()&0111 != 0] *)
Definition executable_bit (n : Node) : bool :=
  negb (Z.land (FileInfo_Mode H n) 73 =? 0).

Definition stat_error (path : string) : string :=
  "stat " +:+ path +:+ ": no such file or directory".

(** The body shared, line for line, by [extractBundledContainerd],
    [EnsureBundledRuncExtracted] and [EnsureBundledHyperKitExtracted]; they
    differ in the destination, the bundled source and two messages. *)
Definition extract_binary (bundledPath : string)
    (sourcePath : string -> string) (not_found copy_failed : string)
  : M error :=
  or_return (os_MkdirAll H BundledBinaryDir 493)
      (fun e => Some (errors_Wrap e "failed to create bundled binary directory")) (
  info ← os_Stat H bundledPath;
  if match info with Some nd => executable_bit nd | None => false end
  then mret None
  else
    match os_Executable H with
    | inl e => mret (Some (errors_Wrap e "failed to get executable path"))
    | inr executablePath =>
        let src := sourcePath (filepath_Dir H executablePath) in
        st ← os_Stat H src;
        match st with
        | None =>
            mret (Some (errors_Wrap (stat_error src)
                                    (not_found +:+ " not found at " +:+ src)))
        | Some _ =>
            sourceFile ← os_Open H src;
            match sourceFile with
            | inl e => mret (Some (errors_Wrap e "failed to open source binary"))
            | inr sourceFile =>
                or_return (os_OpenFile H bundledPath false 493)
                    (fun e => Some (errors_Wrap e
                               "failed to create destination binary file")) (
                or_return (io_Copy_file H sourceFile bundledPath)
                    (fun e => Some (errors_Wrap e copy_failed)) (
                mret None))
            end
        end
    end).

(** [binaryPaths] of the extractor; a missing key reads as the empty
    string. *)
Definition binaryPaths : gmap string string :=
  {[ "linux" := "binaries/linux/containerd";
     "windows" := "binaries/windows/containerd.exe";
     "darwin" := "binaries/darwin/containerd" ]}.

Definition extractBundledContainerd : M error :=
  extract_binary GetBundledContainerdPath
    (fun executableDir =>
       filepath_Join H [executableDir; default "" (binaryPaths !! GOOS H)])
    "bundled containerd binary" "failed to extract binary".

Definition EnsureBundledContainerdExtracted : M error :=
  extractBundledContainerd.

Definition EnsureBundledRuncExtracted : M error :=
  extract_binary GetBundledRuncPath
    (fun executableDir =>
       if on_windows H
       then filepath_Join H [executableDir; "binaries"; "windows"; "runc.exe"]
       else filepath_Join H [executableDir; "binaries"; GOOS H; "runc"])
    "bundled runc binary" "failed to copy runc binary".

Definition EnsureBundledHyperKitExtracted : M error :=
  extract_binary GetBundledHyperKitPath
    (fun executableDir =>
       filepath_Join H [executableDir; "binaries"; "darwin"; "linuxkit";
                        "hyperkit"])
    "bundled HyperKit binary" "failed to extract binary".

(** The loop of [EnsureBundledCNIPluginsExtracted] over the entries of the
    source directory. *)
Fixpoint copy_plugins (sourceDir cniDir : string)
    (entries : list (string * Node)) : M error :=
  match entries with
  | [] => mret None
  | (name, nd) :: rest =>
      if node_IsDir nd then copy_plugins sourceDir cniDir rest
      else
        let sourcePath := filepath_Join H [sourceDir; name] in
        let destPath := filepath_Join H [cniDir; name] in
        sourceFile ← os_Open H sourcePath;
        match sourceFile with
        | inl e => mret (Some (errors_Wrap e
                           ("failed to open source file " +:+ sourcePath)))
        | inr sourceFile =>
            or_return (os_OpenFile H destPath false 493)
                (fun e => Some (errors_Wrap e
                           ("failed to create destination file " +:+ destPath))) (
            or_return (io_Copy_file H sourceFile destPath)
                (fun e => Some (errors_Wrap e
                           ("failed to copy plugin " +:+ name))) (
            copy_plugins sourceDir cniDir rest))
        end
  end.

Definition EnsureBundledCNIPluginsExtracted : M error :=
  let cniDir := GetBundledCNIPath in
  or_return (os_MkdirAll H cniDir 493)
      (fun e => Some (errors_Wrap e "failed to create bundled CNI directory")) (
  entries ← os_ReadDir H cniDir;
  match entries with
  | Some (_ :: _) => mret None
  | _ =>
      match os_Executable H with
      | inl e => mret (Some (errors_Wrap e "failed to get executable path"))
      | inr executablePath =>
          let executableDir := filepath_Dir H executablePath in
          let sourceDir :=
            if on_windows H
            then filepath_Join H [executableDir; "binaries"; "windows"; "cni"]
            else filepath_Join H [executableDir; "binaries"; GOOS H; "cni"] in
          st ← os_Stat H sourceDir;
          match st with
          | None =>
              mret (Some (errors_Wrap (stat_error sourceDir)
                      ("bundled CNI plugins directory not found at "
                       +:+ sourceDir)))
          | Some _ =>
              entries ← os_ReadDir H sourceDir;
              match entries with
              | None => mret (Some (errors_Wrap "not a directory"
                                "failed to read CNI plugins directory"))
              | Some entries => copy_plugins sourceDir cniDir entries
              end
          end
      end
  end).

Definition EnsureAllBundledComponentsExtracted : M error :=
  or_return EnsureBundledContainerdExtracted
      (fun e => Some (errors_Wrap e "failed to extract bundled containerd")) (
  or_return EnsureBundledRuncExtracted
      (fun e => Some (errors_Wrap e "failed to extract bundled runc")) (
  or_return EnsureBundledCNIPluginsExtracted
      (fun e => Some (errors_Wrap e "failed to extract bundled CNI plugins")) (
  if String.eqb (GOOS H) "darwin"
  then or_return EnsureBundledHyperKitExtracted
           (fun e => Some (errors_Wrap e "failed to extract bundled HyperKit"))
           (mret None)
  else mret None))).

End provisioning.

(** ** Contexts and [select] *)

Inductive ctxErr := Canceled | DeadlineExceeded.

(** The text of [ctx.Err()]. *)
Definition ctxErr_text (e : ctxErr) : string :=
  match e with
  | Canceled => "context canceled"
  | DeadlineExceeded => "context deadline exceeded"
  end.

(** The caller's [context.Context]: the virtual time at which it is done, if
    ever, and what [ctx.Err()] reports from then on. *)
Record Context := { cancel_at : option Z; cause : ctxErr }.

Definition context_Background : Context :=
  {| cancel_at := None; cause := Canceled |}.

(** [ctx.Err()] of the caller's context at time [t]. *)
Definition Context_Err (ctx : Context) (t : Z) : option ctxErr :=
  match cancel_at ctx with
  | Some tc => if tc <=? t then Some (cause ctx) else None
  | None => None
  end.

(** The context made by [context.WithTimeout(context.Background(), d)]. *)
Record timerCtx := { deadline : Z; canceled : bool }.

Section exec_context.
Context (H : Host).

(** [cmd.Start()] of [exec.CommandContext(ctx, argv...)]: a context that is
    done makes it fail before anything is started.  Once the process runs,
    os/exec kills it when the context ends before [Wait] has returned; that
    kill comes from the library at the time [cancel_at ctx], not from a call
    of this package, and the trace, which records the calls of the package,
    does not show it. *)
Definition cmd_Start_ctx (ctx : Context) (argv : list string)
  : M (string + nat) :=
  t ← now;
  match Context_Err ctx t with
  | Some e => mret (inl (ctxErr_text e))
  | None => cmd_Start H argv
  end.

(** [cmd.CombinedOutput()] of [exec.CommandContext(ctx, argv...)]. *)
Definition cmd_CombinedOutput_ctx (ctx : Context) (argv : list string)
  : M (error * string) :=
  t ← now;
  match Context_Err ctx t with
  | Some e => mret (Some (ctxErr_text e), "")
  | None => cmd_CombinedOutput H argv
  end.

End exec_context.

(** [ctx.Err()] at time [t]. *)
Definition ctx_Err (c : timerCtx) (t : Z) : option ctxErr :=
  if canceled c then Some Canceled
  else if deadline c <=? t then Some DeadlineExceeded
  else None.

Definition context_WithTimeout (timeout : Duration) : M timerCtx :=
  fun w => ({| deadline := clock w + timeout; canceled := false |}, w).

Section select.
Context (H : Host).

(** The time at which the first of the cases becomes ready. *)
Definition earliest (cands : list (StopCase * Z)) : option Z :=
  foldr (fun c acc => match acc with
                      | None => Some c.2
                      | Some t => Some (Z.min c.2 t)
                      end) None cands.

(** The cases ready at that time. *)
Definition ready_cases (cands : list (StopCase * Z)) : list StopCase :=
  match earliest cands with
  | None => []
  | Some t => (filter (fun c => c.2 = t) cands).*1
  end.

(** A [select] over channels that become ready at the given times (a time
    in the past means ready now): it blocks until the first is ready and
    takes it; among several ready at once the runtime chooses. *)
Definition select (cands : list (StopCase * Z)) : M StopCase :=
  t0 ← now;
  let cands := (fun c : StopCase * Z => (c.1, Z.max t0 c.2)) <$> cands in
  wait_until (default t0 (earliest cands));;
  match ready_cases cands with
  | [] => mret CaseTimeout
  | [c] => mret c
  | c :: cs =>
      n ← tick;
      let pick := tie_break H n (c :: cs) in
      mret (if decide (pick ∈ c :: cs) then pick else c)
  end.

End select.

(** ** utils.go: readiness, and the LinuxKit VM *)

Section readiness.
Context (H : Host).

Definition GetDefaultSocketPath : string :=
  if on_windows H then "\\.\pipe\containerd-containerd"
  else "/run/containerd/containerd.sock".

Definition GetFunSocketPath : string :=
  if on_windows H then "\\.\pipe\fun-containerd"
  else filepath_Join H [home_dir H; ".fun"; "containerd"; "containerd.sock"].

Definition CheckContainerdRunning (socketPath : string) : M bool :=
  let socketPath :=
    if String.eqb socketPath "" then GetDefaultSocketPath else socketPath in
  if negb (strings.HasPrefix socketPath pipePrefix)
  then st ← os_Stat H socketPath; mret (bool_decide (is_Some st))
  else mret true.

Definition pollInterval : Duration := 100 * Millisecond.

Definition timeout_error (socketPath : string) : string :=
  "timeout waiting for containerd socket at " +:+ socketPath.

(** The named-pipe branch of [WaitForSocket]: block on [ctx.Done()], then
    look at [ctx.Err()].  [cancel] is only deferred, so nothing but the
    deadline closes the channel. *)
Definition wait_pipe (socketPath : string) (ctx : timerCtx) : M error :=
  wait_until (deadline ctx);;
  t ← now;
  match ctx_Err ctx t with
  | Some DeadlineExceeded => mret (Some (timeout_error socketPath))
  | _ => mret None
  end.

(** The [for { select { ... } }] of [WaitForSocket].  [nextTick] is the time
    of the ticker's next tick; an iteration takes the case that is ready
    first.  [None]: the fuel ran out before the loop returned. *)
Fixpoint pollLoop (fuel : nat) (socketPath : string) (ctx : timerCtx)
    (nextTick : Z) (w : World) : option (error * World) :=
  match fuel with
  | O => None
  | S fuel' =>
      let on_tick (w : World) :=
        let w := with_clock (Z.max (clock w) nextTick) w in
        match result (os_Stat H socketPath) w with
        | Some _ => Some (None, w)
        | None => pollLoop fuel' socketPath ctx (nextTick + pollInterval) w
        end in
      let on_done (w : World) :=
        Some (Some (timeout_error socketPath),
              with_clock (Z.max (clock w) (deadline ctx)) w) in
      if nextTick <? deadline ctx then on_tick w
      else if deadline ctx <? nextTick then on_done w
      else if tick_first H (steps w) then on_tick (with_step w)
           else on_done (with_step w)
  end.

Definition WaitForSocket_fuel (fuel : nat) (socketPath : string)
    (timeout : Duration) (w : World) : option (error * World) :=
  let '(ctx, w) := context_WithTimeout timeout w in
  let firstTick := clock w + pollInterval in
  if strings.HasPrefix socketPath pipePrefix
  then Some (wait_pipe socketPath ctx w)
  else pollLoop fuel socketPath ctx firstTick w.

(** Iterations that always suffice: one per tick up to the deadline and one
    for the deadline itself. *)
Definition pollFuel (timeout : Duration) : nat :=
  Z.to_nat (timeout / pollInterval) + 2.

(** [WaitForSocket(socketPath, timeout)]. *)
Definition WaitForSocket (socketPath : string) (timeout : Duration) : M error :=
  fun w =>
    match WaitForSocket_fuel (pollFuel timeout) socketPath timeout w with
    | Some r => r
    | None => (Some (timeout_error socketPath), w)
    end.

End readiness.

Module strconv.

Definition digit (c : ascii) : option Z :=
  let n := nat_of_ascii c in
  if (Nat.leb 48 n && Nat.leb n 57)%bool then Some (Z.of_nat n - 48) else None.

Fixpoint digits (acc : Z) (s : string) : option Z :=
  match s with
  | EmptyString => Some acc
  | String c s' =>
      match digit c with
      | Some d => digits (10 * acc + d) s'
      | None => None
      end
  end.

(** [strconv.Atoi]: an optional sign and at least one decimal digit. *)
Definition Atoi (s : string) : option Z :=
  match s with
  | EmptyString => None
  | String c s' =>
      if Ascii.eqb c "-" then
        match s' with EmptyString => None | _ => Z.opp <$> digits 0 s' end
      else if Ascii.eqb c "+" then
        match s' with EmptyString => None | _ => digits 0 s' end
      else digits 0 s
  end.

End strconv.

(** [LinuxKitConfig] of utils.go. *)
Record LinuxKitConfig := {
  lk_Memory : Z;
  lk_CPUs : Z;
  lk_DiskSize : Z;
  lk_Name : string;
  lk_KernelPath : string;
  lk_InitrdPath : string;
  lk_StateDir : string;
}.

Section linuxkit.
Context (H : Host).

Definition DefaultLinuxKitConfig : LinuxKitConfig :=
  let linuxKitDir := filepath_Join H [home_dir H; ".fun"; "linuxkit"] in
  {| lk_Memory := 1024; lk_CPUs := 2; lk_DiskSize := 10;
     lk_Name := "fun-containerd-vm";
     lk_KernelPath := filepath_Join H [linuxKitDir; "kernel"];
     lk_InitrdPath := filepath_Join H [linuxKitDir; "initrd.img"];
     lk_StateDir := filepath_Join H [linuxKitDir; "state"] |}.

(** [fileExists]: there, and not a directory.  The [os.Stat] of this model
    fails only when the path does not exist; on any other failure the code
    goes on to call [IsDir] on a nil [FileInfo] and panics, which the model
    leaves out: what is said of a run through [fileExists] is said of a run
    that returns. *)
Definition fileExists (filename : string) : M bool :=
  st ← os_Stat H filename;
  mret match st with None => false | Some nd => negb (node_IsDir nd) end.

(** [os.ReadFile]. *)
Definition os_ReadFile (path : string) : M (string + string) :=
  st ← os_Stat H path;
  n ← tick;
  mret match st, io_fault H "readfile" path n with
       | None, _ => inl ("open " +:+ path +:+ ": no such file or directory")
       | Some _, Some e => inl e
       | Some (Dir _), None => inl ("read " +:+ path +:+ ": is a directory")
       | Some (File _ d), None => inr d
       end.

Definition pid_file (config : LinuxKitConfig) : string :=
  filepath_Join H [lk_StateDir config; "hyperkit.pid"].

Definition IsLinuxKitVMRunning (config : LinuxKitConfig) : M bool :=
  if negb (IsRunningOnMacOS H) then mret false else
  hyperkitPath ← GetHyperKitPath H;
  if String.eqb hyperkitPath "" then mret false else
  present ← fileExists (pid_file config);
  if negb present then mret false else
  pidBytes ← os_ReadFile (pid_file config);
  match pidBytes with
  | inl _ => mret false
  | inr bytes =>
      match strconv.Atoi (strings.TrimSpace bytes) with
      | None => mret false
      | Some pid =>
          err ← process_Signal H (Z.to_nat pid) Signal0;
          mret (bool_decide (err = None))
      end
  end.

(** [copyFile(src, dst)]: [os.Create] truncates the destination. *)
Definition copyFile (src dst : string) : M error :=
  sourceFile ← os_Open H src;
  match sourceFile with
  | inl e => mret (Some e)
  | inr sourceFile =>
      or_return (os_OpenFile H dst true 438) Some (io_Copy_file H sourceFile dst)
  end.

Definition EnsureLinuxKitComponents : M error :=
  if negb (IsRunningOnMacOS H) then mret None else
  hyperKitPath ← GetHyperKitPath H;
  (** the two exits of the [if hyperKitPath == ""] block *)
  r ← (if String.eqb hyperKitPath "" then
         or_return (EnsureBundledHyperKitExtracted H)
             (fun e => Some (errors_Wrap e
                "HyperKit is not available and failed to extract bundled binary")) (
         hyperKitPath ← GetHyperKitPath H;
         if String.eqb hyperKitPath ""
         then mret (Some "HyperKit is not available. Please ensure the bundled binary is included with the application")
         else mret None)
       else mret None);
  match r with
  | Some e => mret (Some e)
  | None =>
      let linuxKitDir := filepath_Join H [home_dir H; ".fun"; "linuxkit"] in
      let kernelPath := filepath_Join H [linuxKitDir; "kernel"] in
      let initrdPath := filepath_Join H [linuxKitDir; "initrd.img"] in
      or_return (os_MkdirAll H linuxKitDir 493)
          (fun e => Some (errors_Wrap e "failed to create LinuxKit directory")) (
      kernelExists ← fileExists kernelPath;
      initrdExists ← fileExists initrdPath;
      if (kernelExists && initrdExists)%bool then mret None else
      match os_Executable H with
      | inl e => mret (Some (errors_Wrap e "failed to get executable path"))
      | inr executablePath =>
          let sourceDirPath :=
            filepath_Join H [filepath_Dir H executablePath; "binaries";
                             "darwin"; "linuxkit"] in
          let copy_initrd : M error :=
            if negb initrdExists then
              let sourceInitrdPath := filepath_Join H [sourceDirPath; "initrd.img"] in
              (present ← fileExists sourceInitrdPath;
               if (present : bool) then
                 or_return (copyFile sourceInitrdPath initrdPath)
                     (fun e => Some (errors_Wrap e "failed to copy LinuxKit initrd"))
                     (mret None)
               else mret (Some ("bundled LinuxKit initrd not found at "
                                +:+ sourceInitrdPath))) : M error
            else mret None in
          if negb kernelExists then
            let sourceKernelPath := filepath_Join H [sourceDirPath; "kernel"] in
            present ← fileExists sourceKernelPath;
            if (present : bool) then
              or_return (copyFile sourceKernelPath kernelPath)
                  (fun e => Some (errors_Wrap e "failed to copy LinuxKit kernel")) (
              or_return (os_Chmod H kernelPath 493)
                  (fun e => Some (errors_Wrap e "failed to make kernel executable"))
                  copy_initrd)
            else mret (Some ("bundled LinuxKit kernel not found at "
                             +:+ sourceKernelPath))
          else copy_initrd
      end)
  end.

Definition hyperkit_args (config : LinuxKitConfig) : list string :=
  ["-m"; pretty (lk_Memory config);
   "-c"; pretty (lk_CPUs config);
   "-s"; "virtio-blk,file://"
         +:+ filepath_Join H [lk_StateDir config; "disk.img"]
         +:+ ",format=raw";
   "-l"; "com1,stdio";
   "-F"; pid_file config;
   "-u";
   "-f"; "kexec," +:+ lk_KernelPath config +:+ ","
         +:+ lk_InitrdPath config +:+ ",";
   "-A";
   lk_Name config].

Definition StartLinuxKitVM (ctx : Context) (config : LinuxKitConfig) : M error :=
  if negb (IsRunningOnMacOS H) then mret None else
  up ← IsLinuxKitVMRunning config;
  if (up : bool) then mret None else
  or_return EnsureLinuxKitComponents
      (fun e => Some (errors_Wrap e "failed to ensure LinuxKit components")) (
  hyperkitPath ← GetHyperKitPath H;
  if String.eqb hyperkitPath "" then mret (Some "hyperkit binary not found") else
  or_return (os_MkdirAll H (lk_StateDir config) 493)
      (fun e => Some (errors_Wrap e "failed to create LinuxKit state directory")) (
  started ← cmd_Start_ctx H ctx (hyperkitPath :: hyperkit_args config);
  match started with
  | inl e => mret (Some (errors_Wrap e "failed to start LinuxKit VM"))
  | inr _ => time_Sleep (5 * Second);; mret None
  end)).

(** [process.Wait()] in a goroutine: when it delivers, and what. *)
Definition process_Wait (pid : nat) : M (option (Duration * error)) :=
  n ← tick; mret (wait_result H pid n).

Definition StopLinuxKitVM (config : LinuxKitConfig) : M error :=
  if negb (IsRunningOnMacOS H) then mret None else
  up ← IsLinuxKitVMRunning config;
  if negb up then mret None else
  present ← fileExists (pid_file config);
  if negb present then mret (Some "PID file not found for VM") else
  pidBytes ← os_ReadFile (pid_file config);
  match pidBytes with
  | inl e => mret (Some (errors_Wrap e "failed to read hyperkit PID file"))
  | inr bytes =>
      match strconv.Atoi (strings.TrimSpace bytes) with
      | None => mret (Some (errors_Wrap "invalid syntax"
                              "invalid PID in hyperkit PID file"))
      | Some pid =>
          let pid := Z.to_nat pid in
          (** interrupt, then terminate, then kill *)
          e1 ← process_Signal H pid Interrupt;
          r ← match e1 with
              | None => mret None
              | Some _ =>
                  e2 ← process_Signal H pid SIGTERM;
                  match e2 with
                  | None => mret None
                  | Some _ =>
                      or_return (process_Kill H pid)
                          (fun e => Some (errors_Wrap e
                                     "failed to kill hyperkit process"))
                          (mret None)
                  end
              end;
          match r with
          | Some e => mret (Some e)
          | None =>
              done ← process_Wait pid;
              t0 ← now;
              c ← select H ((CaseTimeout, t0 + 10 * Second)
                            :: match done with
                               | Some (d, _) => [(CaseDone, t0 + d)]
                               | None => []
                               end);
              match c, done with
              | CaseDone, Some (_, Some e) =>
                  mret (Some (errors_Wrap e
                          "error waiting for hyperkit process to exit"))
              | CaseDone, _ => mret None
              | _, _ =>
                  or_return (process_Kill H pid)
                      (fun e => Some (errors_Wrap e
                         "failed to kill hyperkit process after timeout"))
                      (mret None)
              end
          end
      end
  end.

End linuxkit.

(** ** The WSL2 helpers *)

Record WSL2Config := {
  wsl_Enabled : bool;
  wsl_Distribution : string;
  wsl_MountDir : string;
  wsl_Memory : Z;
  wsl_CPUs : Z;
  wsl_Swap : Z;
  wsl_DiskGB : Z;
  wsl_Kernel : string;
}.

Definition nl : string := String (ascii_of_nat 10) EmptyString.
Definition dquote : string := String (ascii_of_nat 34) EmptyString.

Section wsl2.
Context (H : Host).

Definition DefaultWSL2Config : WSL2Config :=
  {| wsl_Enabled := true;
     wsl_Distribution := "wsl-fun";
     wsl_MountDir := filepath_Join H [home_dir H; ".fun"; "wsl-mounts"];
     wsl_Memory := 4096; wsl_CPUs := 2; wsl_Swap := 2048; wsl_DiskGB := 10;
     wsl_Kernel := "" |}.

Definition wsl2_missing : string :=
  "WSL2 is not installed. Please install WSL2 from Microsoft Store or run 'wsl --install' in an elevated command prompt".

Definition IsWSL2Available : M bool :=
  wslPath ← exec_LookPath H "wsl.exe";
  match wslPath with
  | None => mret false
  | Some wslPath =>
      '(err, output) ← cmd_CombinedOutput H [wslPath; "--status"];
      match err with
      | Some _ => mret false
      | None =>
          let outputStr := strings.ToLower output in
          mret (strings.Contains outputStr "wsl 2"
                || strings.Contains outputStr "wsl2")
      end
  end.

Definition IsWSL2DistributionAvailable (distribution : string) : M bool :=
  '(err, output) ← cmd_CombinedOutput H ["wsl.exe"; "--list"; "--quiet"];
  match err with
  | Some _ => mret false
  | None =>
      mret (strings.Contains (strings.ToLower output)
                             (strings.ToLower distribution))
  end.

Definition ubuntuURL : string :=
  "https://cloud-images.ubuntu.com/minimal/releases/focal/release/ubuntu-20.04-minimal-cloudimg-amd64-root.tar.xz".

(** [os.CreateTemp("", pattern)]: a fresh file in the temporary directory. *)
Definition os_CreateTemp (pattern : string) : M (string + string) :=
  n ← tick;
  let name := filepath_Join H [os_TempDir H; pattern +:+ pretty n] in
  match io_fault H "createtemp" name n with
  | Some e => mret (inl e)
  | None =>
      update_fs (insert name (File 384 ""));;
      emit (EvOpenWrite name);;
      mret (inr name)
  end.

(** [client.Do(req)] for the GET request that
    [http.NewRequestWithContext(ctx, ...)] made. *)
Definition http_Get_ctx (ctx : Context) (url : string)
  : M (string + (Z * string * string)) :=
  t ← now;
  match Context_Err ctx t with
  | Some e => mret (inl ("Get " +:+ dquote +:+ url +:+ dquote +:+ ": "
                         +:+ ctxErr_text e))
  | None => n ← tick; mret (http_get H url n)
  end.

Definition downloadWSLRootFS (ctx : Context) (targetPath : string) : M error :=
  or_return (os_MkdirAll H (filepath_Dir H targetPath) 493)
      (fun e => Some (errors_Wrap e "failed to create rootfs directory")) (
  tempFile ← os_CreateTemp "ubuntu-rootfs-";
  match tempFile with
  | inl e => mret (Some (errors_Wrap e
               "failed to create temporary file for rootfs download"))
  | inr tempName =>
      (** the deferred [os.Remove] runs on every return below *)
      r ← (fmt_Printf "Downloading Ubuntu rootfs for WSL2... This may take a while.";;
           resp ← http_Get_ctx ctx ubuntuURL;
           match resp with
           | inl e => mret (Some (errors_Wrap e "failed to download rootfs"))
           | inr (code, status, body) =>
               if negb (code =? 200)
               then mret (Some ("failed to download rootfs: " +:+ status))
               else
                 or_return (io_Copy H ubuntuURL tempName body)
                     (fun e => Some (errors_Wrap e "failed to save rootfs download")) (
                 fmt_Printf "Extracting rootfs...";;
                 or_return (os_MkdirAll H targetPath 493)
                     (fun e => Some (errors_Wrap e "failed to create target directory")) (
                 '(err, output) ← cmd_CombinedOutput_ctx H ctx
                    ["powershell.exe"; "-Command";
                     "Expand-Archive -Path " +:+ dquote +:+ tempName +:+ dquote
                     +:+ " -DestinationPath " +:+ dquote +:+ targetPath
                     +:+ dquote];
                 match err with
                 | Some e => mret (Some (errors_Wrap e
                               ("failed to extract rootfs: " +:+ output)))
                 | None => fmt_Printf "Rootfs prepared for WSL2.";; mret None
                 end))
           end);
      os_Remove tempName;;
      mret r
  end).

(** [os.WriteFile(path, data, perm)]. *)
Definition os_WriteFile (path data : string) (perm : Z) : M error :=
  or_return (os_OpenFile H path true perm) Some (io_Copy H "" path data).

Definition configureWSL2Distribution (config : WSL2Config) : M error :=
  let wslConfigPath := filepath_Join H [home_dir H; ".wslconfig"] in
  let configContent :=
    nl +:+ "[wsl2]" +:+ nl
    +:+ "memory=" +:+ pretty (wsl_Memory config) +:+ "MB" +:+ nl
    +:+ "processors=" +:+ pretty (wsl_CPUs config) +:+ nl
    +:+ "swap=" +:+ pretty (wsl_Swap config) +:+ "MB" +:+ nl in
  let configContent :=
    if negb (String.eqb (wsl_Kernel config) "")
    then configContent +:+ "kernel=" +:+ wsl_Kernel config +:+ nl
    else configContent in
  or_return (os_WriteFile wslConfigPath configContent 420)
      (fun e => Some (errors_Wrap e "failed to write WSL config file")) (
  or_return (os_MkdirAll H (wsl_MountDir config) 493)
      (fun e => Some (errors_Wrap e "failed to create WSL mount directory")) (
  mret None)).

Definition wsl_argv (config : WSL2Config) (rest : list string) : list string :=
  "wsl.exe" :: "--distribution" :: wsl_Distribution config :: "--" :: rest.

Definition EnsureContainerdInWSL (ctx : Context) (config : WSL2Config) : M error :=
  '(err, output) ← cmd_CombinedOutput_ctx H ctx (wsl_argv config ["which"; "containerd"]);
  if (bool_decide (err = None) && negb (String.eqb output ""))%bool
  then mret None else
  '(err, output) ← cmd_CombinedOutput_ctx H ctx
     (wsl_argv config ["apt-get"; "update"; "&&"; "apt-get"; "install"; "-y";
                       "containerd"]);
  match err with
  | Some e => mret (Some (errors_Wrap e
                ("failed to install containerd in WSL: " +:+ output)))
  | None =>
      '(err, output) ← cmd_CombinedOutput_ctx H ctx
         (wsl_argv config ["mkdir"; "-p"; "/etc/containerd"]);
      match err with
      | Some e => mret (Some (errors_Wrap e
           ("failed to create containerd config directory in WSL: " +:+ output)))
      | None =>
          let configContent :=
            nl +:+ "[plugins]" +:+ nl
            +:+ "  [plugins." +:+ dquote +:+ "io.containerd.grpc.v1.cri"
            +:+ dquote +:+ "]" +:+ nl
            +:+ "    sandbox_image = " +:+ dquote +:+ "k8s.gcr.io/pause:3.6"
            +:+ dquote +:+ nl in
          tempFile ← os_CreateTemp "containerd-config";
          match tempFile with
          | inl e => mret (Some (errors_Wrap e
                       "failed to create temporary config file"))
          | inr tempName =>
              r ← (or_return (io_Copy H "" tempName configContent)
                       (fun e => Some (errors_Wrap e
                          "failed to write to temporary config file")) (
                   '(err, output) ← cmd_CombinedOutput_ctx H ctx
                      (wsl_argv config ["cp"; tempName;
                                        "/etc/containerd/config.toml"]);
                   match err with
                   | Some e => mret (Some (errors_Wrap e
                        ("failed to copy containerd config to WSL: " +:+ output)))
                   | None => mret None
                   end));
              os_Remove tempName;;
              mret r
          end
      end
  end.

Definition InstallWSL2Components (ctx : Context) (config : WSL2Config) : M error :=
  available ← IsWSL2Available;
  if negb available then mret (Some wsl2_missing) else
  installed ← IsWSL2DistributionAvailable (wsl_Distribution config);
  if (installed : bool) then mret None else
  let wslDir := filepath_Join H [home_dir H; ".fun"; "wsl"] in
  or_return (os_MkdirAll H wslDir 493)
      (fun e => Some (errors_Wrap e "failed to create WSL directory")) (
  let rootfsPath := filepath_Join H [wslDir; "rootfs"] in
  or_return (downloadWSLRootFS ctx rootfsPath)
      (fun e => Some (errors_Wrap e "failed to download rootfs for WSL")) (
  fmt_Printf ("Creating WSL2 distribution '" +:+ wsl_Distribution config
              +:+ "'...");;
  '(err, output) ← cmd_CombinedOutput_ctx H ctx
     ["wsl.exe"; "--import"; wsl_Distribution config; wslDir; rootfsPath];
  match err with
  | Some e => mret (Some (errors_Wrap e
                ("failed to import WSL distribution: " +:+ output)))
  | None =>
      or_return (configureWSL2Distribution config)
          (fun e => Some (errors_Wrap e "failed to configure WSL distribution")) (
      fmt_Printf "Installing containerd in WSL distribution...";;
      or_return (EnsureContainerdInWSL ctx config)
          (fun e => Some (errors_Wrap e "failed to install containerd in WSL")) (
      fmt_Printf ("WSL2 distribution '" +:+ wsl_Distribution config
                  +:+ "' successfully created and configured.");;
      mret None))
  end)).

Definition mountWSL2Directory (config : WSL2Config) : M error :=
  '(err, output) ← cmd_CombinedOutput H
     (wsl_argv config ["mkdir"; "-p"; "/mnt/fun-host"]);
  match err with
  | Some e => mret (Some (errors_Wrap e
                ("failed to create mount directory in WSL: " +:+ output)))
  | None =>
      '(err, output) ← cmd_CombinedOutput H
         (wsl_argv config ["mount"; "--bind"; wsl_MountDir config;
                           "/mnt/fun-host"]);
      match err with
      | Some e => mret (Some (errors_Wrap e
                    ("failed to mount host directory in WSL: " +:+ output)))
      | None => mret None
      end
  end.

Definition StartWSL2Environment (ctx : Context) (config : WSL2Config) : M error :=
  available ← IsWSL2Available;
  if negb available then mret (Some wsl2_missing) else
  installed ← IsWSL2DistributionAvailable (wsl_Distribution config);
  or_return (if negb installed
       then or_return (InstallWSL2Components ctx config)
                (fun e => Some (errors_Wrap e "failed to install WSL components"))
                (mret None)
       else mret None) Some (
  started ← cmd_Start_ctx H ctx (wsl_argv config []);
  match started with
  | inl e => mret (Some (errors_Wrap e "failed to start WSL distribution"))
  | inr _ =>
      time_Sleep (5 * Second);;
      or_return (mountWSL2Directory config)
          (fun e => Some (errors_Wrap e "failed to mount host directory in WSL")) (
      started ← cmd_Start_ctx H ctx
        (wsl_argv config ["containerd"; "--address";
                          "/run/containerd/containerd.sock"]);
      match started with
      | inl e => mret (Some (errors_Wrap e "failed to start containerd in WSL"))
      | inr _ => time_Sleep (5 * Second);; mret None
      end)
  end).

Definition StopWSL2Environment (config : WSL2Config) : M error :=
  installed ← IsWSL2DistributionAvailable (wsl_Distribution config);
  if negb installed then mret None else
  '(err, output) ← cmd_CombinedOutput H
     ["wsl.exe"; "--terminate"; wsl_Distribution config];
  match err with
  | Some e => mret (Some (errors_Wrap e
                ("failed to terminate WSL distribution: " +:+ output)))
  | None => mret None
  end.

Definition GetWindowsContainerdSocketPath (config : WSL2Config) : M string :=
  if wsl_Enabled config then
    available ← IsWSL2Available;
    if (available : bool)
    then mret ("wsl://" +:+ wsl_Distribution config
               +:+ "/run/containerd/containerd.sock")
    else mret "\\.\pipe\fun-containerd"
  else mret "\\.\pipe\fun-containerd".

End wsl2.

(** ** server.go *)

Record ServerConfig := {
  Root : string;
  State : string;
  Address : string;
  Config : string;
  LogLevel : string;
  LogFile : string;
}.

(** The [*exec.Cmd] the server keeps: [Process] is [nil] until [Start]
    succeeds. *)
Record Cmd := {
  Path : string;
  Args : list string;
  Process : option nat;
}.

(** [Server]; the mutex and the unused [stopSignal] channel are left out
    (every method runs start to end under the mutex). *)
Record Server := {
  config : ServerConfig;
  cmd : option Cmd;
  running : bool;
  linuxKitConfig : LinuxKitConfig;
  wsl2Config : WSL2Config;
  vmRunning : bool;
  wslRunning : bool;
}.

Definition set_Address (a : string) (c : ServerConfig) : ServerConfig :=
  {| Root := Root c; State := State c; Address := a; Config := Config c;
     LogLevel := LogLevel c; LogFile := LogFile c |}.

Definition set_config (c : ServerConfig) (s : Server) : Server :=
  {| config := c; cmd := cmd s; running := running s;
     linuxKitConfig := linuxKitConfig s; wsl2Config := wsl2Config s;
     vmRunning := vmRunning s; wslRunning := wslRunning s |}.
Definition set_cmd (c : option Cmd) (s : Server) : Server :=
  {| config := config s; cmd := c; running := running s;
     linuxKitConfig := linuxKitConfig s; wsl2Config := wsl2Config s;
     vmRunning := vmRunning s; wslRunning := wslRunning s |}.
Definition set_running (b : bool) (s : Server) : Server :=
  {| config := config s; cmd := cmd s; running := b;
     linuxKitConfig := linuxKitConfig s; wsl2Config := wsl2Config s;
     vmRunning := vmRunning s; wslRunning := wslRunning s |}.
Definition set_vmRunning (b : bool) (s : Server) : Server :=
  {| config := config s; cmd := cmd s; running := running s;
     linuxKitConfig := linuxKitConfig s; wsl2Config := wsl2Config s;
     vmRunning := b; wslRunning := wslRunning s |}.
Definition set_wslRunning (b : bool) (s : Server) : Server :=
  {| config := config s; cmd := cmd s; running := running s;
     linuxKitConfig := linuxKitConfig s; wsl2Config := wsl2Config s;
     vmRunning := vmRunning s; wslRunning := b |}.

(** What a method call does to its caller: it returns, or it panics (a nil
  dereference). *)
Inductive Outcome :=
| Returned (e : error)
| Panicked.

Section new_server.
Context (H : Host).

Definition DefaultServerConfig : ServerConfig :=
  let dataDir := filepath_Join H [home_dir H; ".fun"; "containerd"] in
  {| Root := filepath_Join H [dataDir; "root"];
     State := filepath_Join H [dataDir; "state"];
     Address := if on_windows H then "\\.\pipe\fun-containerd"
                else filepath_Join H [dataDir; "containerd.sock"];
     Config := "";
     LogLevel := "info";
     LogFile := filepath_Join H [dataDir; "containerd.log"] |}.

Definition or_default (s dflt : string) : string :=
  if String.eqb s "" then dflt else s.

Definition NewServer (config : ServerConfig) : Server :=
  {| config :=
       {| Root := or_default (Root config)
                    (filepath_Join H [home_dir H; ".fun"; "containerd"; "root"]);
          State := or_default (State config)
                     (filepath_Join H [home_dir H; ".fun"; "containerd"; "state"]);
          Address := or_default (Address config) (GetFunSocketPath H);
          Config := Config config;
          LogLevel := or_default (LogLevel config) "info";
          LogFile := or_default (LogFile config)
                       (filepath_Join H [home_dir H; ".fun"; "containerd";
                                         "containerd.log"]) |};
     cmd := None;
     running := false;
     linuxKitConfig := DefaultLinuxKitConfig H;
     wsl2Config := DefaultWSL2Config H;
     vmRunning := false;
     wslRunning := false |}.

End new_server.

(** The methods of [Server].  [Start] is cut at its [return]s into the phases
  it runs through. *)
Module Server.
Section server.
Context (H : Host).

(** [Start], lines 110-128: the hypervisor VM on macOS. *)
Definition startHypervisorVM (ctx : Context) (s : Server) : M (error * Server) :=
  log_Printf "Starting LinuxKit VM for containerd on macOS";;
  or_return (StartLinuxKitVM H ctx (linuxKitConfig s))
      (fun e => (Some (errors_Wrap e "failed to start LinuxKit VM"), s)) (
  let s := set_vmRunning true s in
  time_Sleep (10 * Second);;
  mret (None, set_running true s)).

Definition wsl2_failed (e : string) : string :=
  "Failed to start WSL2 environment: " +:+ e
  +:+ ". Falling back to native Windows containers.".

Definition wsl2_unavailable : string :=
  "WSL2 is not available but was requested for Linux containers. Please install WSL2 from Microsoft Store or run 'wsl --install' in an elevated command prompt. Falling back to native Windows containers which may not support all Linux container features.".

Definition using_native : string := "Using native Windows container runtime".

(** [Start], lines 130-164, on Windows: [inl] is a [return] of [Start],
    [inr] falls through to the native start-up. *)
Definition startWSL2 (ctx : Context) (s : Server)
  : M ((error * Server) + Server) :=
  available ← (if wsl_Enabled (wsl2Config s) then IsWSL2Available H
               else mret false);
  if (wsl_Enabled (wsl2Config s) && available)%bool then
    log_Printf "Starting WSL2 environment for containerd on Windows";;
    err ← StartWSL2Environment H ctx (wsl2Config s);
    match err with
    | Some e =>
        log_Printf (wsl2_failed e);;
        log_Printf using_native;;
        mret (inr s)
    | None =>
        let s := set_wslRunning true s in
        or_return (EnsureContainerdInWSL H ctx (wsl2Config s))
            (fun e => inl (Some (errors_Wrap e
               "failed to ensure containerd is installed in WSL2"), s)) (
        address ← GetWindowsContainerdSocketPath H (wsl2Config s);
        let s := set_config (set_Address address (config s)) s in
        mret (inl (None, set_running true s)))
    end
  else
    (if wsl_Enabled (wsl2Config s) then log_Printf wsl2_unavailable
     else mret tt);;
    log_Printf using_native;;
    mret (inr s).

(** [Start], lines 166-246: the binaries, the directories and the argument
    vector of the engine.  [inl] is the error [Start] returns. *)
Definition nativePrepare (s : Server) : M (string + (string * list string)) :=
  err ← EnsureAllBundledComponentsExtracted H;
  r ← match err with
      | None => mret None
      | Some _ =>
          ci ← IsContainerdInstalled H;
          if negb ci
          then mret (Some "containerd is not available and failed to extract bundled binary")
          else
            ri ← IsRuncInstalled H;
            if negb ri
            then mret (Some "runc is not available and failed to extract bundled binary")
            else
              cni ← HasCNIPlugins H;
              (if negb cni
               then log_Printf "Warning: CNI plugins are not available, networking functionality may be limited"
               else mret tt);;
              mret None
      end;
  match r with
  | Some e => mret (inl e)
  | None =>
      containerdPath ← GetContainerdPath H;
      if String.eqb containerdPath "" then mret (inl "containerd is not available") else
      runcPath ← GetRuncPath H;
      if String.eqb runcPath "" then mret (inl "runc is not available") else
      or_return (os_MkdirAll H (Root (config s)) 493)
          (fun e => inl (errors_Wrap e "failed to create root directory")) (
      or_return (os_MkdirAll H (State (config s)) 493)
          (fun e => inl (errors_Wrap e "failed to create state directory")) (
      or_return (if negb (strings.HasPrefix (Address (config s)) pipePrefix)
           then os_MkdirAll H (filepath_Dir H (Address (config s))) 493
           else mret None)
          (fun e => inl (errors_Wrap e "failed to create socket directory")) (
      or_return (os_MkdirAll H (filepath_Dir H (LogFile (config s))) 493)
          (fun e => inl (errors_Wrap e "failed to create log directory")) (
      let args := ["--root"; Root (config s);
                   "--state"; State (config s);
                   "--address"; Address (config s);
                   "--log-level"; LogLevel (config s)] in
      ri ← IsRuncInstalled H;
      let args :=
        if (ri && strings.Contains runcPath (BundledBinaryDir H))%bool
        then (args ++ ["--runtime-type"; "io.containerd.runc.v2";
                       "--runtime-engine"; runcPath])%list
        else args in
      cniPath ← GetCNIPath H;
      let cniConfDir := filepath_Join H [Root (config s); "cni"; "conf"] in
      let with_cni :=
        (negb (String.eqb cniPath "")
         && strings.Contains cniPath (BundledBinaryDir H))%bool in
      let args :=
        if with_cni
        then (args ++ ["--cni-bin-dir"; cniPath; "--cni-conf-dir"; cniConfDir])%list
        else args in
      or_return (if with_cni then os_MkdirAll H cniConfDir 493 else mret None)
          (fun e => inl (errors_Wrap e
             "failed to create CNI configuration directory")) (
      let args :=
        if negb (String.eqb (Config (config s)) "")
        then (args ++ ["--config"; Config (config s)])%list
        else args in
      mret (inr (containerdPath, args)))))))
  end.

Definition readinessBudget : Duration := 30 * Second.

(** [Start], lines 266-276: wait for the socket; kill the engine when the
    wait fails. *)
Definition awaitReady (s : Server) (pid : nat) : M (error * Server) :=
  err ← WaitForSocket H (Address (config s)) readinessBudget;
  match err with
  | Some e =>
      process_Kill H pid;;
      mret (Some (errors_Wrap e "failed waiting for containerd to start"), s)
  | None => mret (None, set_running true s)
  end.

(** [Start], lines 248-264: the log file and the engine.  [inl] is a
    [return] of [Start]; [inr] is the server and the process that
    [cmd.Start()] made. *)
Definition nativeSpawn (ctx : Context) (s : Server)
    (containerdPath : string) (args : list string)
  : M ((error * Server) + (Server * nat)) :=
  let s := set_cmd (Some {| Path := containerdPath; Args := args;
                            Process := None |}) s in
  or_return (os_OpenFile H (LogFile (config s)) false 420)
      (fun e => inl (Some (errors_Wrap e "failed to open log file"), s)) (
  started ← cmd_Start_ctx H ctx (containerdPath :: args);
  match started with
  | inl e => mret (inl (Some (errors_Wrap e "failed to start containerd"), s))
  | inr pid =>
      mret (inr (set_cmd (Some {| Path := containerdPath; Args := args;
                                  Process := Some pid |}) s, pid))
  end).

(** [Start], lines 166-264. *)
Definition startNative (ctx : Context) (s : Server)
  : M ((error * Server) + (Server * nat)) :=
  r ← nativePrepare s;
  match r with
  | inl e => mret (inl (Some e, s))
  | inr (containerdPath, args) => nativeSpawn ctx s containerdPath args
  end.

(** [Start] up to line 264: either it has returned, or it has spawned the
    engine and is about to wait for its socket. *)
Definition upToSpawn (ctx : Context) (s : Server)
  : M ((error * Server) + (Server * nat)) :=
  if running s then mret (inl (None, s)) else
  if IsRunningOnMacOS H then r ← startHypervisorVM ctx s; mret (inl r) else
  if IsRunningOnWindows H then
    r ← startWSL2 ctx s;
    match r with
    | inl res => mret (inl res)
    | inr s => startNative ctx s
    end
  else startNative ctx s.

(** The rest of [Start]. *)
Definition finish (r : (error * Server) + (Server * nat)) : M (error * Server) :=
  match r with
  | inl res => mret res
  | inr (s, pid) => awaitReady s pid
  end.

(** The native start-up alone, lines 166-276. *)
Definition nativeStart (ctx : Context) (s : Server) : M (error * Server) :=
  r ← startNative ctx s; finish r.

(** [Server.Start]. *)
Definition Start (ctx : Context) (s : Server) : M (error * Server) :=
  r ← upToSpawn ctx s; finish r.

Definition escalationBudget : Duration := 30 * Second.

Definition killed_after_timeout : string :=
  "containerd did not exit gracefully, killed".
Definition killed_on_cancel : string :=
  "containerd killed due to context cancellation".

(** [Stop], lines 313-319: the exit waiter is started and the [select] takes
    the case that is ready first: the 30s timer, the waiter's result, or the
    caller's context.  The result is the case taken and what the waiter
    delivers. *)
Definition stopRace (ctx : Context) (pid : nat)
  : M (StopCase * option (Duration * error)) :=
  done ← process_Wait H pid;
  t0 ← now;
  c ← select H ((CaseTimeout, t0 + escalationBudget)
                :: (match done with
                    | Some (d, _) => [(CaseDone, t0 + d)]
                    | None => []
                    end
                    ++ match cancel_at ctx with
                       | Some t => [(CaseCtx, t)]
                       | None => []
                       end)%list);
  mret (c, done).

(** [Stop], lines 308-338: interrupt, then the three cases. *)
Definition stopNative (ctx : Context) (s : Server) (pid : nat)
  : M (Outcome * Server) :=
  or_return (process_Signal H pid Interrupt)
      (fun e => (Returned (Some (errors_Wrap e
                   "failed to send interrupt signal")), s)) (
  '(c, done) ← stopRace ctx pid;
  match c with
  | CaseTimeout =>
      or_return (process_Kill H pid)
          (fun e => (Returned (Some (errors_Wrap e
                       "failed to kill containerd process")), s))
          (mret (Returned (Some killed_after_timeout), s))
  | CaseDone =>
      let s := set_running false s in
      match done with
      | Some (_, Some e) =>
          mret (Returned (Some (errors_Wrap e "containerd exited with error")), s)
      | _ => mret (Returned None, s)
      end
  | CaseCtx =>
      or_return (process_Kill H pid)
          (fun e => (Returned (Some (errors_Wrap e
                       "failed to kill containerd process on context done")), s))
          (mret (Returned (Some killed_on_cancel), s))
  end).

(** The guard of line 304; [||] looks at [s.cmd.Process] only when [s.cmd]
    is not nil. *)
Definition nothing_to_stop (s : Server) : bool :=
  negb (running s)
  || match cmd s with
     | None => true
     | Some c => bool_decide (Process c = None)
     end.

(** [Server.Stop]. *)
Definition Stop (ctx : Context) (s : Server) : M (Outcome * Server) :=
  if (IsRunningOnMacOS H && vmRunning s)%bool then
    or_return (StopLinuxKitVM H (linuxKitConfig s))
        (fun e => (Returned (Some (errors_Wrap e "failed to stop LinuxKit VM")), s))
        (mret (Returned None, set_running false (set_vmRunning false s)))
  else if (IsRunningOnWindows H && wslRunning s)%bool then
    or_return (StopWSL2Environment H (wsl2Config s))
        (fun e => (Returned (Some (errors_Wrap e
                     "failed to stop WSL2 environment")), s))
        (mret (Returned None, set_running false (set_wslRunning false s)))
  else if nothing_to_stop s then mret (Returned None, s)
  else
    (** [s.cmd.Process.Signal]: two dereferences *)
    match cmd s with
    | None => mret (Panicked, s)
    | Some c =>
        match Process c with
        | None => mret (Panicked, s)
        | Some pid => stopNative ctx s pid
        end
    end.

Definition IsRunning (s : Server) : bool := running s.
Definition GetSocketAddress (s : Server) : string := Address (config s).
Definition GetLogFilePath (s : Server) : string := LogFile (config s).

End server.
End Server.

(** ** client.go: construction and [Close] *)

(** [Client]: [cl_client] is the [*containerd.Client], named by the address it
    was dialled at. *)
Record Client := {
  cl_client : option string;
  cl_namespace : string;
}.

Section client.
Context (H : Host).

Definition CreateWSLSocketProxy (ctx : Context) (config : WSL2Config)
  : M (string + string) :=
  let pipeName := "\\.\pipe\fun-containerd-wsl-" +:+ pretty (os_Getpid H) in
  started ← cmd_Start_ctx H ctx
    (wsl_argv config ["socat"; "UNIX-CONNECT:/run/containerd/containerd.sock";
                      "PIPE:" +:+ pipeName]);
  match started with
  | inl e => mret (inl (errors_Wrap e "failed to start socket proxy"))
  | inr _ => time_Sleep (1 * Second);; mret (inr pipeName)
  end.

Definition CheckWindowsLinuxContainerPrerequisites : M (bool * list string) :=
  available ← IsWSL2Available H;
  let missingPrereqs :=
    if negb available
    then ["WSL2 is not installed. Install from Microsoft Store or run 'wsl --install' as administrator."]
    else [] in
  '(err, output) ← cmd_CombinedOutput H
     ["powershell.exe"; "-Command";
      "(Get-CimInstance -ClassName Win32_ComputerSystem).HypervisorPresent"];
  let missingPrereqs :=
    if (bool_decide (err ≠ None)
        || negb (String.eqb (strings.TrimSpace output) "True"))%bool
    then (missingPrereqs ++ ["Virtualization is not enabled. Enable Hyper-V or Windows Hypervisor Platform in Windows Features."])%list
    else missingPrereqs in
  '(err, output) ← cmd_CombinedOutput H
     ["powershell.exe"; "-Command"; "[Environment]::OSVersion.Version"];
  let missingPrereqs :=
    if (bool_decide (err = None)
        && negb (strings.Contains (strings.TrimSpace output) "10."))%bool
    then (missingPrereqs ++ ["Windows 10 version 2004 or higher is required."])%list
    else missingPrereqs in
  mret (bool_decide (missingPrereqs = []), missingPrereqs).

Definition GetContainerdClientConfig (config : WSL2Config) : M (string + string) :=
  available ← IsWSL2Available H;
  if negb available then mret (inl "WSL2 is not available") else
  installed ← IsWSL2DistributionAvailable H (wsl_Distribution config);
  if negb installed then mret (inl "WSL2 distribution is not available") else
  t ← now;
  r ← CreateWSLSocketProxy {| cancel_at := Some (t + 30 * Second);
                              cause := DeadlineExceeded |} config;
  match r with
  | inl e => mret (inl (errors_Wrap e "failed to create socket proxy"))
  | inr socketPath => mret (inr socketPath)
  end.

Fixpoint print_numbered (i : Z) (prerequisites : list string) : M unit :=
  match prerequisites with
  | [] => mret tt
  | p :: rest =>
      fmt_Printf (pretty i +:+ ". " +:+ p);; print_numbered (i + 1) rest
  end.

Definition ShowWindowsPrerequisitesInstructions (prerequisites : list string)
  : M unit :=
  started ←
    match os_Executable H with
    | inl _ => mret false
    | inr executablePath =>
        let executableDir := filepath_Dir H executablePath in
        let wslCheckScript := filepath_Join H [executableDir; "check-wsl.ps1"] in
        st ← os_Stat H wslCheckScript;
        match st with
        | None => mret false
        | Some _ =>
            fmt_Printf "Running WSL2 installation helper...";;
            r ← cmd_Start H ["powershell.exe"; "-ExecutionPolicy"; "Bypass";
                             "-NoProfile"; "-File"; wslCheckScript;
                             executableDir];
            mret match r with inr _ => true | inl _ => false end
        end
    end;
  if (started : bool) then mret tt else
  fmt_Printf "To run Linux containers on Windows, please install the following prerequisites:";;
  print_numbered 1 prerequisites;;
  fmt_Printf "WSL2 Installation Instructions:";;
  fmt_Printf "1. Open PowerShell as Administrator and run: wsl --install";;
  fmt_Printf "2. Restart your computer to complete the installation";;
  fmt_Printf "3. After restart, open PowerShell and run: wsl --set-default-version 2";;
  fmt_Printf "4. Run this application again to set up the container environment";;
  fmt_Printf "For more information, see: https://docs.microsoft.com/en-us/windows/wsl/install".

(** [containerd.New(socket, ...)]. *)
Definition containerd_New (socket : string) : M error :=
  n ← tick; emit (EvDial socket);; mret (dial_result H socket n).

Definition NewClient (socket namespace : string) : M (string + Client) :=
  r ← (if IsRunningOnWindows H then
         let wsl2Config := DefaultWSL2Config H in
         if wsl_Enabled wsl2Config then
           '(hasPrereqs, missingPrereqs) ← CheckWindowsLinuxContainerPrerequisites;
           if negb hasPrereqs then
             ShowWindowsPrerequisitesInstructions missingPrereqs;;
             mret (inl "missing prerequisites for Linux containers on Windows")
           else
             cfg ← GetContainerdClientConfig wsl2Config;
             mret (inr match cfg with inr socketPath => socketPath
                                 | inl _ => socket end)
         else mret (inr socket)
       else mret (inr socket));
  match r with
  | inl e => mret (inl e)
  | inr socket =>
      err ← containerd_New socket;
      match err with
      | Some e => mret (inl (errors_Wrap e
                    ("failed to connect to containerd at " +:+ socket)))
      | None => mret (inr {| cl_client := Some socket;
                             cl_namespace := namespace |})
      end
  end.

(** [Client.Close]. *)
Definition Close (c : Client) : M error :=
  match cl_client c with
  | Some address =>
      n ← tick; emit (EvCloseClient address);; mret (close_result H address n)
  | None => mret None
  end.

End client.

(** ** The manager *)

Record ManagerConfig := {
  RunAs : string;
  mc_ServerConfig : ServerConfig;
  ClientSocket : string;
  Namespace : string;
}.

Record Manager := {
  mgr_config : ManagerConfig;
  server : option Server;
  client : option Client;
  useEmbedded : bool;
}.

Definition set_server (sv : option Server) (m : Manager) : Manager :=
  {| mgr_config := mgr_config m; server := sv; client := client m;
     useEmbedded := useEmbedded m |}.
Definition set_client (c : option Client) (m : Manager) : Manager :=
  {| mgr_config := mgr_config m; server := server m; client := c;
     useEmbedded := useEmbedded m |}.
Definition set_ClientSocket (a : string) (m : Manager) : Manager :=
  {| mgr_config := {| RunAs := RunAs (mgr_config m);
                      mc_ServerConfig := mc_ServerConfig (mgr_config m);
                      ClientSocket := a;
                      Namespace := Namespace (mgr_config m) |};
     server := server m; client := client m; useEmbedded := useEmbedded m |}.

Module Manager.
Section manager.
Context (H : Host).

Definition DefaultManagerConfig : M ManagerConfig :=
  installed ← IsContainerdInstalled H;
  mret {| RunAs := if (installed : bool) then "client" else "none";
          mc_ServerConfig := DefaultServerConfig H;
          ClientSocket :=
            if on_windows H then "\\.\pipe\fun-containerd"
            else filepath_Join H [home_dir H; ".fun"; "containerd";
                                  "containerd.sock"];
          Namespace := "fun" |}.

Definition NewManager (config : ManagerConfig) : Manager :=
  let runAs := or_default (RunAs config) "client" in
  let namespace := or_default (Namespace config) "fun" in
  let serverConfig :=
    if (String.eqb runAs "both"
        && String.eqb (Address (mc_ServerConfig config)) "")%bool
    then set_Address (ClientSocket config) (mc_ServerConfig config)
    else mc_ServerConfig config in
  {| mgr_config := {| RunAs := runAs; mc_ServerConfig := serverConfig;
                      ClientSocket := ClientSocket config;
                      Namespace := namespace |};
     server := None;
     client := None;
     useEmbedded := (String.eqb runAs "server" || String.eqb runAs "both")%bool |}.

(** The second half of [Manager.Start]: the client. *)
Definition startClient (ctx : Context) (m : Manager) : M (Outcome * Manager) :=
  let runAs := RunAs (mgr_config m) in
  if (String.eqb runAs "client" || String.eqb runAs "both")%bool then
    up ← (if String.eqb runAs "client"
          then CheckContainerdRunning H (ClientSocket (mgr_config m))
          else mret true);
    if negb up
    then mret (Returned (Some ("no containerd instance available at "
                               +:+ ClientSocket (mgr_config m))), m)
    else
      c ← NewClient H (ClientSocket (mgr_config m)) (Namespace (mgr_config m));
      match c with
      | inl e =>
          let failed := Returned (Some (errors_Wrap e
                          "failed to create containerd client")) in
          match server m with
          | Some sv =>
              '(o, _) ← Server.Stop H ctx sv;
              match o with
              | Panicked => mret (Panicked, m)
              | Returned _ => mret (failed, set_server None m)
              end
          | None => mret (failed, m)
          end
      | inr c => mret (Returned None, set_client (Some c) m)
      end
  else mret (Returned None, m).

(** [Manager.Start]. *)
Definition Start (ctx : Context) (m : Manager) : M (Outcome * Manager) :=
  let runAs := RunAs (mgr_config m) in
  if (String.eqb runAs "server" || String.eqb runAs "both")%bool then
    installed ← IsContainerdInstalled H;
    if negb installed
    then mret (Returned (Some "containerd is not installed, cannot run as server"), m)
    else
      '(err, sv) ← Server.Start H ctx (NewServer H (mc_ServerConfig (mgr_config m)));
      match err with
      | Some e => mret (Returned (Some (errors_Wrap e
                          "failed to start containerd server")), m)
      | None =>
          let m := set_server (Some sv) m in
          let m := if String.eqb runAs "both"
                   then set_ClientSocket (Server.GetSocketAddress sv) m else m in
          startClient ctx m
      end
  else startClient ctx m.

(** [Manager.Stop]. *)
Definition Stop (ctx : Context) (m : Manager) : M (Outcome * Manager) :=
  '(clientErr, m) ← match client m with
                    | Some c => e ← Close H c; mret (e, set_client None m)
                    | None => mret (None, m)
                    end;
  '(serverOut, m) ← match server m with
                    | Some sv =>
                        '(o, _) ← Server.Stop H ctx sv;
                        mret (o, match o with
                                 | Panicked => m
                                 | Returned _ => set_server None m
                                 end)
                    | None => mret (Returned None, m)
                    end;
  match serverOut, clientErr with
  | Panicked, _ => mret (Panicked, m)
  | Returned _, Some e =>
      mret (Returned (Some (errors_Wrap e "failed to close containerd client")), m)
  | Returned (Some e), None =>
      mret (Returned (Some (errors_Wrap e "failed to stop containerd server")), m)
  | Returned None, None => mret (Returned None, m)
  end.

Definition GetClient (m : Manager) : option Client := client m.
Definition GetServer (m : Manager) : option Server := server m.
Definition IsUsingEmbeddedServer (m : Manager) : bool := useEmbedded m.
Definition IsServerRunning (m : Manager) : bool :=
  match server m with
  | None => false
  | Some sv => Server.IsRunning sv
  end.

End manager.
End Manager.

(** ** Concrete hosts

    The hosts the examples run on.  Paths are joined with the separator of
    the platform; a path has already been cleaned. *)

Module Hosts.

(** [s] cut at its last separator. *)
Fixpoint split_last (sep : ascii) (s : string) : option (string * string) :=
  match s with
  | EmptyString => None
  | String c s' =>
      match split_last sep s' with
      | Some (d, b) => Some (String c d, b)
      | None => if Ascii.eqb c sep then Some (EmptyString, s') else None
      end
  end.

Definition join (sep : string) (elems : list string) : string :=
  String.concat sep (filter (fun e => e ≠ "") elems).

Definition dir (sep : ascii) (s : string) : string :=
  match split_last sep s with
  | Some (EmptyString, _) => String sep EmptyString
  | Some (d, _) => d
  | None => "."
  end.

Definition base (sep : ascii) (s : string) : string :=
  match split_last sep s with
  | Some (_, b) => b
  | None => s
  end.

(** A host described by what varies between the examples; every file
    operation succeeds, signals are delivered, clients connect. *)
Definition make (goos envOS : string) (sep : ascii) (home : string)
    (ext : string -> Z -> option Node)
    (look : string -> nat -> option string)
    (run : list string -> nat -> error * string)
    (spawn : list string -> nat -> error)
    (waits : nat -> nat -> option (Duration * error)) : Host :=
  {| GOOS := goos;
     env_OS := envOS;
     home_dir := home;
     os_UserConfigDir := Some (join (String sep EmptyString) [home; ".config"]);
     os_TempDir := join (String sep EmptyString) [home; "tmp"];
     os_Executable := inr (join (String sep EmptyString) [home; "app"; "fun"]);
     os_Getpid := 4242;
     umask := 18;
     filepath_Join := join (String sep EmptyString);
     filepath_Dir := dir sep;
     filepath_Base := base sep;
     ext_node := ext;
     io_fault := fun _ _ _ => None;
     look_path := look;
     run_result := run;
     spawn_result := spawn;
     signal_result := fun _ _ _ => None;
     kill_result := fun _ _ => None;
     wait_result := waits;
     tie_break := fun _ cs => default CaseTimeout (head cs);
     tick_first := fun _ => true;
     http_get := fun _ _ => inl "no network";
     dial_result := fun _ _ => None;
     close_result := fun _ _ => None |}.

(** A world at time 0 with the given files. *)
Definition world (files : list (string * Node)) : World :=
  {| fs := list_to_map files; clock := 0; steps := 0; logs := [];
     trace := [] |}.

End Hosts.

(** ** Observations used in the statements *)

Section observations.
Context (H : Host).

(** Whether [os.Stat(path)] succeeds at time [t] on the files of [w]. *)
Definition reachable (w : World) (path : string) (t : Z) : bool :=
  bool_decide (is_Some (result (os_Stat H path) (with_clock t w))).

(** The time of the [k]-th tick of a ticker started at [clock w]. *)
Definition tickTime (w : World) (k : nat) : Z :=
  clock w + Z.of_nat k * pollInterval.

(** The number of ticks strictly before the deadline. *)
Definition ticksBefore (timeout : Duration) : nat :=
  Z.to_nat ((timeout - 1) / pollInterval).

(** No probe among the ticks [from+1 .. from+n] finds the socket. *)
Definition unreachable_ticks (w : World) (path : string) (from n : nat) : Prop :=
  Forall (fun k => reachable w path (tickTime w k) = false) (seq (S from) n).

(** The condition under which [Start] falls back to the native backend on
    Windows: the availability probe of WSL2 fails, or it succeeds and
    [StartWSL2Environment] returns an error. *)
Definition falls_back (ctx : Context) (s : Server) (w : World) : Prop :=
  let wa := after (IsWSL2Available H) w in
  let wb := after (log_Printf
                     "Starting WSL2 environment for containerd on Windows") wa in
  result (IsWSL2Available H) w = false
  \/ (result (IsWSL2Available H) w = true
      /\ result (StartWSL2Environment H ctx (wsl2Config s)) wb <> None).

(** The time a run of [c] takes. *)
Definition elapsed {A} (c : M A) (w : World) : Z := clock (after c w) - clock w.

(** The events of a trace that start, signal or kill a process. *)
Definition process_event (e : Event) : bool :=
  match e with
  | EvSpawn _ _ | EvKill _ | EvSignal _ _ => true
  | _ => false
  end.

Definition process_events (t : list Event) : list Event :=
  filter (fun e => process_event e = true) t.

(** The settings of a server, the address apart, are those of [s]. *)
Definition same_settings (s s' : Server) : Prop :=
  linuxKitConfig s' = linuxKitConfig s
  /\ wsl2Config s' = wsl2Config s
  /\ Root (config s') = Root (config s)
  /\ State (config s') = State (config s)
  /\ Config (config s') = Config (config s)
  /\ LogLevel (config s') = LogLevel (config s)
  /\ LogFile (config s') = LogFile (config s).

(** The address of [s'], a server that [Start] made of [s] while returning
    [e]: the address of [s], unless [Start] succeeded through WSL2. *)
Definition address_after (s s' : Server) (e : error) : Prop :=
  Server.GetSocketAddress s' = Server.GetSocketAddress s
  \/ (IsRunningOnWindows H = true
      /\ wsl_Enabled (wsl2Config s) = true
      /\ e = None /\ wslRunning s' = true /\ running s' = true
      /\ (Server.GetSocketAddress s'
          = "wsl://" +:+ wsl_Distribution (wsl2Config s)
            +:+ "/run/containerd/containerd.sock"
          \/ Server.GetSocketAddress s' = "\\.\pipe\fun-containerd")).

End observations.

(** ** The bundled binaries as one family *)

(** The components that are a single executable; the three extractors share
  their body ([extract_binary]). *)
Inductive BundledBinary := Containerd | Runc | HyperKit.

Section ensure_extracted.
Context (H : Host).

(** The cache destination of a component. *)
Definition destination (c : BundledBinary) : string :=
  match c with
  | Containerd => GetBundledContainerdPath H
  | Runc => GetBundledRuncPath H
  | HyperKit => GetBundledHyperKitPath H
  end.

(** The extractor of a component. *)
Definition EnsureExtracted (c : BundledBinary) : M error :=
  match c with
  | Containerd => EnsureBundledContainerdExtracted H
  | Runc => EnsureBundledRuncExtracted H
  | HyperKit => EnsureBundledHyperKitExtracted H
  end.

Definition is_copy_to (dest : string) (e : Event) : bool :=
  match e with
  | EvCopy _ dst => String.eqb dst dest
  | _ => false
  end.

(** The number of copies into [dest] recorded in a trace. *)
Definition extraction_writes (dest : string) (t : list Event) : nat :=
  length (filter (fun e => is_copy_to dest e = true) t).

End ensure_extracted.

(** ** Example hosts and worlds *)

Module Examples.

Definition never_there : string -> Z -> option Node := fun _ _ => None.
Definition on_PATH : string -> nat -> option string :=
  fun name _ => Some ("/usr/bin/" +:+ name).
Definition not_on_PATH : string -> nat -> option string := fun _ _ => None.
Definition quiet : list string -> nat -> error * string := fun _ _ => (None, "").
Definition spawns : list string -> nat -> error := fun _ _ => None.

(** A Linux host whose engine brings its socket up after 250ms and exits
    two seconds after an interrupt. *)
Definition linux : Host :=
  Hosts.make "linux" "" "/" "/home/u"
    (fun p t => if (String.eqb p "/home/u/.fun/containerd/containerd.sock"
                    && (250 * Millisecond <=? t))%bool
                then Some (File 493 "") else None)
    on_PATH quiet spawns (fun _ _ => Some (2 * Second, None)).

(** The same host with an engine that never brings its socket up. *)
Definition linux_no_socket : Host :=
  Hosts.make "linux" "" "/" "/home/u" never_there
    on_PATH quiet spawns (fun _ _ => Some (2 * Second, None)).

(** The same host with an engine that ignores the interrupt. *)
Definition linux_stubborn : Host :=
  Hosts.make "linux" "" "/" "/home/u" (ext_node linux)
    on_PATH quiet spawns (fun _ _ => None).

(** The same host with an engine that exits with status 1 half a second
    after the interrupt. *)
Definition linux_failing_exit : Host :=
  Hosts.make "linux" "" "/" "/home/u" (ext_node linux)
    on_PATH quiet spawns
    (fun _ _ => Some (500 * Millisecond, Some "exit status 1")).

Definition empty_world : World := Hosts.world [].

(** The bundled runc next to the executable, and nothing in the cache. *)
Definition fresh_cache : World :=
  Hosts.world [("/home/u/app/binaries/linux/runc", File 493 "RUNC")].

(** The same, with a cached runc that lacks the executable bit. *)
Definition stale_cache : World :=
  Hosts.world [("/home/u/app/binaries/linux/runc", File 493 "RUNC");
               ("/home/u/.config/funserver/bin", Dir 493);
               ("/home/u/.config/funserver/bin/runc", File 420 "OLD")].

(** The same, with a cached executable runc. *)
Definition warm_cache : World :=
  Hosts.world [("/home/u/app/binaries/linux/runc", File 493 "RUNC");
               ("/home/u/.config/funserver/bin", Dir 493);
               ("/home/u/.config/funserver/bin/runc", File 493 "RUNC")].

(** On the Windows hosts: the bundled runc next to the executable, and
    nothing in the cache. *)
Definition windows_fresh_cache : World :=
  Hosts.world [("C:\Users\u\app\binaries\windows\runc.exe", File 438 "RUNC")].

(** An empty CNI cache directory, and one bundled plugin. *)
Definition empty_cni_cache : World :=
  Hosts.world [("/home/u/app/binaries/linux/cni", Dir 493);
               ("/home/u/app/binaries/linux/cni/bridge", File 493 "BRIDGE");
               ("/home/u/.config/funserver/bin", Dir 493);
               ("/home/u/.config/funserver/bin/cni", Dir 493)].

Definition mentions (word : string) (argv : list string) : bool :=
  bool_decide (word ∈ argv).

(** The answers of a machine on which WSL2 and the distribution are
    installed, with containerd inside it. *)
Definition wsl_answers : list string -> nat -> error * string := fun argv _ =>
  if mentions "--status" argv then (None, "Default Version: 2 (WSL 2)")
  else if mentions "--list" argv then (None, "Ubuntu wsl-fun")
  else if mentions "which" argv then (None, "/usr/bin/containerd")
  else (None, "").

Definition windows_PATH : string -> nat -> option string :=
  fun name _ => Some ("C:\bin\" +:+ name).

(** A socket file the engine makes after 250ms. *)
Definition socket_file : string := "C:\fun\containerd.sock".
Definition windows_socket : string -> Z -> option Node := fun p t =>
  if (String.eqb p socket_file && (250 * Millisecond <=? t))%bool
  then Some (File 438 "") else None.

(** A Windows host with a working WSL2. *)
Definition windows_wsl : Host :=
  Hosts.make "windows" "Windows_NT" "\" "C:\Users\u" windows_socket
    windows_PATH wsl_answers spawns (fun _ _ => Some (2 * Second, None)).

(** A Windows host without [wsl.exe]. *)
Definition windows_no_wsl : Host :=
  Hosts.make "windows" "Windows_NT" "\" "C:\Users\u" windows_socket
    (fun name n => if String.eqb name "wsl.exe" then None
                   else windows_PATH name n)
    quiet spawns (fun _ _ => Some (2 * Second, None)).

(** A Windows host on which containerd cannot be installed inside the
    distribution, and on which [wsl.exe] can no longer be started from the
    twelfth external call on. *)
Definition flaky_answers : list string -> nat -> error * string := fun argv _ =>
  if mentions "--status" argv then (None, "Default Version: 2 (WSL 2)")
  else if mentions "--list" argv then (None, "Ubuntu wsl-fun")
  else if mentions "install" argv
       then (Some "exit status 100", "E: Unable to locate package containerd")
  else (None, "").
Definition flaky_spawns : list string -> nat -> error := fun argv n =>
  if (mentions "wsl.exe" argv && Nat.leb 11 n)%bool
  then Some "exec: wsl.exe: file does not exist" else None.
Definition windows_flaky : Host :=
  Hosts.make "windows" "Windows_NT" "\" "C:\Users\u" windows_socket
    windows_PATH flaky_answers flaky_spawns (fun _ _ => Some (2 * Second, None)).

(** A server configuration that only sets the address, to a socket file. *)
Definition custom_address : ServerConfig :=
  {| Root := ""; State := ""; Address := socket_file; Config := "";
     LogLevel := ""; LogFile := "" |}.

(** A server with the default configuration, started on an empty world. *)
Definition boot (H : Host) : error * Server * World :=
  Server.Start H context_Background (NewServer H (DefaultServerConfig H))
               empty_world.

(** The engine command [boot] leaves in the server on the Linux hosts. *)
Definition engine : Cmd :=
  {| Path := "/usr/bin/containerd";
     Args := ["--root"; "/home/u/.fun/containerd/root";
              "--state"; "/home/u/.fun/containerd/state";
              "--address"; "/home/u/.fun/containerd/containerd.sock";
              "--log-level"; "info"];
     Process := Some 10%nat |}.

(** The server of [boot] on the host whose engine never brings its socket up,
    at the moment [Start] begins to wait. *)
Definition spawned : Server :=
  set_cmd (Some engine) (NewServer linux_no_socket
                                   (DefaultServerConfig linux_no_socket)).
Definition spawned_world : World :=
  (Server.upToSpawn linux_no_socket context_Background
     (NewServer linux_no_socket (DefaultServerConfig linux_no_socket))
     empty_world).2.

(** The engine of the Windows hosts, as the native start-up spawns it for an
    address. *)
Definition windows_engine (address : string) (pid : nat) : Cmd :=
  {| Path := "C:\bin\containerd";
     Args := ["--root"; "C:\Users\u\.fun\containerd\root";
              "--state"; "C:\Users\u\.fun\containerd\state";
              "--address"; address;
              "--log-level"; "info"];
     Process := Some pid |}.

(** On the Windows host without [wsl.exe]: the world when [Start] has logged
    the fallback, and the world when it has spawned the engine. *)
Definition fallen_back (config : ServerConfig) : World :=
  after (Server.startWSL2 Examples.windows_no_wsl context_Background
           (NewServer Examples.windows_no_wsl config)) Examples.empty_world.
Definition fallback_spawned (config : ServerConfig) : World :=
  after (Server.startNative Examples.windows_no_wsl context_Background
           (NewServer Examples.windows_no_wsl config)) (fallen_back config).
(** A manager in server mode. *)
Definition server_mode (H : Host) : ManagerConfig :=
  {| RunAs := "server"; mc_ServerConfig := DefaultServerConfig H;
     ClientSocket := ""; Namespace := "" |}.

(** A manager that owns the server of [boot] and no client. *)
Definition owner (H : Host) : Manager :=
  set_server (Some (boot H).1.2)
             (Manager.NewManager {| RunAs := "server";
                                    mc_ServerConfig := DefaultServerConfig H;
                                    ClientSocket := "";
                                    Namespace := "" |}).

End Examples.

(** ** Further observations *)

(** A computation that starts, signals and kills no process, and during
    which the clock stands still. *)
Definition silent {A} (c : M A) : Prop :=
  forall w, process_events (trace (c w).2) = process_events (trace w)
            /\ clock (c w).2 = clock w.

(** A computation during which the clock stands still. *)
Definition timeless {A} (c : M A) : Prop := forall w, clock (c w).2 = clock w.

(** A computation that waits at most [d]. *)
Definition within {A} (d : Duration) (c : M A) : Prop :=
  forall w, 0 <= clock (c w).2 - clock w <= d.

(** The result of [c] satisfies [P], whatever the world. *)
Definition always {A} (P : A -> Prop) (c : M A) : Prop := forall w, P (c w).1.

(** A server with nothing active: the state [NewServer] makes. *)
Definition idle (s : Server) : Prop :=
  running s = false /\ vmRunning s = false /\ wslRunning s = false.

(** The arguments every engine is started with. *)
Definition base_args (c : ServerConfig) : list string :=
  ["--root"; Root c; "--state"; State c; "--address"; Address c;
   "--log-level"; LogLevel c].

Section further_observations.
Context (H : Host).

(** The path lookup of a component. *)
Definition GetPath (c : BundledBinary) : M string :=
  match c with
  | Containerd => GetContainerdPath H
  | Runc => GetRuncPath H
  | HyperKit => GetHyperKitPath H
  end.

(** The bundled source of a component, next to the executable. *)
Definition bundled_source (c : BundledBinary) (executableDir : string) : string :=
  match c with
  | Containerd =>
      filepath_Join H [executableDir; default "" (binaryPaths !! GOOS H)]
  | Runc =>
      if on_windows H
      then filepath_Join H [executableDir; "binaries"; "windows"; "runc.exe"]
      else filepath_Join H [executableDir; "binaries"; GOOS H; "runc"]
  | HyperKit =>
      filepath_Join H [executableDir; "binaries"; "darwin"; "linuxkit";
                       "hyperkit"]
  end.

(** What a successful copy of [extract_binary] leaves at the destination:
    the bytes of the source written over those of a file found with mode [m]
    and bytes [d0]. *)
Definition copied (dest : string) (src : string -> string) (wa w1 : World)
    (m : Z) (d0 : string) : Prop :=
  exists exe ms data,
    os_Executable H = inr exe
    /\ result (os_Stat H (src (filepath_Dir H exe))) wa = Some (File ms data)
    /\ fs w1 = <[dest := File m (overwrite data d0)]> (fs wa)
    /\ clock w1 = clock wa.

(** What [nativePrepare] hands to the spawn. *)
Definition prepared (s : Server) (r : string + (string * list string)) : Prop :=
  match r with
  | inl _ => True
  | inr (path, args) =>
      path <> ""
      /\ exists rest,
           args = (base_args (config s) ++ rest)%list
           /\ (Config (config s) <> "" ->
               exists pre, rest = (pre ++ ["--config"; Config (config s)])%list)
  end.

(** The file [configureWSL2Distribution] writes. *)
Definition wslConfigPath : string := filepath_Join H [home_dir H; ".wslconfig"].

End further_observations.

(** ** The client's container operations

    The client talks to the daemon through the containerd library.  A
    [Daemon] record holds the daemon's answer to every request; a [Session]
    is the world together with the requests made so far. *)

(** [specs.Mount]. *)
Record Mount := {
  mnt_Source : string;
  mnt_Destination : string;
  mnt_Type : string;
  mnt_Options : list string;
}.

(** [CreateContainerOptions]; a map is the list of its entries. *)
Record CreateContainerOptions := {
  opt_ID : string;
  opt_Name : string;
  opt_Image : string;
  opt_Command : list string;
  opt_Args : list string;
  opt_Env : list string;
  opt_Labels : list (string * string);
  opt_Mounts : list Mount;
  opt_RestartPolicy : string;
  opt_PrivilegedMode : bool;
}.

(** [Container]; the back pointer to the client is left out. *)
Record Container := {
  ct_ID : string;
  ct_Name : string;
  ct_ImageRef : string;
  ct_Command : list string;
  ct_Args : list string;
  ct_Env : list string;
  ct_Labels : list (string * string);
  ct_Status : string;
  ct_CreatedAt : Z;
  ct_RestartPolicy : string;
  ct_PrivilegedMode : bool;
}.

(** The signals sent to a task. *)
Inductive TaskSignal := SigTerm | SigKill.

(** What [CreateContainer] puts into the OCI spec of a new container, beside
    the configuration of the image: [None] is an option that is not added. *)
Record ContainerSpec := {
  spec_env : list string;
  spec_args : option (list string);
  spec_mounts : option (list Mount);
  spec_privileged : bool;
}.

(** The requests the client sends to the daemon. *)
Inductive Request :=
| ReqPull (ref : string)
| ReqNewContainer (id image snapshot : string) (spec : ContainerSpec)
| ReqLoadContainer (id : string)
| ReqTask (id : string)
| ReqNewTask (id : string)
| ReqTaskStart (id : string)
| ReqTaskWait (id : string)
| ReqTaskKill (id : string) (sig : TaskSignal)
| ReqTaskDelete (id : string)
| ReqContainerDelete (id : string).

#[global] Instance TaskSignal_eq_dec : EqDecision TaskSignal.
Proof. solve_decision. Defined.
#[global] Instance Mount_eq_dec : EqDecision Mount.
Proof. solve_decision. Defined.
#[global] Instance ContainerSpec_eq_dec : EqDecision ContainerSpec.
Proof. solve_decision. Defined.
#[global] Instance Request_eq_dec : EqDecision Request.
Proof. solve_decision. Defined.

(** The daemon: its answer to every request and the time it takes to give
    it, by the number of requests made so far, and for a task that is waited
    for the time after which it exits ([None]: it does not exit). *)
Record Daemon := {
  reply : Request -> nat -> error;
  latency : Request -> nat -> Duration;
  task_exit : string -> nat -> option Duration;
}.

(** A session with the daemon: the world, and the requests made so far. *)
Record Session := {
  world : World;
  requests : list Request;
}.

Definition D (A : Type) : Type := Session -> A * Session.

#[global] Instance D_ret : MRet D := fun A (a : A) s => (a, s).
#[global] Instance D_bind : MBind D :=
  fun A B (f : A -> D B) (c : D A) s => let r := c s in f r.1 r.2.

(** A computation on the world alone, within a session. *)
Definition lift {A} (c : M A) : D A :=
  fun s => let r := c (world s) in
           (r.1, {| world := r.2; requests := requests s |}).

(** [if err := c; err != nil { return wrap(err) }; k] within a session. *)
Definition or_return_D {A} (c : D error) (wrap : string -> A) (k : D A) : D A :=
  e ← c; match e with Some msg => mret (wrap msg) | None => k end.

(** [errors.Wrap(err, msg)] as the error returned. *)
Definition wrapped (msg : string) : string -> error :=
  fun e => Some (errors_Wrap e msg).

Section containers.
Context (H : Host) (dm : Daemon).

(** One request: the call blocks until the daemon answers. *)
Definition request (r : Request) : D error :=
  fun s =>
    let n := length (requests s) in
    (reply dm r n,
     {| world := with_clock (clock (world s) + Z.max 0 (latency dm r n))
                            (world s);
        requests := (requests s ++ [r])%list |}).

(** The number of requests made so far. *)
Definition sent : D nat := fun s => (length (requests s), s).

(** [Client.PullImage]; the image is named by its reference. *)
Definition PullImage (ref : string) : D error :=
  or_return_D (request (ReqPull ref)) (wrapped "failed to pull image")
              (mret None).

(** [Client.CreateContainer]. *)
Definition CreateContainer (ctx : Context) (opts : CreateContainerOptions)
  : D (string + Container) :=
  or_return_D (PullImage (opt_Image opts))
      (fun e => inl (errors_Wrap e "failed to pull image")) (
  let id := if String.eqb (opt_ID opts) "" then opt_Name opts else opt_ID opts in
  let spec :=
    {| spec_env := opt_Env opts;
       spec_args := if (0 <? length (opt_Command opts))%nat
                    then Some (opt_Command opts ++ opt_Args opts)%list
                    else None;
       spec_mounts := if (0 <? length (opt_Mounts opts))%nat
                      then Some (opt_Mounts opts) else None;
       spec_privileged := opt_PrivilegedMode opts |} in
  or_return_D
      (request (ReqNewContainer id (opt_Image opts) (id +:+ "-snapshot") spec))
      (fun e => inl (errors_Wrap e "failed to create container")) (
  t ← lift now;
  mret (inr {| ct_ID := id;
               ct_Name := opt_Name opts;
               ct_ImageRef := opt_Image opts;
               ct_Command := opt_Command opts;
               ct_Args := opt_Args opts;
               ct_Env := opt_Env opts;
               ct_Labels := opt_Labels opts;
               ct_Status := "created";
               ct_CreatedAt := t;
               ct_RestartPolicy := opt_RestartPolicy opts;
               ct_PrivilegedMode := opt_PrivilegedMode opts |}))).

(** The log file [StartContainer] creates. *)
Definition logPath (containerID : string) : string :=
  filepath_Join H [os_TempDir H; containerID +:+ ".log"].

(** [Client.StartContainer]. *)
Definition StartContainer (ctx : Context) (containerID : string) : D error :=
  or_return_D (request (ReqLoadContainer containerID))
      (wrapped "failed to load container") (
  or_return_D (lift (os_OpenFile H (logPath containerID) true 438))
      (wrapped "failed to create log file") (
  or_return_D (request (ReqNewTask containerID))
      (wrapped "failed to create task") (
  or_return_D (request (ReqTaskStart containerID))
      (wrapped "failed to start task") (
  mret None)))).

(** [Client.StopContainer]: [ctx] is cut to [timeout], and the exit of the
    task races against it. *)
Definition StopContainer (ctx : Context) (containerID : string)
    (timeout : Duration) : D error :=
  or_return_D (request (ReqLoadContainer containerID))
      (wrapped "failed to load container") (
  or_return_D (request (ReqTask containerID)) (wrapped "failed to get task") (
  t0 ← lift now;
  let deadline := match cancel_at ctx with
                  | Some t => Z.min t (t0 + timeout)
                  | None => t0 + timeout
                  end in
  n ← sent;
  or_return_D (request (ReqTaskWait containerID))
      (wrapped "failed to wait for task") (
  or_return_D (request (ReqTaskKill containerID SigTerm))
      (wrapped "failed to send SIGTERM") (
  t1 ← lift now;
  c ← lift (select H (match task_exit dm containerID n with
                      | Some d => [(CaseDone, t1 + d)]
                      | None => []
                      end ++ [(CaseCtx, deadline)])%list);
  match c with
  | CaseDone => mret None
  | _ =>
      or_return_D (request (ReqTaskKill containerID SigKill))
          (wrapped "failed to send SIGKILL") (mret None)
  end)))).

(** [Client.RemoveContainer]. *)
Definition RemoveContainer (ctx : Context) (containerID : string)
    (force : bool) : D error :=
  or_return_D (request (ReqLoadContainer containerID))
      (wrapped "failed to load container") (
  err ← request (ReqTask containerID);
  or_return_D
      (match err with
       | None =>
           if force then
             or_return_D (request (ReqTaskKill containerID SigKill))
                 (wrapped "failed to kill task") (
             or_return_D (request (ReqTaskWait containerID))
                 (wrapped "failed to wait for task") (
             or_return_D (request (ReqTaskDelete containerID))
                 (wrapped "failed to delete task") (mret None)))
           else mret (Some "container is still running, use force to remove it")
       | Some _ => mret None
       end) Some (
  or_return_D (request (ReqContainerDelete containerID))
      (wrapped "failed to delete container") (mret None))).

(** [Client.GetContainer]. *)
Definition GetContainer (ctx : Context) (id : string) : D error :=
  request (ReqLoadContainer id).

End containers.

(** A product of durations as the 64-bit integer it is. *)
Definition int64 (z : Z) : Z := (z + 2 ^ 63) mod 2 ^ 64 - 2 ^ 63.

(** The container operations of the manager. *)
Module ManagerContainers.
Section manager_containers.
Context (H : Host) (dm : Daemon).

Definition not_initialized : string := "containerd client not initialized".

Definition CreateContainer (m : Manager) (ctx : Context)
    (opts : CreateContainerOptions) : D (string + Container) :=
  match client m with
  | None => mret (inl not_initialized)
  | Some _ => CreateContainer dm ctx opts
  end.

Definition StartContainer (m : Manager) (ctx : Context) (containerID : string)
  : D error :=
  match client m with
  | None => mret (Some not_initialized)
  | Some _ => StartContainer H dm ctx containerID
  end.

Definition StopContainer (m : Manager) (ctx : Context) (containerID : string)
    (timeout : Z) : D error :=
  match client m with
  | None => mret (Some not_initialized)
  | Some _ => StopContainer H dm ctx containerID (int64 (timeout * Second))
  end.

Definition RemoveContainer (m : Manager) (ctx : Context) (containerID : string)
    (force : bool) : D error :=
  match client m with
  | None => mret (Some not_initialized)
  | Some _ => RemoveContainer dm ctx containerID force
  end.

End manager_containers.
End ManagerContainers.

(** ** Compose *)

(** [strings.Split(s, sep)] for a separator of one byte. *)
Fixpoint strings_Split (s : string) (sep : ascii) : list string :=
  match s with
  | EmptyString => [EmptyString]
  | String c s' =>
      if Ascii.eqb c sep then EmptyString :: strings_Split s' sep
      else match strings_Split s' sep with
           | part :: parts => String c part :: parts
           | [] => [String c EmptyString]
           end
  end.

(** [ComposeService], the fields the code reads; a map is the list of its
    entries in the order [range] visits them. *)
Record ComposeService := {
  svc_Image : string;
  svc_Command : list string;
  svc_Environment : list (string * string);
  svc_Volumes : list string;
  svc_DependsOn : list string;
  svc_Restart : string;
  svc_Labels : list (string * string);
  svc_PrivilegedMode : bool;
}.

(** [ComposeConfig]: the services in the order [range] visits them. *)
Record ComposeConfig := {
  Version : string;
  Services : list (string * ComposeService);
}.

(** [Compose]; the client is the session's. *)
Record Compose := {
  cp_config : option ComposeConfig;
  project : string;
  file : string;
  containerRoot : string;
}.

Definition set_cp_config (cfg : ComposeConfig) (c : Compose) : Compose :=
  {| cp_config := Some cfg; project := project c; file := file c;
     containerRoot := containerRoot c |}.

(** The library functions [Compose] uses. *)
Record Library := {
  yaml_Unmarshal : string -> string + ComposeConfig;
  filepath_IsAbs : string -> bool;
}.

(** [config.Services[name]]. *)
Definition service_of (cfg : ComposeConfig) (name : string)
  : option ComposeService :=
  snd <$> (snd <$> list_find (fun kv => kv.1 = name) (Services cfg)).

Module Compose.
Section compose.
Context (H : Host) (dm : Daemon) (lib : Library).

Definition NewCompose (projectName file containerRoot : string) : Compose :=
  {| cp_config := None; project := projectName; file := file;
     containerRoot := containerRoot |}.

Definition LoadConfig (c : Compose) : D (error * Compose) :=
  data ← lift (os_ReadFile H (file c));
  match data with
  | inl e => mret (Some (errors_Wrap e "failed to read compose file"), c)
  | inr data =>
      match yaml_Unmarshal lib data with
      | inl e => mret (Some (errors_Wrap e "failed to parse compose file"), c)
      | inr cfg => mret (None, set_cp_config cfg c)
      end
  end.

(** The guard [if c.config == nil { LoadConfig }] that opens every method:
    the error, or the configuration to work on.  [LoadConfig] sets the
    configuration whenever it returns [nil], so the last case does not
    arise. *)
Definition loaded (c : Compose) : D ((string + ComposeConfig) * Compose) :=
  match cp_config c with
  | Some cfg => mret (inr cfg, c)
  | None =>
      '(err, c) ← LoadConfig c;
      match err, cp_config c with
      | Some e, _ => mret (inl e, c)
      | None, Some cfg => mret (inr cfg, c)
      | None, None => mret (inl "", c)
      end
  end.

Definition getContainerID (c : Compose) (serviceName : string) : string :=
  project c +:+ "-" +:+ serviceName.

(** The loop of [startService] over the volumes: the mounts, or the error
    [startService] returns. *)
Fixpoint volume_mounts (c : Compose) (volumes : list string)
    (mounts : list Mount) : D (string + list Mount) :=
  match volumes with
  | [] => mret (inr mounts)
  | vol :: rest =>
      match strings_Split vol ":" with
      | [src; dst] =>
          let mount src :=
            volume_mounts c rest
              (mounts ++ [{| mnt_Source := src; mnt_Destination := dst;
                             mnt_Type := "bind";
                             mnt_Options := ["rbind"; "rw"] |}])%list in
          if negb (filepath_IsAbs lib src) then
            let src := filepath_Join H [containerRoot c; "volumes"; src] in
            or_return_D (lift (os_MkdirAll H src 493))
                (fun e => inl (errors_Wrap e
                   ("failed to create volume directory " +:+ src)))
                (mount src)
          else mount src
      | _ => mret (inl ("invalid volume format: " +:+ vol))
      end
  end.

(** [startService] after its dependencies: lines 211-276. *)
Definition startOne (ctx : Context) (c : Compose) (serviceName : string)
    (service : ComposeService) : D error :=
  let containerID := getContainerID c serviceName in
  err ← GetContainer dm ctx containerID;
  match err with
  | None =>
      or_return_D (StartContainer H dm ctx containerID)
          (fun e => Some (errors_Wrap e
             ("failed to start existing container for service "
              +:+ serviceName)))
          (mret None)
  | Some _ =>
      let env := (fun kv : string * string => kv.1 +:+ "=" +:+ kv.2)
                 <$> svc_Environment service in
      mounts ← volume_mounts c (svc_Volumes service) [];
      match mounts with
      | inl e => mret (Some e)
      | inr mounts =>
          container ← CreateContainer dm ctx
            {| opt_ID := containerID;
               opt_Name := serviceName;
               opt_Image := svc_Image service;
               opt_Command := svc_Command service;
               opt_Args := [];
               opt_Env := env;
               opt_Labels := svc_Labels service;
               opt_Mounts := mounts;
               opt_RestartPolicy := svc_Restart service;
               opt_PrivilegedMode := svc_PrivilegedMode service |};
          match container with
          | inl e => mret (Some (errors_Wrap e
                        ("failed to create container for service "
                         +:+ serviceName)))
          | inr container =>
              or_return_D (StartContainer H dm ctx (ct_ID container))
                  (fun e => Some (errors_Wrap e
                     ("failed to start container for service "
                      +:+ serviceName)))
                  (mret None)
          end
      end
  end.

(** The loop of [startService] over the dependencies; [start] is the
    recursive call. *)
Fixpoint dependencies
    (start : string -> ComposeService -> D (option error))
    (cfg : ComposeConfig) (serviceName : string) (deps : list string)
  : D (option error) :=
  match deps with
  | [] => mret (Some None)
  | dep :: rest =>
      match service_of cfg dep with
      | None =>
          mret (Some (Some ("service " +:+ serviceName +:+ " depends on "
                            +:+ dep +:+ ", but it is not defined")))
      | Some depService =>
          r ← start dep depService;
          match r with
          | Some None => dependencies start cfg serviceName rest
          | _ => mret r
          end
      end
  end.

(** [startService]: the dependencies first, each with its own dependencies.
    The recursion of the code is not bounded; [fuel] bounds its depth here,
    and [None] is a run that needs more. *)
Fixpoint startService (fuel : nat) (ctx : Context) (c : Compose)
    (cfg : ComposeConfig) (serviceName : string) (service : ComposeService)
  : D (option error) :=
  match fuel with
  | O => mret None
  | S fuel' =>
      r ← dependencies (startService fuel' ctx c cfg) cfg serviceName
                       (svc_DependsOn service);
      match r with
      | Some None => e ← startOne ctx c serviceName service; mret (Some e)
      | _ => mret r
      end
  end.

(** The loop of [Up] over the services. *)
Fixpoint up_services (fuel : nat) (ctx : Context) (c : Compose)
    (cfg : ComposeConfig) (services : list (string * ComposeService))
  : D (option error) :=
  match services with
  | [] => mret (Some None)
  | (serviceName, service) :: rest =>
      r ← startService fuel ctx c cfg serviceName service;
      match r with
      | None => mret None
      | Some (Some e) =>
          mret (Some (Some (errors_Wrap e
                  ("failed to start service " +:+ serviceName))))
      | Some None => up_services fuel ctx c cfg rest
      end
  end.

(** [Compose.Up]. *)
Definition Up (fuel : nat) (ctx : Context) (c : Compose)
  : D (option error * Compose) :=
  '(cfg, c) ← loaded c;
  match cfg with
  | inl e => mret (Some (Some e), c)
  | inr cfg =>
      r ← up_services fuel ctx c cfg (Services cfg);
      mret (r, c)
  end.

Definition stop_warning (containerID e : string) : string :=
  "Warning: Failed to stop container " +:+ containerID +:+ ": " +:+ e.
Definition remove_warning (containerID e : string) : string :=
  "Warning: Failed to remove container " +:+ containerID +:+ ": " +:+ e.

(** A call whose error is only printed. *)
Definition warn (call : D error) (warning : string -> string) : D unit :=
  e ← call;
  match e with
  | Some e => lift (fmt_Printf (warning e))
  | None => mret tt
  end.

(** The loop of [Down]. *)
Fixpoint down_services (ctx : Context) (c : Compose)
    (services : list (string * ComposeService)) : D unit :=
  match services with
  | [] => mret tt
  | (serviceName, _) :: rest =>
      let containerID := getContainerID c serviceName in
      warn (StopContainer H dm ctx containerID (10 * Second))
           (stop_warning containerID);;
      warn (RemoveContainer dm ctx containerID true)
           (remove_warning containerID);;
      down_services ctx c rest
  end.

(** [Compose.Down]. *)
Definition Down (ctx : Context) (c : Compose) : D (error * Compose) :=
  '(cfg, c) ← loaded c;
  match cfg with
  | inl e => mret (Some e, c)
  | inr cfg => down_services ctx c (Services cfg);; mret (None, c)
  end.

(** The loop of [Restart]. *)
Fixpoint restart_services (ctx : Context) (c : Compose)
    (services : list (string * ComposeService)) : D error :=
  match services with
  | [] => mret None
  | (serviceName, _) :: rest =>
      let containerID := getContainerID c serviceName in
      warn (StopContainer H dm ctx containerID (10 * Second))
           (stop_warning containerID);;
      or_return_D (StartContainer H dm ctx containerID)
          (fun e => Some (errors_Wrap e
             ("failed to restart service " +:+ serviceName)))
          (restart_services ctx c rest)
  end.

(** [Compose.Restart]. *)
Definition Restart (ctx : Context) (c : Compose) : D (error * Compose) :=
  '(cfg, c) ← loaded c;
  match cfg with
  | inl e => mret (Some e, c)
  | inr cfg => e ← restart_services ctx c (Services cfg); mret (e, c)
  end.

End compose.
End Compose.

(** ** Observations on a session *)

(** The time the daemon takes to answer the requests [rs], the first of
    which is request number [n]. *)
Fixpoint answer_time (dm : Daemon) (n : nat) (rs : list Request) : Duration :=
  match rs with
  | [] => 0
  | r :: rs => Z.max 0 (latency dm r n) + answer_time dm (S n) rs
  end.

(** The time the daemon has taken to answer the requests of a session. *)
Definition answered (dm : Daemon) (s : Session) : Duration :=
  answer_time dm 0 (requests s).

(** The time of a session that was not spent waiting for an answer. *)
Definition own_time (dm : Daemon) (s : Session) : Z :=
  clock (world s) - answered dm s.

(** A computation that only talks to the daemon: it changes no file, writes
    no log line, has no other effect outside the process, and takes no time
    but the time the daemon takes to answer. *)
Definition talks (dm : Daemon) {A} (c : D A) : Prop :=
  forall s,
    own_time dm (c s).2 = own_time dm s
    /\ fs (world (c s).2) = fs (world s)
    /\ logs (world (c s).2) = logs (world s)
    /\ trace (world (c s).2) = trace (world s).

(** The requests that look a container up. *)
Definition is_load (r : Request) : bool :=
  match r with ReqLoadContainer _ => true | _ => false end.

Definition loads (l : list Request) : list Request :=
  filter (fun r => is_load r = true) l.

(** The options with other labels, another restart policy and, for an empty
    command, other arguments. *)
Definition relabelled (opts : CreateContainerOptions)
    (labels : list (string * string)) (restart : string) (args : list string)
  : CreateContainerOptions :=
  {| opt_ID := opt_ID opts;
     opt_Name := opt_Name opts;
     opt_Image := opt_Image opts;
     opt_Command := opt_Command opts;
     opt_Args := match opt_Command opts with [] => args | _ => opt_Args opts end;
     opt_Env := opt_Env opts;
     opt_Labels := labels;
     opt_Mounts := opt_Mounts opts;
     opt_RestartPolicy := restart;
     opt_PrivilegedMode := opt_PrivilegedMode opts |}.

(** ** Further hosts, worlds and daemons *)

Module Scenarios.

(** A socket that is there from the start. *)
Definition listening : World :=
  Hosts.world [("/run/fun.sock", File 432 "")].

(** A cached runc without the executable bit, longer than the bundled one. *)
Definition long_stale_cache : World :=
  Hosts.world [("/home/u/app/binaries/linux/runc", File 493 "RUNC");
               ("/home/u/.config/funserver/bin", Dir 493);
               ("/home/u/.config/funserver/bin/runc", File 420 "OLD-RUNC-1.0")].

(** A directory where the bundled runc should be, and nothing in the
    cache. *)
Definition directory_for_runc : World :=
  Hosts.world [("/home/u/app/binaries/linux/runc", Dir 493)].

(** A kernel image of an earlier release, and the bundled one. *)
Definition old_kernel : World :=
  Hosts.world [("/src/kernel", File 420 "KERNEL-2");
               ("/dst/kernel", File 384 "KERNEL-1-WITH-SYMBOLS")].

(** A settings file the user wrote. *)
Definition own_wslconfig : World :=
  Hosts.world [("C:\Users\u\.wslconfig",
                File 420 "[wsl2] memory=16GB [experimental] sparseVhd=true")].

(** A macOS host with HyperKit on the PATH, and the bundled kernel and
    initrd next to the executable. *)
Definition mac : Host :=
  Hosts.make "darwin" "" "/" "/Users/u" Examples.never_there
    Examples.on_PATH Examples.quiet Examples.spawns (fun _ _ => None).

Definition bundled_linuxkit : World :=
  Hosts.world [("/Users/u/app/binaries/darwin/linuxkit/kernel", File 420 "KERNEL");
               ("/Users/u/app/binaries/darwin/linuxkit/initrd.img", File 420 "INITRD")].

(** A Linux host without containerd, bundled or on the PATH. *)
Definition bare : Host :=
  Hosts.make "linux" "" "/" "/home/u" Examples.never_there
    Examples.not_on_PATH Examples.quiet Examples.spawns (fun _ _ => None).

(** A manager that connects to the system's containerd. *)
Definition system_client : ManagerConfig :=
  {| RunAs := ""; mc_ServerConfig := DefaultServerConfig Examples.linux;
     ClientSocket := "/run/containerd/containerd.sock"; Namespace := "" |}.

(** A manager that runs its own engine and connects to it. *)
Definition embedded : ManagerConfig :=
  {| RunAs := "both"; mc_ServerConfig := DefaultServerConfig Examples.linux;
     ClientSocket := "/run/containerd/containerd.sock"; Namespace := "" |}.

(** A daemon that knows no container and accepts everything else. *)
Definition empty_daemon : Daemon :=
  {| reply := fun r _ =>
       match r with
       | ReqLoadContainer id => Some ("container " +:+ id +:+ ": not found")
       | _ => None
       end;
     latency := fun _ _ => 2 * Millisecond;
     task_exit := fun _ _ => None |}.

(** A daemon that refuses every request, the first one after ten seconds. *)
Definition deaf_daemon : Daemon :=
  {| reply := fun _ _ => Some "connection refused";
     latency := fun _ n => if Nat.eqb n 0 then 10 * Second else 0;
     task_exit := fun _ _ => None |}.

Definition unix_library : Library :=
  {| yaml_Unmarshal := fun _ => inl "yaml: unsupported";
     filepath_IsAbs := fun p => String.prefix "/" p |}.

Definition session (w : World) : Session := {| world := w; requests := [] |}.

(** A service with a read-only volume in the three-part notation. *)
Definition web : ComposeService :=
  {| svc_Image := "docker.io/library/nginx:latest"; svc_Command := [];
     svc_Environment := []; svc_Volumes := ["/srv/www:/usr/share/nginx/html:ro"];
     svc_DependsOn := []; svc_Restart := "always"; svc_Labels := [];
     svc_PrivilegedMode := false |}.

(** A service that names itself among its dependencies. *)
Definition loop : ComposeService :=
  {| svc_Image := "busybox"; svc_Command := []; svc_Environment := [];
     svc_Volumes := []; svc_DependsOn := ["loop"]; svc_Restart := "";
     svc_Labels := []; svc_PrivilegedMode := false |}.

Definition db : ComposeService :=
  {| svc_Image := "postgres"; svc_Command := []; svc_Environment := [];
     svc_Volumes := []; svc_DependsOn := []; svc_Restart := "";
     svc_Labels := []; svc_PrivilegedMode := false |}.

(** A service that depends on the database. *)
Definition api : ComposeService :=
  {| svc_Image := "registry.local/api"; svc_Command := ["serve"];
     svc_Environment := [("DB", "db")]; svc_Volumes := ["data:/var/lib/api"];
     svc_DependsOn := ["db"]; svc_Restart := "always"; svc_Labels := [];
     svc_PrivilegedMode := false |}.

Definition stack : ComposeConfig :=
  {| Version := "3"; Services := [("web", web); ("db", db); ("loop", loop)] |}.

Definition backend : ComposeConfig :=
  {| Version := "3"; Services := [("api", api); ("db", db)] |}.

(** The depth of a service of [backend] in its dependency graph. *)
Definition depth (name : string) : nat :=
  if String.eqb name "api" then 1 else 0.

Definition shop : Compose :=
  {| cp_config := Some stack; project := "shop"; file := "compose.yaml";
     containerRoot := "/var/lib/fun" |}.

End Scenarios.

(** * Properties *)

(** ** The state monad *)

Lemma bind_run {A B} (c : M A) (f : A -> M B) (w : World) :
  (c ≫= f) w = f (c w).1 (c w).2.
Proof. reflexivity. Qed.

Lemma or_return_ok {A} (c : M error) (wrap : string -> A) (k : M A) w :
  (c w).1 = None -> or_return c wrap k w = k (c w).2.
Proof. intros Hc. unfold or_return. rewrite bind_run, Hc. reflexivity. Qed.

Lemma or_return_err {A} (c : M error) (wrap : string -> A) (k : M A) w e :
  (c w).1 = Some e -> or_return c wrap k w = (wrap e, (c w).2).
Proof. intros Hc. unfold or_return. rewrite bind_run, Hc. reflexivity. Qed.

(** ** Running the primitives *)

(** Unfold the monad and the primitives that only touch the world. *)
Ltac unmonad :=
  cbv beta iota zeta delta [mbind M_bind mret M_ret update_fs emit tick log_Printf
    fmt_Printf now get_fs wait_until time_Sleep with_fs with_clock with_step
    with_log with_event];
  cbn [fs clock steps logs trace fst snd].

Section primitive_facts.
Context (H : Host).


Lemma os_Stat_run p w :
  os_Stat H p w = (match fs w !! p with Some n => Some n | None => ext_node H p (clock w) end, w).
Proof. reflexivity. Qed.

Lemma os_Stat_world p w : (os_Stat H p w).2 = w.
Proof. reflexivity. Qed.

Lemma os_MkdirAll_present p perm w m :
  result (os_Stat H p) w = Some (Dir m) -> os_MkdirAll H p perm w = (None, w).
Proof.
  intros Hst. unfold os_MkdirAll. rewrite bind_run.
  unfold result in Hst. rewrite Hst. reflexivity.
Qed.

Lemma os_MkdirAll_ok p perm w :
  (os_MkdirAll H p perm w).1 = None ->
  let w' := (os_MkdirAll H p perm w).2 in
  (exists m, result (os_Stat H p) w' = Some (Dir m))
  /\ clock w' = clock w
  /\ (w' = w \/ (fs w' = <[p := Dir (created_mode H perm)]> (fs w)
                 /\ trace w' = (trace w ++ [EvMkdir p])%list)).
Proof.
  unfold os_MkdirAll. rewrite bind_run.
  destruct (os_Stat H p w).1 as [[m d|m]|] eqn:Est; rewrite os_Stat_world.
  - discriminate.
  - intros _. cbn. split; [|by auto]. exists m. exact Est.
  - unfold result, os_Stat. unmonad.
    destruct (io_fault H "mkdir" p _); [discriminate|].
    intros _. split; [|split; [done|right; done]].
    cbn. rewrite lookup_insert_eq. eauto.
Qed.

Lemma os_Open_world p w :
  fs (os_Open H p w).2 = fs w /\ clock (os_Open H p w).2 = clock w
  /\ trace (os_Open H p w).2 = trace w /\ logs (os_Open H p w).2 = logs w.
Proof.
  unfold os_Open. rewrite bind_run, os_Stat_world.
  destruct (os_Stat H p w).1; unmonad; [|done].
  destruct (io_fault H "open" p _); done.
Qed.

Lemma os_Open_handle p w h : (os_Open H p w).1 = inr h -> h = p.
Proof.
  unfold os_Open. rewrite bind_run, os_Stat_world.
  destruct (os_Stat H p w).1; unmonad; [|done].
  destruct (io_fault H "open" p _); [done|]. by intros [= <-].
Qed.

Lemma os_OpenFile_new p perm w :
  result (os_Stat H p) w = None ->
  (os_OpenFile H p false perm w).1 = None ->
  let w' := (os_OpenFile H p false perm w).2 in
  fs w' = <[p := File (created_mode H perm) ""]> (fs w)
  /\ clock w' = clock w
  /\ trace w' = (trace w ++ [EvOpenWrite p])%list.
Proof.
  unfold os_OpenFile, result. intros Hst. rewrite bind_run, os_Stat_world, Hst.
  unmonad. destruct (io_fault H "openfile" p _); [discriminate|]. done.
Qed.

Lemma io_Copy_ok src dst data w md old :
  fs w !! dst = Some (File md old) ->
  (io_Copy H src dst data w).1 = None ->
  let w' := (io_Copy H src dst data w).2 in
  fs w' = <[dst := File md (overwrite data old)]> (fs w)
  /\ clock w' = clock w
  /\ trace w' = (trace w ++ [EvCopy src dst])%list.
Proof.
  unfold io_Copy. intros Hdst. unmonad.
  destruct (io_fault H "copy" dst _); [discriminate|].
  cbn. rewrite Hdst. done.
Qed.

(** A copy between files that succeeds has read a file. *)
Lemma io_Copy_file_run src dst w :
  (io_Copy_file H src dst w).1 = None ->
  exists ms data,
    result (os_Stat H src) w = Some (File ms data)
    /\ io_Copy_file H src dst w = io_Copy H src dst data w.
Proof.
  unfold io_Copy_file, result. rewrite bind_run, os_Stat_world.
  destruct (os_Stat H src w).1 as [[ms d|m]|]; [by eauto| |]; unmonad; done.
Qed.

Lemma extract_binary_noop dest src nf cf w m nd :
  result (os_Stat H (BundledBinaryDir H)) w = Some (Dir m) ->
  result (os_Stat H dest) w = Some nd ->
  executable_bit H nd = true ->
  extract_binary H dest src nf cf w = (None, w).
Proof.
  intros Hdir Hdest Hx. unfold extract_binary.
  rewrite or_return_ok; rewrite (os_MkdirAll_present _ _ _ _ Hdir); [|done].
  rewrite bind_run, os_Stat_world. unfold result in Hdest.
  cbn [snd]. rewrite Hdest, Hx. reflexivity.
Qed.

Lemma extract_binary_fresh dest src nf cf w :
  dest <> BundledBinaryDir H ->
  result (os_Stat H dest) w = None ->
  result (extract_binary H dest src nf cf) w = None ->
  let w1 := after (extract_binary H dest src nf cf) w in
  (exists m, result (os_Stat H (BundledBinaryDir H)) w1 = Some (Dir m))
  /\ (exists data, result (os_Stat H dest) w1
                   = Some (File (created_mode H 493) data))
  /\ exists pre executableDir,
       trace w1 = (trace w ++ pre
                   ++ [EvOpenWrite dest; EvCopy (src executableDir) dest])%list
       /\ (pre = [] \/ pre = [EvMkdir (BundledBinaryDir H)]).
Proof.
  intros Hne Hdest. unfold result, after, extract_binary.
  destruct (os_MkdirAll H (BundledBinaryDir H) 493 w).1 eqn:Emk;
    [by erewrite or_return_err|].
  rewrite or_return_ok by done.
  destruct (os_MkdirAll_ok _ _ _ Emk) as ([m Hdir] & Hclk & Hw).
  set (wa := (os_MkdirAll H (BundledBinaryDir H) 493 w).2) in *.
  assert (Hdest_a : result (os_Stat H dest) wa = None).
  { revert Hdest. unfold result, os_Stat. cbn. rewrite Hclk.
    destruct Hw as [->|[-> _]]; [done|]. by rewrite lookup_insert_ne. }
  rewrite bind_run, os_Stat_world. unfold result in Hdest_a.
  rewrite Hdest_a.
  destruct (os_Executable H) as [e|executablePath]; [unmonad; done|].
  rewrite bind_run, os_Stat_world.
  destruct (os_Stat H (src (filepath_Dir H executablePath)) wa).1 as [srcnode|] eqn:Esrc; [|unmonad; done].
  rewrite bind_run.
  destruct (os_Open_world (src (filepath_Dir H executablePath)) wa)
    as (Hfs_b & Hclk_b & Htr_b & _).
  set (wb := (os_Open H (src (filepath_Dir H executablePath)) wa).2) in *.
  destruct (os_Open H _ wa).1 as [e|sourceFile] eqn:Eopen_src; [unmonad; done|].
  apply os_Open_handle in Eopen_src as ->.
  assert (Hdest_b : result (os_Stat H dest) wb = None).
  { revert Hdest_a. unfold result, os_Stat. cbn. by rewrite Hfs_b, Hclk_b. }
  destruct (os_OpenFile H dest false 493 wb).1 eqn:Eopen;
    [by erewrite or_return_err|].
  rewrite or_return_ok by done.
  destruct (os_OpenFile_new _ _ _ Hdest_b Eopen) as (Hfs_c & Hclk_c & Htr_c).
  set (wc := (os_OpenFile H dest false 493 wb).2) in *.
  destruct (io_Copy_file H (src (filepath_Dir H executablePath)) dest wc).1
    eqn:Ecopy; [by erewrite or_return_err|].
  rewrite or_return_ok by done. intros _.
  destruct (io_Copy_file_run _ _ _ Ecopy) as (ms & data & _ & Hrun).
  rewrite Hrun in *.
  destruct (io_Copy_ok _ _ _ _ (created_mode H 493) "" ltac:(rewrite Hfs_c; apply lookup_insert_eq) Ecopy)
    as (Hfs_d & Hclk_d & Htr_d).
  set (wd := (io_Copy H _ dest data wc).2) in *.
  unfold mret, M_ret. cbn [fst snd]. repeat split.
  - exists m. revert Hdir. unfold result, os_Stat. cbn.
    rewrite Hfs_d, Hfs_c, Hfs_b, Hclk_d, Hclk_c, Hclk_b.
    rewrite !lookup_insert_ne by done. done.
  - eexists. unfold result, os_Stat. cbn. rewrite Hfs_d, lookup_insert_eq. done.
  - destruct Hw as [Hw|[_ Hw]].
    + exists [], (filepath_Dir H executablePath).
      rewrite Htr_d, Htr_c, Htr_b, Hw, <- ?app_assoc. cbn. auto.
    + exists [EvMkdir (BundledBinaryDir H)], (filepath_Dir H executablePath).
      rewrite Htr_d, Htr_c, Htr_b, Hw, <- ?app_assoc. cbn. auto.
Qed.

End primitive_facts.

(** ** Readiness *)

Section readiness_facts.
Context (H : Host).

Lemma pollInterval_pos : 0 < pollInterval.
Proof. reflexivity. Qed.

Lemma reachable_stat w path t :
  reachable H w path t = false <->
  result (os_Stat H path) (with_clock t w) = None.
Proof.
  unfold reachable. rewrite bool_decide_eq_false.
  destruct (result _ _).
  - split; [intros Hr; exfalso; apply Hr; eauto | done].
  - split; [done | intros _ [? ?]; done].
Qed.

(** The probe only looks at the files and the clock. *)
Lemma stat_with_step w path :
  result (os_Stat H path) (with_step w) = result (os_Stat H path) w.
Proof. reflexivity. Qed.

(** One more unit of fuel never changes a result. *)
Lemma pollLoop_more_fuel fuel extra path ctx nt w r :
  pollLoop H fuel path ctx nt w = Some r ->
  pollLoop H (fuel + extra) path ctx nt w = Some r.
Proof.
  revert nt w. induction fuel as [|fuel IH]; intros nt w; [done|].
  cbn [pollLoop Nat.add].
  repeat case_match; eauto.
Qed.

Lemma reachable_same_files w1 w2 path t :
  fs w1 = fs w2 -> reachable H w1 path t = reachable H w2 path t.
Proof.
  intros Hfs. unfold reachable, result, os_Stat. cbn. by rewrite Hfs.
Qed.

(** The polling loop returns once the fuel covers the ticks up to the
    deadline.  It returns [nil] at the first tick whose probe finds the
    socket, and the timeout error when no tick before the deadline does. *)
Lemma pollLoop_spec path ctx fuel :
  forall nt w,
    clock w <= nt ->
    deadline ctx - nt < Z.of_nat fuel * pollInterval ->
    exists r w',
      pollLoop H (S fuel) path ctx nt w = Some (r, w')
      /\ fs w' = fs w /\ logs w' = logs w /\ trace w' = trace w
      /\ clock w <= clock w'
      /\ match r with
         | None =>
             exists j : nat,
               clock w' = nt + Z.of_nat j * pollInterval
               /\ clock w' <= deadline ctx
               /\ reachable H w path (clock w') = true
               /\ forall i : nat, (i < j)%nat ->
                    reachable H w path (nt + Z.of_nat i * pollInterval) = false
         | Some e =>
             e = timeout_error path
             /\ clock w' = Z.max (clock w) (deadline ctx)
             /\ forall i : nat,
                  nt + Z.of_nat i * pollInterval < deadline ctx ->
                  reachable H w path (nt + Z.of_nat i * pollInterval) = false
         end.
Proof.
  pose proof pollInterval_pos as Hpos.
  induction fuel as [|fuel IH]; intros nt w Hclock Hfuel.
  - (* the deadline is already behind the next tick *)
    cbn [pollLoop].
    assert (Hlt : deadline ctx < nt) by lia.
    destruct (nt <? deadline ctx) eqn:E1; [apply Z.ltb_lt in E1; lia|].
    destruct (deadline ctx <? nt) eqn:E2; [|apply Z.ltb_ge in E2; lia].
    eexists _, _. split; [reflexivity|]. cbn.
    repeat split; lia.
  - (* one iteration, then the induction hypothesis *)
    assert (Htick : forall w1, fs w1 = fs w -> logs w1 = logs w ->
               trace w1 = trace w -> clock w1 = clock w ->
               nt <= deadline ctx ->
               exists r w',
                 match result (os_Stat H path)
                         (with_clock (Z.max (clock w1) nt) w1) with
                 | Some _ => Some (None, with_clock (Z.max (clock w1) nt) w1)
                 | None => pollLoop H (S fuel) path ctx (nt + pollInterval)
                             (with_clock (Z.max (clock w1) nt) w1)
                 end = Some (r, w')
                 /\ fs w' = fs w /\ logs w' = logs w /\ trace w' = trace w
                 /\ clock w <= clock w'
                 /\ match r with
                    | None =>
                        exists j : nat,
                          clock w' = nt + Z.of_nat j * pollInterval
                          /\ clock w' <= deadline ctx
                          /\ reachable H w path (clock w') = true
                          /\ forall i : nat, (i < j)%nat ->
                               reachable H w path
                                 (nt + Z.of_nat i * pollInterval) = false
                    | Some e =>
                        e = timeout_error path
                        /\ clock w' = Z.max (clock w) (deadline ctx)
                        /\ forall i : nat,
                             nt + Z.of_nat i * pollInterval < deadline ctx ->
                             reachable H w path
                               (nt + Z.of_nat i * pollInterval) = false
                    end).
    { intros w1 Hfs Hlogs Htrace Hclk Hnt.
      assert (Hmax : Z.max (clock w1) nt = nt) by lia. rewrite Hmax.
      destruct (result (os_Stat H path) (with_clock nt w1)) as [nd|] eqn:Est.
      - eexists _, _. split; [reflexivity|]. cbn.
        repeat split; try done; try lia.
        exists 0%nat. repeat split; try lia.
        rewrite <- (reachable_same_files w1 w path nt Hfs).
        unfold reachable. apply bool_decide_eq_true. rewrite Est. eauto.
      - destruct (IH (nt + pollInterval) (with_clock nt w1)) as
          (r & w' & Hrun & Hfs' & Hlogs' & Htrace' & Hclk' & Hr);
          [cbn; lia | lia |].
        exists r, w'. split; [exact Hrun|]. cbn in *.
        repeat split; try congruence; try lia.
        assert (Hhere : reachable H w path nt = false).
        { rewrite <- (reachable_same_files w1 w path nt Hfs).
          by apply reachable_stat. }
        assert (Hsame : forall t, reachable H (with_clock nt w1) path t
                                  = reachable H w path t)
          by (intros t; apply reachable_same_files; cbn; done).
        destruct r as [e|].
        + destruct Hr as (He & Hc & Hall). repeat split; [done|lia|].
          intros [|i] Hi.
          * replace (nt + Z.of_nat 0 * pollInterval) with nt by lia. done.
          * rewrite <- Hsame.
            replace (nt + Z.of_nat (S i) * pollInterval)
              with (nt + pollInterval + Z.of_nat i * pollInterval) by lia.
            apply Hall. lia.
        + destruct Hr as (j & Hc & Hd & Hreach & Hall).
          exists (S j). repeat split; [lia|lia| |].
          * by rewrite <- Hsame.
          * intros [|i] Hi.
            -- replace (nt + Z.of_nat 0 * pollInterval) with nt by lia. done.
            -- rewrite <- Hsame.
               replace (nt + Z.of_nat (S i) * pollInterval)
                 with (nt + pollInterval + Z.of_nat i * pollInterval) by lia.
               apply Hall. lia. }
    assert (Hdone : forall w1, fs w1 = fs w -> logs w1 = logs w ->
               trace w1 = trace w -> clock w1 = clock w ->
               deadline ctx <= nt ->
               exists r w',
                 Some (Some (timeout_error path),
                       with_clock (Z.max (clock w1) (deadline ctx)) w1)
                 = Some (r, w')
                 /\ fs w' = fs w /\ logs w' = logs w /\ trace w' = trace w
                 /\ clock w <= clock w'
                 /\ match r with
                    | None => False
                    | Some e =>
                        e = timeout_error path
                        /\ clock w' = Z.max (clock w) (deadline ctx)
                        /\ forall i : nat,
                             nt + Z.of_nat i * pollInterval < deadline ctx ->
                             reachable H w path
                               (nt + Z.of_nat i * pollInterval) = false
                    end).
    { intros w1 Hfs Hlogs Htrace Hclk Hnt.
      eexists _, _. split; [reflexivity|]. cbn.
      repeat split; try done; lia. }
    cbn [pollLoop].
    destruct (nt <? deadline ctx) eqn:E1.
    + apply Z.ltb_lt in E1. apply (Htick w); try done. lia.
    + apply Z.ltb_ge in E1.
      destruct (deadline ctx <? nt) eqn:E2.
      * destruct (Hdone w) as (r & w' & Hrun & Hrest); try done.
        exists r, w'. split; [exact Hrun|].
        destruct Hrest as (? & ? & ? & ? & Hr).
        repeat split; try done. destruct r; [done|contradiction].
      * apply Z.ltb_ge in E2.
        destruct (tick_first H (steps w)).
        -- apply (Htick (with_step w)); done.
        -- destruct (Hdone (with_step w)) as (r & w' & Hrun & Hrest); try done.
           exists r, w'. split; [exact Hrun|].
           destruct Hrest as (? & ? & ? & ? & Hr).
           repeat split; try done. destruct r; [done|contradiction].
Qed.

(** On a named-pipe address the wait lasts the whole timeout and then
    finds [ctx.Err()] to be [DeadlineExceeded]. *)
Lemma WaitForSocket_pipe path timeout w :
  strings.HasPrefix path pipePrefix = true ->
  (forall fuel, WaitForSocket_fuel H fuel path timeout w
                = Some (Some (timeout_error path),
                        with_clock (Z.max (clock w) (clock w + timeout)) w))
  /\ WaitForSocket H path timeout w
     = (Some (timeout_error path),
        with_clock (Z.max (clock w) (clock w + timeout)) w).
Proof.
  intros Hpipe.
  assert (Hfuel : forall fuel, WaitForSocket_fuel H fuel path timeout w
                = Some (Some (timeout_error path),
                        with_clock (Z.max (clock w) (clock w + timeout)) w)).
  { intros fuel. unfold WaitForSocket_fuel, context_WithTimeout.
    rewrite Hpipe. unfold wait_pipe, wait_until, now, ctx_Err.
    rewrite !bind_run. cbn.
    destruct (clock w + timeout <=? Z.max (clock w) (clock w + timeout)) eqn:E;
      [reflexivity|]. apply Z.leb_gt in E. lia. }
  split; [exact Hfuel|]. unfold WaitForSocket. by rewrite Hfuel.
Qed.

Lemma pollFuel_enough timeout :
  timeout - pollInterval
  < Z.of_nat (Z.to_nat (timeout / pollInterval) + 1) * pollInterval.
Proof.
  unfold pollInterval, Millisecond.
  destruct (Z.le_gt_cases 0 timeout) as [Hle|Hgt].
  - rewrite Nat2Z.inj_add, Z2Nat.id by (apply Z.div_pos; lia).
    pose proof (Z.mul_succ_div_gt timeout (100 * 1000000)). lia.
  - lia.
Qed.

(** What [WaitForSocket] does on an address it polls. *)
Lemma WaitForSocket_polled path timeout w :
  strings.HasPrefix path pipePrefix = false ->
  exists r w',
    (forall extra, WaitForSocket_fuel H (pollFuel timeout + extra) path timeout w
                   = Some (r, w'))
    /\ WaitForSocket H path timeout w = (r, w')
    /\ fs w' = fs w /\ logs w' = logs w /\ trace w' = trace w
    /\ clock w <= clock w'
    /\ match r with
       | None =>
           exists k : nat,
             clock w' = tickTime w (S k)
             /\ tickTime w (S k) <= clock w + timeout
             /\ reachable H w path (tickTime w (S k)) = true
             /\ unreachable_ticks H w path 0 k
       | Some e =>
           e = timeout_error path
           /\ clock w' = Z.max (clock w) (clock w + timeout)
           /\ unreachable_ticks H w path 0 (ticksBefore timeout)
       end.
Proof.
  intros Hpipe. pose proof pollInterval_pos as Hpos.
  destruct (pollLoop_spec path
              {| deadline := clock w + timeout; canceled := false |}
              (Z.to_nat (timeout / pollInterval) + 1)
              (clock w + pollInterval) w)
    as (r & w' & Hrun & Hfs & Hlogs & Htrace & Hclk & Hr).
  { lia. }
  { cbn. pose proof (pollFuel_enough timeout). lia. }
  assert (Hfuel : forall extra,
             WaitForSocket_fuel H (pollFuel timeout + extra) path timeout w
             = Some (r, w')).
  { intros extra. unfold WaitForSocket_fuel, context_WithTimeout.
    rewrite Hpipe. apply pollLoop_more_fuel.
    unfold pollFuel. replace (Z.to_nat (timeout / pollInterval) + 2)%nat
      with (S (Z.to_nat (timeout / pollInterval) + 1)) by lia.
    exact Hrun. }
  exists r, w'. split; [exact Hfuel|]. split.
  { unfold WaitForSocket. specialize (Hfuel 0%nat).
    rewrite Nat.add_0_r in Hfuel. by rewrite Hfuel. }
  repeat split; try done.
  unfold unreachable_ticks, tickTime. cbn [deadline] in Hr.
  destruct r as [e|].
  - destruct Hr as (He & Hc & Hall). repeat split; try done.
    apply Forall_forall. intros k Hk. apply elem_of_seq in Hk.
    destruct k as [|k]; [lia|].
    replace (clock w + Z.of_nat (S k) * pollInterval)
      with (clock w + pollInterval + Z.of_nat k * pollInterval) by lia.
    apply Hall.
    assert (Z.of_nat (S k) <= (timeout - 1) / pollInterval).
    { unfold ticksBefore in Hk.
      destruct (Z.le_gt_cases 0 ((timeout - 1) / pollInterval)); [lia|].
      rewrite Z2Nat.nonpos in Hk; lia. }
    pose proof (Z.mul_div_le (timeout - 1) pollInterval Hpos). nia.
  - destruct Hr as (j & Hc & Hd & Hreach & Hall).
    exists j.
    assert (Heq : clock w + pollInterval + Z.of_nat j * pollInterval
                  = clock w + Z.of_nat (S j) * pollInterval) by lia.
    rewrite <- Heq, <- Hc. repeat split; try done.
    apply Forall_forall. intros k Hk. apply elem_of_seq in Hk.
    destruct k as [|k]; [lia|].
    replace (clock w + Z.of_nat (S k) * pollInterval)
      with (clock w + pollInterval + Z.of_nat k * pollInterval) by lia.
    apply Hall. lia.
Qed.

End readiness_facts.

(** C6.  For every address and every timeout [WaitForSocket] terminates:
    with enough fuel for the ticks up to the deadline (and with any more) the
    loop returns, and what it returns is either [nil] or the timeout error.
    The wait lasts at most the timeout (a negative timeout is no wait), which is
    within the timeout plus one poll interval.  When it returns [nil] it does
    so at the first tick whose probe found the address (every earlier probe
    failed); when it returns the timeout error for a polled address, no probe
    before the deadline found it. *)
Theorem WaitForSocket_terminates_within_budget
    (H : Host) (path : string) (timeout : Duration) (w : World) :
  exists r w',
    (forall extra,
        WaitForSocket_fuel H (pollFuel timeout + extra) path timeout w
        = Some (r, w'))
    /\ WaitForSocket H path timeout w = (r, w')
    /\ (r = None \/ r = Some (timeout_error path))
    /\ 0 <= clock w' - clock w <= Z.max 0 timeout
    /\ clock w' - clock w <= Z.max 0 (timeout + pollInterval)
    /\ match r with
       | None =>
           exists k : nat,
             clock w' = tickTime w (S k)
             /\ reachable H w path (tickTime w (S k)) = true
             /\ unreachable_ticks H w path 0 k
       | Some _ =>
           strings.HasPrefix path pipePrefix = true
           \/ unreachable_ticks H w path 0 (ticksBefore timeout)
       end.
Proof.
  pose proof pollInterval_pos as Hpos.
  destruct (strings.HasPrefix path pipePrefix) eqn:Hpipe.
  - destruct (WaitForSocket_pipe H path timeout w Hpipe) as [Hfuel Hrun].
    eexists _, _. split; [intros extra; apply Hfuel|].
    split; [exact Hrun|]. cbn. repeat split; try lia; auto.
  - destruct (WaitForSocket_polled H path timeout w Hpipe)
      as (r & w' & Hfuel & Hrun & _ & _ & _ & Hclk & Hr).
    exists r, w'. split; [exact Hfuel|]. split; [exact Hrun|].
    destruct r as [e|].
    + destruct Hr as (-> & Hc & Hall). repeat split; try lia; auto.
    + destruct Hr as (k & Hc & Hd & Hreach & Hall).
      repeat split; try lia; auto. exists k. auto.
Qed.

(** C3 (the code misses it).  On the named-pipe address of the Windows
    default configuration [WaitForSocket] does not poll and waits the whole
    timeout, but then it reports the timeout error, whatever the host, the
    timeout and the world: [ctx.Err()] after [<-ctx.Done()] is always
    [DeadlineExceeded], so the [return nil] of the branch is never reached. *)
Theorem WaitForSocket_named_pipe_reports_timeout
    (H : Host) (timeout : Duration) (w : World) :
  WaitForSocket H "\\.\pipe\fun-containerd" timeout w
  = (Some "timeout waiting for containerd socket at \\.\pipe\fun-containerd",
     with_clock (Z.max (clock w) (clock w + timeout)) w).
Proof.
  exact (proj2 (WaitForSocket_pipe H "\\.\pipe\fun-containerd" timeout w
                  eq_refl)).
Qed.

(** ** The bundled-binary cache *)

Section provisioning_facts.
Context (H : Host).

Lemma EnsureExtracted_shape (c : BundledBinary) :
  exists src nf cf,
    EnsureExtracted H c = extract_binary H (destination H c) src nf cf.
Proof. destruct c; eexists _, _, _; reflexivity. Qed.

Lemma extraction_writes_app dest (a b : list Event) :
  extraction_writes dest (a ++ b)
  = (extraction_writes dest a + extraction_writes dest b)%nat.
Proof. unfold extraction_writes. by rewrite filter_app, length_app. Qed.

Lemma extraction_writes_one_copy dest src (pre : list Event) :
  pre = [] \/ pre = [EvMkdir (BundledBinaryDir H)] ->
  extraction_writes dest (pre ++ [EvOpenWrite dest; EvCopy src dest]) = 1%nat.
Proof.
  intros [-> | ->]; unfold extraction_writes; cbn;
    rewrite ?filter_cons, ?filter_nil; cbn;
    repeat case_decide; cbn; try done;
    by rewrite String.eqb_refl in *.
Qed.

(** [os.ReadDir] leaves the world alone. *)
Lemma os_ReadDir_world dir w : (os_ReadDir H dir w).2 = w.
Proof. reflexivity. Qed.

Lemma CNI_nonempty_noop w m e es :
  result (os_Stat H (GetBundledCNIPath H)) w = Some (Dir m) ->
  result (os_ReadDir H (GetBundledCNIPath H)) w = Some (e :: es) ->
  EnsureBundledCNIPluginsExtracted H w = (None, w).
Proof.
  intros Hdir Hentries. unfold EnsureBundledCNIPluginsExtracted.
  rewrite or_return_ok; rewrite (os_MkdirAll_present _ _ _ _ _ Hdir); [|done].
  rewrite bind_run, os_ReadDir_world. unfold result in Hentries.
  cbn [snd]. by rewrite Hentries.
Qed.

End provisioning_facts.

(** C4, as amended.  For each of the single-binary components (containerd,
    runc, HyperKit): when the cache directory is there and [os.Stat] shows the
    destination with an executable bit, the call returns [nil] and leaves the
    world, its trace included, as it was; and when the destination (a path
    other than the cache directory) is absent, the first call succeeds and the
    file it creates shows an executable bit (the umask leaves one, and the
    host is not Windows, where no file shows one), the second call changes
    nothing, so that the two calls together copy into the destination exactly
    once.  The CNI plugins are a directory: their extractor is skipped when
    that directory already has an entry, whatever its bits. *)
Theorem EnsureExtracted_idempotent (H : Host) (c : BundledBinary) (w : World) :
  (forall m nd,
      result (os_Stat H (BundledBinaryDir H)) w = Some (Dir m) ->
      result (os_Stat H (destination H c)) w = Some nd ->
      executable_bit H nd = true ->
      EnsureExtracted H c w = (None, w))
  /\ (destination H c <> BundledBinaryDir H ->
      result (os_Stat H (destination H c)) w = None ->
      executable_bit H (File (created_mode H 493) "") = true ->
      result (EnsureExtracted H c) w = None ->
      let w1 := after (EnsureExtracted H c) w in
      let w2 := after (EnsureExtracted H c ≫= fun _ => EnsureExtracted H c) w in
      EnsureExtracted H c w1 = (None, w1)
      /\ w2 = w1
      /\ extraction_writes (destination H c) (trace w2)
         = S (extraction_writes (destination H c) (trace w)))
  /\ (forall m e es,
      result (os_Stat H (GetBundledCNIPath H)) w = Some (Dir m) ->
      result (os_ReadDir H (GetBundledCNIPath H)) w = Some (e :: es) ->
      EnsureBundledCNIPluginsExtracted H w = (None, w)).
Proof.
  destruct (EnsureExtracted_shape H c) as (src & nf & cf & ->).
  split; [|split].
  - intros m nd Hdir Hdest Hx. by eapply extract_binary_noop.
  - intros Hne Hdest Hmode Hok w1 w2.
    destruct (extract_binary_fresh H _ src nf cf w Hne Hdest Hok)
      as ([m Hdir] & [data Hfile] & pre & dir & Htrace & Hpre).
    fold w1 in Hdir, Hfile, Htrace.
    assert (Hnoop : extract_binary H (destination H c) src nf cf w1 = (None, w1)).
    { eapply extract_binary_noop; [exact Hdir | exact Hfile |].
      exact Hmode. }
    assert (Hw2 : w2 = w1).
    { unfold w2, after. rewrite bind_run. fold (after (extract_binary H (destination H c) src nf cf) w).
      fold w1. by rewrite Hnoop. }
    split; [exact Hnoop|]. split; [exact Hw2|].
    rewrite Hw2, Htrace, extraction_writes_app.
    rewrite (extraction_writes_one_copy H _ _ _ Hpre). lia.
  - intros m e es. apply CNI_nonempty_noop.
Qed.

(** The two halves of [EnsureExtracted_idempotent] on a Linux host: a cache
    that already holds an executable runc, and an empty cache. *)
Lemma EnsureExtracted_idempotent_witness :
  EnsureExtracted Examples.linux Runc Examples.warm_cache
  = (None, Examples.warm_cache)
  /\ extraction_writes (destination Examples.linux Runc)
       (trace (after (EnsureExtracted Examples.linux Runc
                      ≫= fun _ => EnsureExtracted Examples.linux Runc)
                     Examples.fresh_cache)) = 1%nat.
Proof.
  split.
  - apply (proj1 (EnsureExtracted_idempotent Examples.linux Runc
                    Examples.warm_cache) 493 (File 493 "RUNC"));
      vm_compute; reflexivity.
  - refine (proj2 (proj2 (proj1 (proj2 (EnsureExtracted_idempotent
              Examples.linux Runc Examples.fresh_cache)) _ _ _ _))).
    + vm_compute. discriminate.
    + vm_compute. reflexivity.
    + vm_compute. reflexivity.
    + vm_compute. reflexivity.
Defined.

(** C4 fails as stated.  The destination of the CNI plugins is a directory:
    an empty one with mode 0755 exists and shows its executable bits, and the
    call still writes into it, one open and one copy for the bundled plugin,
    and returns [nil].  The guard of this component is a directory with at
    least one entry, not the executable bit. *)
Lemma CNI_extractor_fills_empty_directory :
  let H := Examples.linux in
  let call := EnsureBundledCNIPluginsExtracted H in
  let w := Examples.empty_cni_cache in
  GetBundledCNIPath H = "/home/u/.config/funserver/bin/cni"
  /\ result (os_Stat H (GetBundledCNIPath H)) w = Some (Dir 493)
  /\ executable_bit H (Dir 493) = true
  /\ result call w = None
  /\ trace (after call w)
     = [EvOpenWrite "/home/u/.config/funserver/bin/cni/bridge";
        EvCopy "/home/u/app/binaries/linux/cni/bridge"
               "/home/u/.config/funserver/bin/cni/bridge"]
  /\ fs (after call w) !! "/home/u/.config/funserver/bin/cni/bridge"
     = Some (File 493 "BRIDGE")
  /\ fs w !! "/home/u/.config/funserver/bin/cni/bridge" = None.
Proof. vm_compute. repeat split. Qed.

(** A destination without the executable bit is not repaired.  A cached runc
    with mode 0644 is opened without a change of mode, so it never passes the
    guard: two calls in a row both succeed and both copy into it. *)
Lemma EnsureExtracted_rewrites_stale_destination :
  let call := EnsureExtracted Examples.linux Runc in
  let w1 := after call Examples.stale_cache in
  let w2 := after call w1 in
  result call Examples.stale_cache = None
  /\ result call w1 = None
  /\ fs w2 !! destination Examples.linux Runc = Some (File 420 "RUNC")
  /\ extraction_writes (destination Examples.linux Runc)
       (trace Examples.stale_cache) = 0%nat
  /\ extraction_writes (destination Examples.linux Runc) (trace w2) = 2%nat.
Proof. vm_compute. repeat split. Qed.

(** On Windows no file shows an executable bit, so the guard of the
    single-binary extractors never passes there: from an empty cache, two
    calls in a row both succeed and both copy into the destination. *)
Lemma EnsureExtracted_copies_every_time_on_Windows :
  let H := Examples.windows_no_wsl in
  let call := EnsureExtracted H Runc in
  let w1 := after call Examples.windows_fresh_cache in
  let w2 := after call w1 in
  (forall m data, executable_bit H (File m data) = false)
  /\ result call Examples.windows_fresh_cache = None
  /\ result call w1 = None
  /\ extraction_writes (destination H Runc) (trace w1) = 1%nat
  /\ extraction_writes (destination H Runc) (trace w2) = 2%nat.
Proof.
  cbv zeta. split; [|vm_compute; repeat split].
  intros m data. unfold executable_bit, FileInfo_Mode.
  change (on_windows Examples.windows_no_wsl) with true.
  cbn [node_IsDir node_mode]. by destruct (Z.testbit m 7).
Qed.

(** ** Stopping *)

Section stop_facts.
Context (H : Host).

Lemma escalationBudget_pos : 0 < Server.escalationBudget.
Proof. reflexivity. Qed.

Lemma stopRace_timeout ctx pid w :
  match result (process_Wait H pid) w with
  | None => True
  | Some (d, _) => Server.escalationBudget < d
  end ->
  match cancel_at ctx with
  | None => True
  | Some t => clock w + Server.escalationBudget < t
  end ->
  (result (Server.stopRace H ctx pid) w).1 = CaseTimeout
  /\ (result (Server.stopRace H ctx pid) w).2 = result (process_Wait H pid) w
  /\ clock (after (Server.stopRace H ctx pid) w) = clock w + Server.escalationBudget
  /\ trace (after (Server.stopRace H ctx pid) w) = trace w
  /\ logs (after (Server.stopRace H ctx pid) w) = logs w
  /\ fs (after (Server.stopRace H ctx pid) w) = fs w.
Proof.
  pose proof escalationBudget_pos as Hpos.
  unfold Server.stopRace, process_Wait, result, after, select, ready_cases, earliest.
  unmonad.
  destruct (wait_result H pid (steps w)) as [[d e]|]; destruct (cancel_at ctx) as [t|];
    intros Hd Ht; cbn; rewrite ?filter_cons, ?filter_nil; cbn;
    repeat (case_decide; cbn); repeat split; try lia.
Qed.

Lemma stopRace_done ctx pid w d e :
  result (process_Wait H pid) w = Some (d, e) ->
  d < Server.escalationBudget ->
  match cancel_at ctx with
  | None => True
  | Some t => clock w + Z.max 0 d < t
  end ->
  result (Server.stopRace H ctx pid) w = (CaseDone, Some (d, e))
  /\ clock (after (Server.stopRace H ctx pid) w) = clock w + Z.max 0 d
  /\ trace (after (Server.stopRace H ctx pid) w) = trace w.
Proof.
  pose proof escalationBudget_pos as Hpos.
  unfold Server.stopRace, process_Wait, result, after, select, ready_cases, earliest.
  unmonad. intros ->.
  destruct (cancel_at ctx) as [t|];
    intros Hd Ht; cbn; rewrite ?filter_cons, ?filter_nil; cbn;
    repeat (case_decide; cbn); repeat split; try lia.
Qed.

(** What [stopNative] returns, case by case. *)
Lemma stopNative_run ctx s pid w :
  let w1 := after (process_Signal H pid Interrupt) w in
  let race := result (Server.stopRace H ctx pid) w1 in
  let w2 := after (Server.stopRace H ctx pid) w1 in
  let w3 := after (process_Kill H pid) w2 in
  Server.stopNative H ctx s pid w =
  match result (process_Signal H pid Interrupt) w with
  | Some e =>
      (Returned (Some (errors_Wrap e "failed to send interrupt signal")), s, w1)
  | None =>
      match race.1 with
      | CaseTimeout =>
          (Returned (Some match result (process_Kill H pid) w2 with
                          | Some e => errors_Wrap e "failed to kill containerd process"
                          | None => Server.killed_after_timeout
                          end), s, w3)
      | CaseDone =>
          (Returned match race.2 with
                    | Some (_, Some e) =>
                        Some (errors_Wrap e "containerd exited with error")
                    | _ => None
                    end, set_running false s, w2)
      | CaseCtx =>
          (Returned (Some match result (process_Kill H pid) w2 with
                          | Some e => errors_Wrap e
                                        "failed to kill containerd process on context done"
                          | None => Server.killed_on_cancel
                          end), s, w3)
      end
  end.
Proof.
  cbn zeta. unfold Server.stopNative, or_return, result, after.
  rewrite bind_run.
  destruct (process_Signal H pid Interrupt w).1; [reflexivity|].
  rewrite bind_run.
  destruct (Server.stopRace H ctx pid (process_Signal H pid Interrupt w).2)
    as [[c done] w2]. cbn [fst snd].
  destruct c.
  - rewrite bind_run. destruct (process_Kill H pid w2) as [[e|] w3]; reflexivity.
  - destruct done as [[d [e|]]|]; reflexivity.
  - rewrite bind_run. destruct (process_Kill H pid w2) as [[e|] w3]; reflexivity.
Qed.

Lemma process_Kill_trace pid w :
  trace (after (process_Kill H pid) w) = (trace w ++ [EvKill pid])%list
  /\ clock (after (process_Kill H pid) w) = clock w.
Proof. done. Qed.

Lemma process_Signal_world pid sig w :
  trace (after (process_Signal H pid sig) w) = (trace w ++ [EvSignal pid sig])%list
  /\ clock (after (process_Signal H pid sig) w) = clock w.
Proof. done. Qed.

(** [Stop] on the native path is [stopNative]. *)
Lemma Stop_native ctx s c pid w :
  (IsRunningOnMacOS H && vmRunning s)%bool = false ->
  (IsRunningOnWindows H && wslRunning s)%bool = false ->
  running s = true -> cmd s = Some c -> Process c = Some pid ->
  Server.Stop H ctx s w = Server.stopNative H ctx s pid w.
Proof.
  intros Hmac Hwin Hrun Hcmd Hproc. unfold Server.Stop, Server.nothing_to_stop.
  rewrite Hmac, Hwin, Hrun, Hcmd, Hproc. cbn. reflexivity.
Qed.

Lemma stopNative_returns ctx s pid w :
  exists e, (Server.stopNative H ctx s pid w).1.1 = Returned e.
Proof.
  rewrite stopNative_run. cbn zeta.
  destruct (result (process_Signal H pid Interrupt) w); [eauto|].
  destruct (result (Server.stopRace H ctx pid) _).1; eauto.
Qed.

Lemma Stop_never_panics ctx s w :
  exists e, (Server.Stop H ctx s w).1.1 = Returned e.
Proof.
  unfold Server.Stop.
  destruct (IsRunningOnMacOS H && vmRunning s)%bool.
  { unfold or_return. rewrite bind_run. destruct (StopLinuxKitVM H _ w).1; eauto. }
  destruct (IsRunningOnWindows H && wslRunning s)%bool.
  { unfold or_return. rewrite bind_run. destruct (StopWSL2Environment H _ w).1; eauto. }
  unfold Server.nothing_to_stop.
  destruct (running s); cbn; [|eauto].
  destruct (cmd s) as [c|]; cbn; [|eauto].
  destruct (Process c) as [pid|]; cbn.
  - apply stopNative_returns.
  - eauto.
Qed.


Lemma Manager_Stop_clears ctx m w :
  client (Manager.Stop H ctx m w).1.2 = None
  /\ server (Manager.Stop H ctx m w).1.2 = None.
Proof.
  destruct m as [cfg [sv|] [c|] emb]; unfold Manager.Stop;
    cbn [client server set_client set_server mgr_config useEmbedded];
    rewrite ?bind_run.
  all: try (destruct (Close H c w) as [[e|] wc]).
  all: unfold mret, M_ret; cbn [fst snd client server set_client set_server
                                mgr_config useEmbedded]; rewrite ?bind_run.
  all: try match goal with
           | |- context [Server.Stop H ?cx ?sv ?w] =>
               destruct (Stop_never_panics cx sv w) as [e' He'];
               destruct (Server.Stop H cx sv w) as [[o sv'] ws];
               cbn in He'; subst o; destruct e'
           end.
  all: done.
Qed.

Lemma Manager_Stop_nothing ctx m w :
  client m = None -> server m = None ->
  Manager.Stop H ctx m w = (Returned None, m, w).
Proof.
  destruct m as [cfg sv c emb]. cbn. intros -> ->. reflexivity.
Qed.

Lemma Server_Stop_nothing ctx s w :
  running s = false -> vmRunning s = false -> wslRunning s = false ->
  Server.Stop H ctx s w = (Returned None, s, w).
Proof.
  intros Hr Hvm Hwsl. unfold Server.Stop, Server.nothing_to_stop.
  rewrite Hr, Hvm, Hwsl, !andb_false_r. reflexivity.
Qed.

End stop_facts.

(** C7.  [Manager.Stop] is idempotent, in every run mode: after any [Stop] a
    second [Stop] returns [nil] and changes neither the manager nor the world;
    so does [Stop] on a manager fresh from [NewManager], whatever its
    configuration.  The same holds one level down: [Server.Stop] on a server
    fresh from [NewServer], and on any server whose three activity flags are
    down, returns [nil] and changes nothing. *)
Theorem Stop_is_idempotent (H : Host) (ctx : Context) (m : Manager) (w : World)
    (config : ManagerConfig) (serverConfig : ServerConfig) (s : Server) :
  let r := Manager.Stop H ctx m w in
  let stopped := set_running false (set_vmRunning false (set_wslRunning false s)) in
  Manager.Stop H ctx r.1.2 r.2 = (Returned None, r.1.2, r.2)
  /\ Manager.Stop H ctx (Manager.NewManager config) w
     = (Returned None, Manager.NewManager config, w)
  /\ Server.Stop H ctx (NewServer H serverConfig) w
     = (Returned None, NewServer H serverConfig, w)
  /\ Server.Stop H ctx stopped w = (Returned None, stopped, w).
Proof.
  cbn zeta. split; [|split; [|split]].
  - destruct (Manager_Stop_clears H ctx m w). by apply Manager_Stop_nothing.
  - by apply Manager_Stop_nothing.
  - by apply Server_Stop_nothing.
  - by apply Server_Stop_nothing.
Qed.


(** C10, as amended.  On the native path of [Server.Stop], with the running
    flag set and a process in hand: the flag is still set after a failed
    interrupt, after the timeout case (which returns the "killed" error, or
    the error of the kill) and after the cancellation case; it is cleared
    exactly when the [select] takes the exit waiter's case, and there [Stop]
    returns what the waiter delivered: [nil] for a clean exit, the wrapped
    exit error for an unclean one. *)
Theorem Stop_clears_running_only_on_exit
    (H : Host) (ctx : Context) (s : Server) (c : Cmd) (pid : nat) (w : World) :
  (IsRunningOnMacOS H && vmRunning s)%bool = false ->
  (IsRunningOnWindows H && wslRunning s)%bool = false ->
  running s = true -> cmd s = Some c -> Process c = Some pid ->
  let w1 := after (process_Signal H pid Interrupt) w in
  let o := (result (Server.Stop H ctx s) w).1 in
  let s' := (result (Server.Stop H ctx s) w).2 in
  match result (process_Signal H pid Interrupt) w with
  | Some _ => Server.IsRunning s' = true
  | None =>
      match (result (Server.stopRace H ctx pid) w1).1 with
      | CaseTimeout =>
          Server.IsRunning s' = true
          /\ (o = Returned (Some Server.killed_after_timeout)
              \/ exists e, o = Returned (Some (errors_Wrap e
                                 "failed to kill containerd process")))
      | CaseCtx =>
          Server.IsRunning s' = true
          /\ (o = Returned (Some Server.killed_on_cancel)
              \/ exists e, o = Returned (Some (errors_Wrap e
                                 "failed to kill containerd process on context done")))
      | CaseDone =>
          Server.IsRunning s' = false
          /\ o = Returned
                 match (result (Server.stopRace H ctx pid) w1).2 with
                 | Some (_, Some e) =>
                     Some (errors_Wrap e "containerd exited with error")
                 | _ => None
                 end
      end
  end.
Proof.
  intros Hmac Hwin Hrun Hcmd Hproc. cbn zeta. unfold result, after.
  rewrite (Stop_native H ctx s c pid w Hmac Hwin Hrun Hcmd Hproc).
  rewrite stopNative_run. cbn zeta. unfold result, after.
  destruct (process_Signal H pid Interrupt w).1; [exact Hrun|].
  destruct (Server.stopRace H ctx pid _).1 as [taken waiter].
  destruct taken; cbn.
  - split; [exact Hrun|]. destruct (process_Kill H pid _).1; eauto.
  - split; [reflexivity|]. by destruct waiter as [[d [e|]]|].
  - split; [exact Hrun|]. destruct (process_Kill H pid _).1; eauto.
Qed.


(** C2, as amended.  On the native path of [Server.Stop], once the interrupt
    is delivered: [Stop] never panics; if the exit waiter delivers nothing
    within the 30s budget and the caller's context is not cancelled within
    it, [Stop] waits the budget, issues the kill as its last action, leaves
    the running flag set and returns an error (the "killed" error when the
    kill succeeds); if the waiter delivers within the budget and before any
    cancellation, [Stop] issues no kill, clears the running flag and returns
    what the waiter delivered: [nil] for a clean exit, the wrapped exit error
    otherwise. *)
Theorem Stop_escalates_or_observes_exit
    (H : Host) (ctx : Context) (s : Server) (c : Cmd) (pid : nat) (w : World) :
  (IsRunningOnMacOS H && vmRunning s)%bool = false ->
  (IsRunningOnWindows H && wslRunning s)%bool = false ->
  running s = true -> cmd s = Some c -> Process c = Some pid ->
  result (process_Signal H pid Interrupt) w = None ->
  let w1 := after (process_Signal H pid Interrupt) w in
  let waiter := result (process_Wait H pid) w1 in
  let r := Server.Stop H ctx s w in
  (exists e, r.1.1 = Returned e)
  /\ (match waiter with
      | None => True
      | Some (d, _) => Server.escalationBudget < d
      end ->
      match cancel_at ctx with
      | None => True
      | Some t => clock w + Server.escalationBudget < t
      end ->
      trace r.2 = (trace w ++ [EvSignal pid Interrupt; EvKill pid])%list
      /\ clock r.2 = clock w + Server.escalationBudget
      /\ Server.IsRunning r.1.2 = true
      /\ (r.1.1 = Returned (Some Server.killed_after_timeout)
          \/ exists e, r.1.1 = Returned (Some (errors_Wrap e
                                   "failed to kill containerd process"))))
  /\ (forall d e,
      waiter = Some (d, e) ->
      d < Server.escalationBudget ->
      match cancel_at ctx with
      | None => True
      | Some t => clock w + Z.max 0 d < t
      end ->
      r.1 = (Returned match e with
                      | Some e => Some (errors_Wrap e "containerd exited with error")
                      | None => None
                      end, set_running false s)
      /\ trace r.2 = (trace w ++ [EvSignal pid Interrupt])%list
      /\ clock r.2 = clock w + Z.max 0 d).
Proof.
  intros Hmac Hwin Hrun Hcmd Hproc Hsig. cbn zeta.
  split; [apply Stop_never_panics|].
  rewrite (Stop_native H ctx s c pid w Hmac Hwin Hrun Hcmd Hproc).
  rewrite stopNative_run. cbn zeta. rewrite Hsig.
  destruct (process_Signal_world H pid Interrupt w) as [Htr1 Hclk1].
  set (w1 := after (process_Signal H pid Interrupt) w) in *.
  split.
  - intros Hwait Hctx.
    destruct (stopRace_timeout H ctx pid w1 Hwait) as (Hc & _ & Hclk2 & Htr2 & _).
    { destruct (cancel_at ctx); [|done]. rewrite Hclk1. exact Hctx. }
    rewrite Hc. cbn [fst snd].
    destruct (process_Kill_trace H pid (after (Server.stopRace H ctx pid) w1))
      as [Htr3 Hclk3].
    rewrite Htr3, Hclk3, Htr2, Hclk2, Htr1, Hclk1, <- app_assoc.
    repeat split; try done.
    destruct (result (process_Kill H pid) _); eauto.
  - intros d e Hwait Hd Hctx.
    destruct (stopRace_done H ctx pid w1 d e Hwait Hd) as (Hc & Hclk2 & Htr2).
    { destruct (cancel_at ctx); [|done]. rewrite Hclk1. exact Hctx. }
    rewrite Hc. cbn [fst snd]. rewrite Htr2, Hclk2, Htr1, Hclk1.
    repeat split; try done; by destruct e.
Qed.

(** [Stop_clears_running_only_on_exit] on the host whose engine ignores the
    interrupt: the timeout case is taken and the flag stays set. *)
Lemma Stop_clears_running_only_on_exit_witness :
  let H := Examples.linux_stubborn in
  let s := (Examples.boot H).1.2 in
  let w := (Examples.boot H).2 in
  running s = true
  /\ (result (Server.stopRace H context_Background 10)
              (after (process_Signal H 10 Interrupt) w)).1 = CaseTimeout
  /\ Server.IsRunning (result (Server.Stop H context_Background s) w).2 = true.
Proof.
  cbn zeta. split; [vm_compute; reflexivity|]. split; [vm_compute; reflexivity|].
  pose proof (Stop_clears_running_only_on_exit Examples.linux_stubborn
                context_Background (Examples.boot Examples.linux_stubborn).1.2
                Examples.engine 10 (Examples.boot Examples.linux_stubborn).2
                ltac:(vm_compute; reflexivity) ltac:(vm_compute; reflexivity)
                ltac:(vm_compute; reflexivity) ltac:(vm_compute; reflexivity)
                ltac:(vm_compute; reflexivity)) as Hw.
  vm_compute in Hw. vm_compute. exact (proj1 Hw).
Defined.

(** [Stop_escalates_or_observes_exit] on the host whose engine exits two
    seconds after the interrupt: [Stop] returns [nil] and clears the flag. *)
Lemma Stop_escalates_or_observes_exit_witness :
  let H := Examples.linux in
  let s := (Examples.boot H).1.2 in
  let w := (Examples.boot H).2 in
  (Server.Stop H context_Background s w).1 = (Returned None, set_running false s)
  /\ clock (Server.Stop H context_Background s w).2 = clock w + 2 * Second.
Proof.
  cbn zeta.
  pose proof (Stop_escalates_or_observes_exit Examples.linux
                context_Background (Examples.boot Examples.linux).1.2
                Examples.engine 10 (Examples.boot Examples.linux).2
                ltac:(vm_compute; reflexivity) ltac:(vm_compute; reflexivity)
                ltac:(vm_compute; reflexivity) ltac:(vm_compute; reflexivity)
                ltac:(vm_compute; reflexivity) ltac:(vm_compute; reflexivity))
    as (_ & _ & Hexit).
  destruct (Hexit (2 * Second) None ltac:(vm_compute; reflexivity)
                  ltac:(vm_compute; reflexivity) I) as (Hr & _ & Hclk).
  split; [exact Hr | exact Hclk].
Defined.

(** C10 fails as stated.  An engine that exits with status 1 half a second
    after the interrupt: [Stop] takes the exit waiter's case and returns the
    exit error, without a kill, and the running flag is cleared all the same.
    The flag is not only cleared on the clean exit. *)
Lemma Stop_clears_running_on_an_unclean_exit :
  let H := Examples.linux_failing_exit in
  let b := Examples.boot H in
  let r := Server.Stop H context_Background b.1.2 b.2 in
  b.1.1 = None
  /\ Server.IsRunning b.1.2 = true
  /\ r.1.1 = Returned (Some "containerd exited with error: exit status 1")
  /\ Server.IsRunning r.1.2 = false
  /\ trace r.2 = (trace b.2 ++ [EvSignal 10 Interrupt])%list
  /\ clock r.2 = clock b.2 + 500 * Millisecond.
Proof. vm_compute. repeat split. Qed.

(** C2 fails as stated.  An engine that ignores the interrupt is killed after
    30s, and [Stop] returns a non-nil error and leaves the running flag set;
    the manager passes it on as a failure to stop the server.  An engine that
    exits on its own with a non-zero status makes [Stop] return an error too. *)
Lemma Stop_reports_escalation_as_failure :
  let H := Examples.linux_stubborn in
  let b := Examples.boot H in
  let r := Server.Stop H context_Background b.1.2 b.2 in
  let b' := Examples.boot Examples.linux_failing_exit in
  b.1.1 = None
  /\ r.1.1 = Returned (Some "containerd did not exit gracefully, killed")
  /\ Server.IsRunning r.1.2 = true
  /\ last (trace r.2) = Some (EvKill 10)
  /\ (Manager.Stop H context_Background (Examples.owner H) b.2).1.1
     = Returned (Some "failed to stop containerd server: containerd did not exit gracefully, killed")
  /\ (Server.Stop Examples.linux_failing_exit context_Background b'.1.2 b'.2).1.1
     = Returned (Some "containerd exited with error: exit status 1").
Proof. vm_compute. repeat split. Qed.

(** ** Starting *)

Section start_facts.
Context (H : Host).

Lemma startHypervisorVM_shape ctx s w :
  let r := (Server.startHypervisorVM H ctx s w).1 in
  (r.1 <> None /\ r.2 = s)
  \/ r = (None, set_running true (set_vmRunning true s)).
Proof.
  cbn zeta. unfold Server.startHypervisorVM, or_return. rewrite !bind_run.
  destruct (StartLinuxKitVM H ctx _ _).1; cbn; [left|right]; done.
Qed.

Lemma startWSL2_shape ctx s w :
  match (Server.startWSL2 H ctx s w).1 with
  | inr s2 => s2 = s
  | inl (e, s2) =>
      (e <> None /\ s2 = set_wslRunning true s)
      \/ (e = None /\ wsl_Enabled (wsl2Config s) = true
          /\ exists address,
               (address = "wsl://" +:+ wsl_Distribution (wsl2Config s)
                          +:+ "/run/containerd/containerd.sock"
                \/ address = "\\.\pipe\fun-containerd")
               /\ s2 = set_running true
                         (set_config (set_Address address (config s))
                                     (set_wslRunning true s)))
  end.
Proof.
  unfold Server.startWSL2. rewrite bind_run.
  destruct (wsl_Enabled (wsl2Config s)) eqn:Hen; cbn [andb].
  2:{ unmonad. done. }
  destruct (IsWSL2Available H w) as [[|] wa]; cbn [fst snd].
  2:{ unmonad. done. }
  rewrite !bind_run.
  destruct (StartWSL2Environment H ctx _ _) as [[e|] wb]; cbn [fst snd].
  { unmonad. done. }
  unfold or_return. rewrite bind_run.
  destruct (EnsureContainerdInWSL H ctx _ wb) as [[e|] wc]; cbn [fst snd].
  { unmonad. left. done. }
  rewrite bind_run. right. split; [done|]. split; [done|].
  cbn [wsl2Config set_wslRunning].
  unfold GetWindowsContainerdSocketPath. rewrite Hen, bind_run.
  destruct (IsWSL2Available H wc) as [[|] wd]; unmonad; eauto.
Qed.

Lemma nativeSpawn_shape ctx s path args w :
  match (Server.nativeSpawn H ctx s path args w).1 with
  | inl (e, s2) =>
      e <> None
      /\ s2 = set_cmd (Some {| Path := path; Args := args; Process := None |}) s
  | inr (s2, pid) =>
      s2 = set_cmd (Some {| Path := path; Args := args; Process := Some pid |}) s
  end.
Proof.
  unfold Server.nativeSpawn, or_return. rewrite bind_run.
  destruct (os_OpenFile H _ false 420 w) as [[e|] wa]; cbn [fst snd].
  { unmonad. done. }
  rewrite bind_run.
  destruct (cmd_Start_ctx H ctx _ wa) as [[e|pid] wb]; unmonad; done.
Qed.

Lemma startNative_shape ctx s w :
  match (Server.startNative H ctx s w).1 with
  | inl (e, s2) =>
      e <> None
      /\ (s2 = s \/ exists path args,
            s2 = set_cmd (Some {| Path := path; Args := args; Process := None |}) s)
  | inr (s2, pid) =>
      exists path args,
        s2 = set_cmd (Some {| Path := path; Args := args; Process := Some pid |}) s
  end.
Proof.
  unfold Server.startNative. rewrite bind_run.
  destruct (Server.nativePrepare H s w) as [[e|[path args]] wa]; cbn [fst snd].
  { unmonad. split; [done|by left]. }
  pose proof (nativeSpawn_shape ctx s path args wa) as Hs.
  destruct (Server.nativeSpawn H ctx s path args wa).1 as [[e s2]|[s2 pid]].
  - destruct Hs as [He ->]. split; [done|]. right. eauto.
  - eauto.
Qed.

Lemma awaitReady_shape s pid w :
  (Server.awaitReady H s pid w).1 = (None, set_running true s)
  \/ exists e, (Server.awaitReady H s pid w).1 = (Some e, s).
Proof.
  unfold Server.awaitReady. rewrite bind_run.
  destruct (WaitForSocket H _ _ w) as [[e|] wa]; cbn [fst snd].
  - right. rewrite bind_run. unmonad. eauto.
  - by left.
Qed.


(** [Start] up to the spawn: when it is about to wait, the server was not
    running and has only gained the engine's command. *)
Lemma upToSpawn_inr ctx s w s1 pid w1 :
  Server.upToSpawn H ctx s w = (inr (s1, pid), w1) ->
  running s = false
  /\ exists path args,
       s1 = set_cmd (Some {| Path := path; Args := args; Process := Some pid |}) s.
Proof.
  unfold Server.upToSpawn.
  destruct (running s); [unmonad; done|].
  destruct (IsRunningOnMacOS H); [rewrite bind_run; unmonad; done|].
  assert (Hnative : forall w0, Server.startNative H ctx s w0 = (inr (s1, pid), w1) ->
            exists path args,
              s1 = set_cmd (Some {| Path := path; Args := args;
                                    Process := Some pid |}) s).
  { intros w0 Hrun. pose proof (startNative_shape ctx s w0) as Hs.
    rewrite Hrun in Hs. exact Hs. }
  destruct (IsRunningOnWindows H); [|by eauto].
  rewrite bind_run. pose proof (startWSL2_shape ctx s w) as Hs.
  destruct (Server.startWSL2 H ctx s w) as [[[e s2]|s2] wa]; cbn [fst snd] in *;
    [unmonad; done|]. subst s2. eauto.
Qed.

Lemma finish_native_settings s r w :
  match r with
  | inl (e, s2) =>
      e <> None
      /\ (s2 = s \/ exists path args,
            s2 = set_cmd (Some {| Path := path; Args := args; Process := None |}) s)
  | inr (s2, pid) =>
      exists path args,
        s2 = set_cmd (Some {| Path := path; Args := args; Process := Some pid |}) s
  end ->
  same_settings s (Server.finish H r w).1.2
  /\ config (Server.finish H r w).1.2 = config s.
Proof.
  destruct r as [[e s2]|[s2 pid]]; cbn [Server.finish].
  - intros [_ [->|(path & args & ->)]]; unmonad; by repeat split.
  - intros (path & args & ->).
    destruct (awaitReady_shape (set_cmd (Some {| Path := path; Args := args;
                 Process := Some pid |}) s) pid w) as [-> | [e ->]];
      by repeat split.
Qed.

Lemma Start_settings ctx s w :
  let r := (Server.Start H ctx s w).1 in
  same_settings s r.2 /\ address_after H s r.2 r.1.
Proof.
  cbn zeta. unfold Server.Start, Server.upToSpawn, address_after.
  destruct (running s). { unmonad. split; [by repeat split|by left]. }
  destruct (IsRunningOnMacOS H).
  { rewrite !bind_run.
    destruct (startHypervisorVM_shape ctx s w) as [[_ Hs]|Hs];
      destruct (Server.startHypervisorVM H ctx s w) as [[e s2] wa];
      cbn [fst snd] in *; unmonad.
    - subst s2. split; [by repeat split|by left].
    - injection Hs as -> ->. split; [by repeat split|by left]. }
  assert (Hnative : forall w0,
             same_settings s (Server.nativeStart H ctx s w0).1.2
             /\ config (Server.nativeStart H ctx s w0).1.2 = config s).
  { intros w0. unfold Server.nativeStart. rewrite bind_run.
    apply finish_native_settings. apply startNative_shape. }
  unfold Server.nativeStart in Hnative.
  destruct (IsRunningOnWindows H) eqn:Hwin.
  2:{ destruct (Hnative w) as [Hs Hc]. split; [exact Hs|left].
      unfold Server.GetSocketAddress. by rewrite Hc. }
  rewrite !bind_run. pose proof (startWSL2_shape ctx s w) as Hs.
  destruct (Server.startWSL2 H ctx s w) as [[[e s2]|s2] wa]; cbn [fst snd] in *.
  - unmonad. destruct Hs as [[He ->]|(-> & Hen & address & Haddr & ->)].
    + split; [by repeat split|by left].
    + split; [by repeat split|right]. repeat split; try done.
  - subst s2. destruct (Hnative wa) as [Hs Hc]. rewrite bind_run in Hs, Hc.
    split; [exact Hs|left]. unfold Server.GetSocketAddress. by rewrite Hc.
Qed.

Lemma Stop_settings ctx s w :
  let s' := (Server.Stop H ctx s w).1.2 in
  config s' = config s
  /\ linuxKitConfig s' = linuxKitConfig s
  /\ wsl2Config s' = wsl2Config s.
Proof.
  cbn zeta. unfold Server.Stop.
  destruct (IsRunningOnMacOS H && vmRunning s)%bool.
  { unfold or_return. rewrite bind_run. by destruct (StopLinuxKitVM H _ w).1. }
  destruct (IsRunningOnWindows H && wslRunning s)%bool.
  { unfold or_return. rewrite bind_run. by destruct (StopWSL2Environment H _ w).1. }
  destruct (Server.nothing_to_stop s); [done|].
  destruct (cmd s) as [c|]; [|done].
  destruct (Process c) as [pid|]; [|done].
  rewrite stopNative_run. cbn zeta.
  destruct (result (process_Signal H pid Interrupt) w); [done|].
  by destruct (result (Server.stopRace H ctx pid) _).1.
Qed.

End start_facts.

Section manager_facts.
Context (H : Host).

Lemma startClient_settings ctx m w :
  mc_ServerConfig (mgr_config (Manager.startClient H ctx m w).1.2)
  = mc_ServerConfig (mgr_config m).
Proof.
  unfold Manager.startClient.
  destruct (_ || _)%bool; [|done].
  rewrite bind_run.
  destruct (negb _); [done|].
  rewrite bind_run.
  destruct (NewClient H _ _ _).1 as [e|c]; [|done].
  destruct (server m) as [sv|]; [|done].
  rewrite bind_run.
  destruct (Server.Stop H ctx sv _).1 as [[e'|] sv']; done.
Qed.

Lemma Manager_Start_settings ctx m w :
  mc_ServerConfig (mgr_config (Manager.Start H ctx m w).1.2)
  = mc_ServerConfig (mgr_config m).
Proof.
  unfold Manager.Start.
  destruct (_ || _)%bool; [|apply startClient_settings].
  rewrite bind_run. destruct (negb _); [done|].
  rewrite bind_run.
  destruct (Server.Start H ctx _ _).1 as [[e|] sv]; [done|].
  rewrite startClient_settings. by destruct (String.eqb _ _).
Qed.

Lemma Manager_Stop_settings ctx m w :
  mgr_config (Manager.Stop H ctx m w).1.2 = mgr_config m.
Proof.
  destruct m as [cfg [sv|] [c|] emb]; unfold Manager.Stop;
    cbn [client server set_client set_server mgr_config useEmbedded];
    rewrite ?bind_run.
  all: try (destruct (Close H c w) as [[e|] wc]).
  all: unfold mret, M_ret; cbn [fst snd client server set_client set_server
                                mgr_config useEmbedded]; rewrite ?bind_run.
  all: try match goal with
           | |- context [Server.Stop H ?cx ?sv ?w] =>
               destruct (Server.Stop H cx sv w) as [[[[e'|]|] sv'] ws]
           end.
  all: done.
Qed.
End manager_facts.

(** C9, as amended.  Nothing after construction changes the LinuxKit or the
    WSL2 configuration of a server, nor the root, state, config, log-level and
    log-file of its [ServerConfig]: not [Start], not [Stop].  [Stop] leaves the
    address alone too.  [Start] leaves the address alone unless it succeeds
    through WSL2 on Windows, where it overwrites the address with the one of
    [GetWindowsContainerdSocketPath] (the [wsl://] address of the
    distribution, or the default named pipe).  The manager's copy of the
    [ServerConfig] is changed by neither [Manager.Start] nor [Manager.Stop]. *)
Theorem Start_preserves_settings_but_the_WSL2_address
    (H : Host) (ctx : Context) (s : Server) (m : Manager) (w : World) :
  let started := (Server.Start H ctx s w).1 in
  let stopped := (Server.Stop H ctx s w).1.2 in
  same_settings s started.2
  /\ address_after H s started.2 started.1
  /\ config stopped = config s
  /\ linuxKitConfig stopped = linuxKitConfig s
  /\ wsl2Config stopped = wsl2Config s
  /\ mc_ServerConfig (mgr_config (Manager.Start H ctx m w).1.2)
     = mc_ServerConfig (mgr_config m)
  /\ mc_ServerConfig (mgr_config (Manager.Stop H ctx m w).1.2)
     = mc_ServerConfig (mgr_config m).
Proof.
  cbn zeta.
  destruct (Start_settings H ctx s w) as [Hsame Haddr].
  destruct (Stop_settings H ctx s w) as (Hc & Hlk & Hwsl).
  repeat split; try assumption; try apply Hsame.
  - apply Manager_Start_settings.
  - by rewrite Manager_Stop_settings.
Qed.

(** C9 fails as stated.  On a Windows host with a working WSL2, [Start]
    succeeds and [GetSocketAddress] answers the named pipe before it and the
    [wsl://] address after it. *)
Lemma Start_rewrites_the_address_under_WSL2 :
  let H := Examples.windows_wsl in
  let s := NewServer H (DefaultServerConfig H) in
  let r := Server.Start H context_Background s Examples.empty_world in
  r.1.1 = None
  /\ Server.GetSocketAddress s = "\\.\pipe\fun-containerd"
  /\ Server.GetSocketAddress r.1.2
     = "wsl://wsl-fun/run/containerd/containerd.sock"
  /\ Server.GetSocketAddress r.1.2 <> Server.GetSocketAddress s.
Proof. vm_compute. repeat split. discriminate. Qed.

(** C8 (the code misses it).  On a Windows host, a first [Start] brings the
    WSL2 environment up, sets [wslRunning] and then fails to install
    containerd inside it; it returns the error with the flag still set and
    the environment still up.  The guard of a second [Start] only looks at
    [running]: this time [wsl.exe] cannot be started, so [Start] falls back and
    spawns the native engine.  The server now records two active backends
    (the WSL2 environment and a native process) and the trace holds both
    spawns and nothing that stopped either.  [Stop] then terminates the
    distribution only: the native engine is never signalled.  One level up,
    [Manager.Start] has no guard at all: a second call in server mode spawns a
    second engine and forgets the first. *)
Theorem Start_twice_leaves_two_backends_active :
  let H := Examples.windows_flaky in
  let s := NewServer H Examples.custom_address in
  let first := Server.Start H context_Background s Examples.empty_world in
  let second := Server.Start H context_Background first.1.2 first.2 in
  let stopped := Server.Stop H context_Background second.1.2 second.2 in
  let L := Examples.linux in
  let m1 := Manager.Start L context_Background
              (Manager.NewManager (Examples.server_mode L)) Examples.empty_world in
  let m2 := Manager.Start L context_Background m1.1.2 m1.2 in
  (first.1.1 <> None
   /\ wslRunning first.1.2 = true /\ running first.1.2 = false)
  /\ (second.1.1 = None
      /\ wslRunning second.1.2 = true /\ running second.1.2 = true
      /\ fmap Process (cmd second.1.2) = Some (Some 28%nat)
      /\ process_events (trace second.2)
         = [EvSpawn 5 ["wsl.exe"; "--distribution"; "wsl-fun"; "--"];
            EvSpawn 8 ["wsl.exe"; "--distribution"; "wsl-fun"; "--";
                       "containerd"; "--address";
                       "/run/containerd/containerd.sock"];
            EvSpawn 28 ["C:\bin\containerd";
                        "--root"; "C:\Users\u\.fun\containerd\root";
                        "--state"; "C:\Users\u\.fun\containerd\state";
                        "--address"; "C:\fun\containerd.sock";
                        "--log-level"; "info"]])
  /\ (stopped.1.1 = Returned None
      /\ running stopped.1.2 = false
      /\ (EvSignal 28 Interrupt ∉ trace stopped.2)
      /\ (EvKill 28 ∉ trace stopped.2))
  /\ (m1.1.1 = Returned None /\ m2.1.1 = Returned None
      /\ process_events (trace m2.2)
         = [EvSpawn 11 ("/usr/bin/containerd" :: Args Examples.engine);
            EvSpawn 19 ("/usr/bin/containerd" :: Args Examples.engine)]).
Proof.
  vm_compute. repeat split; try discriminate.
  all: intros Hin; repeat (apply elem_of_cons in Hin as [Hin|Hin];
                           [discriminate|]);
       by apply elem_of_nil in Hin.
Qed.

(** ** Readiness and fallback in [Start] *)

Section ready_facts.
Context (H : Host).

(** A socket that no probe up to the deadline finds, and a named pipe, make
    [WaitForSocket] return the timeout error after the whole timeout. *)
Lemma WaitForSocket_unreachable path timeout w :
  strings.HasPrefix path pipePrefix = true
  \/ unreachable_ticks H w path 0 (Z.to_nat (timeout / pollInterval)) ->
  exists w',
    WaitForSocket H path timeout w = (Some (timeout_error path), w')
    /\ clock w' = Z.max (clock w) (clock w + timeout)
    /\ trace w' = trace w /\ logs w' = logs w /\ fs w' = fs w.
Proof.
  pose proof pollInterval_pos as Hpos.
  destruct (strings.HasPrefix path pipePrefix) eqn:Hpipe.
  - intros _. destruct (WaitForSocket_pipe H path timeout w Hpipe) as [_ ->].
    eexists. split; [reflexivity|]. done.
  - intros [|Hnone]; [done|].
    destruct (WaitForSocket_polled H path timeout w Hpipe)
      as (r & w' & _ & Hrun & Hfs & Hlogs & Htrace & _ & Hr).
    exists w'. destruct r as [e|].
    + destruct Hr as (-> & Hclk & _). done.
    + exfalso. destruct Hr as (k & _ & Hle & Hreach & _).
      unfold unreachable_ticks in Hnone.
      rewrite Forall_forall in Hnone.
      rewrite (Hnone (S k)) in Hreach; [done|].
      apply elem_of_seq. unfold tickTime in Hle.
      assert (Z.of_nat (S k) <= timeout / pollInterval)
        by (apply Z.div_le_lower_bound; lia).
      lia.
Qed.

Lemma nativeStart_success ctx s w s' w' :
  Server.nativeStart H ctx s w = (None, s', w') ->
  running s' = true /\ wslRunning s' = wslRunning s /\ vmRunning s' = vmRunning s
  /\ config s' = config s.
Proof.
  unfold Server.nativeStart. rewrite bind_run.
  pose proof (startNative_shape H ctx s w) as Hs.
  destruct (Server.startNative H ctx s w) as [[[e s2]|[s2 pid]] wa];
    cbn [fst snd Server.finish] in *.
  - unmonad. intros [= -> -> ->]. by destruct Hs.
  - destruct Hs as (path & args & ->).
    match goal with
    | |- Server.awaitReady H ?sv pid wa = _ -> _ =>
        destruct (awaitReady_shape H sv pid wa) as [Hok|[e Herr]];
        destruct (Server.awaitReady H sv pid wa) as [[e' s3] wb];
        cbn [fst snd] in *
    end.
    + injection Hok as -> ->. intros [= <- <-]; try done.
    + injection Herr as -> ->. intros [= ? ?]; try done.
Qed.

(** On a named-pipe address the native start-up never succeeds: whatever it
    has spawned is killed after the 30s of the readiness wait. *)
Lemma nativeStart_pipe ctx s w :
  running s = false ->
  strings.HasPrefix (Server.GetSocketAddress s) pipePrefix = true ->
  let r := Server.nativeStart H ctx s w in
  r.1.1 <> None
  /\ Server.IsRunning r.1.2 = false
  /\ wslRunning r.1.2 = wslRunning s
  /\ forall s1 pid w1,
       Server.startNative H ctx s w = (inr (s1, pid), w1) ->
       r.1 = (Some (errors_Wrap (timeout_error (Server.GetSocketAddress s))
                                "failed waiting for containerd to start"), s1)
       /\ fmap Process (cmd s1) = Some (Some pid)
       /\ trace r.2 = (trace w1 ++ [EvKill pid])%list
       /\ clock r.2 = clock w1 + Server.readinessBudget.
Proof.
  intros Hrun Hpipe. cbn zeta. unfold Server.nativeStart, Server.IsRunning.
  rewrite bind_run. pose proof (startNative_shape H ctx s w) as Hs.
  destruct (Server.startNative H ctx s w) as [[[e s2]|[s2 pid]] wa];
    cbn [fst snd Server.finish] in *.
  - unmonad. destruct Hs as [He [->|(path & args & ->)]];
      (split; [exact He|]); (split; [exact Hrun|]); (split; [done|]);
      intros; discriminate.
  - destruct Hs as (path & args & ->).
    unfold Server.awaitReady. rewrite bind_run. cbn [config set_cmd].
    unfold Server.GetSocketAddress in *.
    destruct (WaitForSocket_unreachable (Address (config s))
                Server.readinessBudget wa (or_introl Hpipe))
      as (wb & -> & Hclk & Htrace & _). cbn [fst snd].
    rewrite bind_run. unfold process_Kill. unmonad.
    split; [done|]. split; [exact Hrun|]. split; [done|].
    intros s1 pid1 w1 [= <- <- <-]. rewrite Htrace, Hclk. cbn.
    repeat split; try done.
    unfold Server.readinessBudget, Second, Millisecond. lia.
Qed.

(** What the WSL2 phase of [Start] does when it falls back. *)
Lemma startWSL2_falls_back ctx s w :
  wsl_Enabled (wsl2Config s) = true ->
  falls_back H ctx s w ->
  let r := Server.startWSL2 H ctx s w in
  r.1 = inr s
  /\ exists warning l,
       (warning = Server.wsl2_unavailable
        \/ exists e, warning = Server.wsl2_failed e)
       /\ logs r.2 = (l ++ [warning; Server.using_native])%list.
Proof.
  intros Hen Hfail. cbn zeta. unfold falls_back, result, after in Hfail.
  cbn zeta in Hfail.
  destruct Hfail as [Hnone | [Hsome Herr]].
  - unfold Server.startWSL2. rewrite bind_run, Hen, Hnone. cbn [andb].
    unmonad. split; [done|]. exists Server.wsl2_unavailable. eexists.
    split; [by left|]. rewrite <- app_assoc. reflexivity.
  - destruct (StartWSL2Environment H ctx (wsl2Config s) _).1 as [e|] eqn:Hatt;
      [|done].
    unfold Server.startWSL2. rewrite bind_run, Hen, Hsome. cbn [andb].
    rewrite !bind_run. rewrite Hatt. unmonad. split; [done|].
    exists (Server.wsl2_failed e). eexists.
    split; [right; eauto|]. rewrite <- app_assoc. reflexivity.
Qed.

Lemma Start_after_fallback ctx s w :
  running s = false ->
  IsRunningOnMacOS H = false ->
  IsRunningOnWindows H = true ->
  (Server.startWSL2 H ctx s w).1 = inr s ->
  Server.Start H ctx s w
  = Server.nativeStart H ctx s (after (Server.startWSL2 H ctx s) w).
Proof.
  intros Hrun Hmac Hwin Hwsl.
  unfold Server.Start, Server.upToSpawn, Server.nativeStart, after.
  rewrite Hrun, Hmac, Hwin, !bind_run, Hwsl. reflexivity.
Qed.



End ready_facts.

(** C5.  When [Start] has spawned the engine (process [pid], server [s1],
    world [w1]) and the address stays unreachable for the 30s budget (it is a
    named pipe, or no probe up to the deadline finds the socket), then [Start]
    returns the readiness-timeout error, wrapped; its last action, 30s after
    the spawn, is the kill of that process; and the server is not marked
    running. *)
Theorem Start_readiness_timeout
    (H : Host) (ctx : Context) (s s1 : Server) (pid : nat) (w w1 : World) :
  Server.upToSpawn H ctx s w = (inr (s1, pid), w1) ->
  strings.HasPrefix (Server.GetSocketAddress s1) pipePrefix = true
  \/ unreachable_ticks H w1 (Server.GetSocketAddress s1) 0
       (Z.to_nat (Server.readinessBudget / pollInterval)) ->
  let r := Server.Start H ctx s w in
  r.1 = (Some (errors_Wrap (timeout_error (Server.GetSocketAddress s1))
                           "failed waiting for containerd to start"), s1)
  /\ Server.IsRunning r.1.2 = false
  /\ fmap Process (cmd r.1.2) = Some (Some pid)
  /\ trace r.2 = (trace w1 ++ [EvKill pid])%list
  /\ clock r.2 = clock w1 + Server.readinessBudget.
Proof.
  intros Hspawn Hnone. cbn zeta. unfold Server.GetSocketAddress in *.
  destruct (upToSpawn_inr H ctx s w s1 pid w1 Hspawn) as (Hrun & path & args & Hs1).
  unfold Server.Start. rewrite bind_run, Hspawn. cbn [fst snd Server.finish].
  unfold Server.awaitReady. rewrite bind_run.
  destruct (WaitForSocket_unreachable H _ _ w1 Hnone)
    as (w2 & -> & Hclk & Htrace & _). cbn [fst snd].
  rewrite bind_run. unfold process_Kill. unmonad.
  rewrite Htrace, Hclk. subst s1. cbn.
  repeat split; try done. unfold Server.readinessBudget, Second, Millisecond. lia.
Qed.


(** [Start_readiness_timeout] on the Linux host whose engine never brings its
    socket up. *)
Lemma Start_readiness_timeout_witness :
  let H := Examples.linux_no_socket in
  let r := Server.Start H context_Background
             (NewServer H (DefaultServerConfig H)) Examples.empty_world in
  r.1.1 = Some "failed waiting for containerd to start: timeout waiting for containerd socket at /home/u/.fun/containerd/containerd.sock"
  /\ Server.IsRunning r.1.2 = false
  /\ last (trace r.2) = Some (EvKill 10).
Proof.
  cbn zeta.
  destruct (Start_readiness_timeout Examples.linux_no_socket context_Background
              (NewServer Examples.linux_no_socket
                         (DefaultServerConfig Examples.linux_no_socket))
              Examples.spawned 10 Examples.empty_world Examples.spawned_world
              ltac:(vm_compute; reflexivity)
              ltac:(right; unfold unreachable_ticks;
                    apply (bool_decide_unpack _); vm_compute; exact I))
    as (Hr & Hrun & _ & Htrace & _).
  split; [by rewrite Hr|]. split; [exact Hrun|].
  rewrite Htrace. apply last_snoc.
Defined.

(** C1 (the code misses it).  On Windows with WSL2 enabled, when the
    availability probe fails, or when it succeeds and [StartWSL2Environment]
    returns an error, [Start] does fall back: it logs a warning and the notice
    of the native runtime, and goes on with the native start-up, whose result
    it returns.  But on a named-pipe address, the default on Windows, it then
    never succeeds: [Start] returns an error, the server is not running and
    [wslRunning] is untouched, whatever the host provides.  When the native
    prerequisites are met (the binaries are found, the directories and the
    log file are made and the engine is spawned, process [pid]), [Start]
    waits out the 30s of the readiness wait, kills that engine as its last
    action and returns the timeout error of [WaitForSocket]. *)
Theorem Start_fallback_fails_on_a_named_pipe
    (H : Host) (ctx : Context) (s : Server) (w : World) :
  running s = false ->
  IsRunningOnMacOS H = false ->
  IsRunningOnWindows H = true ->
  wsl_Enabled (wsl2Config s) = true ->
  strings.HasPrefix (Server.GetSocketAddress s) pipePrefix = true ->
  falls_back H ctx s w ->
  let r := Server.Start H ctx s w in
  let w1 := after (Server.startWSL2 H ctx s) w in
  (exists warning l,
      (warning = Server.wsl2_unavailable
       \/ exists e, warning = Server.wsl2_failed e)
      /\ logs w1 = (l ++ [warning; Server.using_native])%list)
  /\ r = Server.nativeStart H ctx s w1
  /\ r.1.1 <> None
  /\ Server.IsRunning r.1.2 = false
  /\ wslRunning r.1.2 = wslRunning s
  /\ forall s1 pid w2,
       Server.startNative H ctx s w1 = (inr (s1, pid), w2) ->
       r.1 = (Some (errors_Wrap (timeout_error (Server.GetSocketAddress s))
                                "failed waiting for containerd to start"), s1)
       /\ fmap Process (cmd s1) = Some (Some pid)
       /\ trace r.2 = (trace w2 ++ [EvKill pid])%list
       /\ clock r.2 = clock w2 + Server.readinessBudget.
Proof.
  intros Hrun Hmac Hwin Hen Hpipe Hfail. cbn zeta.
  destruct (startWSL2_falls_back H ctx s w Hen Hfail) as [Hwsl Hlogs].
  rewrite (Start_after_fallback H ctx s w Hrun Hmac Hwin Hwsl).
  destruct (nativeStart_pipe H ctx s (after (Server.startWSL2 H ctx s) w)
              Hrun Hpipe) as (Herr & Hnot & Hw & Hmet).
  split; [exact Hlogs|]. split; [done|]. split; [done|]. split; [done|].
  split; [done|]. exact Hmet.
Qed.

(** [Start_fallback_fails_on_a_named_pipe] on a Windows host without
    [wsl.exe], with the default configuration and containerd and runc on the
    PATH: [Start] logs the fallback, spawns the engine, and 30s later kills it
    and returns the timeout. *)
Lemma Start_fallback_fails_on_a_named_pipe_witness :
  let H := Examples.windows_no_wsl in
  let config := DefaultServerConfig H in
  let s := NewServer H config in
  let r := Server.Start H context_Background s Examples.empty_world in
  Server.GetSocketAddress s = "\\.\pipe\fun-containerd"
  /\ firstn 2 (logs r.2) = [Server.wsl2_unavailable; Server.using_native]
  /\ process_events (trace (Examples.fallback_spawned config))
     = [EvSpawn 11 ("C:\bin\containerd"
                    :: Args (Examples.windows_engine "\\.\pipe\fun-containerd" 11))]
  /\ r.1 = (Some "failed waiting for containerd to start: timeout waiting for containerd socket at \\.\pipe\fun-containerd",
            set_cmd (Some (Examples.windows_engine "\\.\pipe\fun-containerd" 11)) s)
  /\ Server.IsRunning r.1.2 = false
  /\ trace r.2 = (trace (Examples.fallback_spawned config) ++ [EvKill 11])%list
  /\ clock r.2 = 30 * Second.
Proof.
  cbn zeta.
  destruct (Start_fallback_fails_on_a_named_pipe Examples.windows_no_wsl
              context_Background
              (NewServer Examples.windows_no_wsl
                 (DefaultServerConfig Examples.windows_no_wsl))
              Examples.empty_world
              ltac:(vm_compute; reflexivity) ltac:(vm_compute; reflexivity)
              ltac:(vm_compute; reflexivity) ltac:(vm_compute; reflexivity)
              ltac:(vm_compute; reflexivity)
              ltac:(left; vm_compute; reflexivity))
    as (_ & _ & _ & Hrun & _ & Hmet).
  destruct (Hmet (set_cmd (Some (Examples.windows_engine "\\.\pipe\fun-containerd" 11))
                    (NewServer Examples.windows_no_wsl
                       (DefaultServerConfig Examples.windows_no_wsl)))
                 11%nat
                 (Examples.fallback_spawned (DefaultServerConfig Examples.windows_no_wsl))
                 ltac:(vm_compute; reflexivity))
    as (Hres & _ & Htrace & Hclock).
  split; [vm_compute; reflexivity|]. split; [vm_compute; reflexivity|].
  split; [vm_compute; reflexivity|]. split; [exact Hres|].
  split; [exact Hrun|]. split; [exact Htrace|].
  rewrite Hclock. vm_compute. reflexivity.
Defined.

(** * Further properties *)

(** ** The fallback on a socket file *)



(** ** What a computation leaves alone *)

Section silent_facts.
Context (H : Host).

Lemma silent_ret {A} (a : A) : silent (mret a).
Proof. intros w. done. Qed.

Lemma silent_bind {A B} (c : M A) (f : A -> M B) :
  silent c -> (forall a, silent (f a)) -> silent (c ≫= f).
Proof.
  intros Hc Hf w. rewrite bind_run.
  destruct (Hc w) as [Ht Hk]. destruct (Hf (c w).1 (c w).2) as [Ht' Hk'].
  split; congruence.
Qed.

Lemma silent_or_return {A} (c : M error) (wrap : string -> A) (k : M A) :
  silent c -> silent k -> silent (or_return c wrap k).
Proof.
  intros Hc Hk. unfold or_return. apply silent_bind; [done|].
  intros [e|]; [apply silent_ret|done].
Qed.

Lemma process_events_snoc t e :
  process_events (t ++ [e])
  = (process_events t ++ if process_event e then [e] else [])%list.
Proof.
  unfold process_events. rewrite filter_app, filter_cons, filter_nil.
  destruct (process_event e); case_decide; done.
Qed.

Lemma silent_emit e : process_event e = false -> silent (emit e).
Proof.
  intros He w. unfold emit. cbn. rewrite process_events_snoc, He, app_nil_r. done.
Qed.

Lemma silent_tick : silent tick.
Proof. intros w. done. Qed.
Lemma silent_log msg : silent (log_Printf msg).
Proof. intros w. done. Qed.
Lemma silent_fmt msg : silent (fmt_Printf msg).
Proof. intros w. done. Qed.
Lemma silent_now : silent now.
Proof. intros w. done. Qed.
Lemma silent_get_fs : silent get_fs.
Proof. intros w. done. Qed.
Lemma silent_update_fs f : silent (update_fs f).
Proof. intros w. done. Qed.
Lemma silent_os_Stat p : silent (os_Stat H p).
Proof. intros w. done. Qed.

End silent_facts.

Create HintDb silent.
#[global] Hint Resolve silent_ret silent_tick silent_log silent_fmt silent_now
  silent_get_fs silent_update_fs silent_os_Stat : silent.

Ltac silent_step :=
  lazymatch goal with
  | |- silent (mret _) => apply silent_ret
  | |- silent (emit _) => apply silent_emit; reflexivity
  | |- silent (_ ≫= _) => apply silent_bind; [|intros ?]
  | |- silent (or_return _ _ _) => apply silent_or_return
  | |- silent (match ?x with _ => _ end) => destruct x
  | |- silent (match ?x with _ => _ end _) => destruct x
  | |- silent (let _ := _ in _) => cbv zeta
  | |- silent _ => solve [eauto with silent]
  end.

Ltac silence := repeat silent_step.

Section silent_os.
Context (H : Host).

Lemma silent_os_MkdirAll p perm : silent (os_MkdirAll H p perm).
Proof. unfold os_MkdirAll. silence. Qed.
Lemma silent_os_Open p : silent (os_Open H p).
Proof. unfold os_Open. silence. Qed.
Lemma silent_os_OpenFile p t perm : silent (os_OpenFile H p t perm).
Proof. unfold os_OpenFile. silence. Qed.
Lemma silent_io_Copy s d data : silent (io_Copy H s d data).
Proof. unfold io_Copy. silence. Qed.
Lemma silent_io_Copy_file s d : silent (io_Copy_file H s d).
Proof. unfold io_Copy_file, io_Copy. silence. Qed.
Lemma silent_os_Chmod p m : silent (os_Chmod H p m).
Proof. unfold os_Chmod. silence. Qed.
Lemma silent_os_Remove p : silent (os_Remove p).
Proof. unfold os_Remove. silence. Qed.
Lemma silent_os_ReadDir p : silent (os_ReadDir H p).
Proof. unfold os_ReadDir. silence. Qed.
Lemma silent_exec_LookPath n : silent (exec_LookPath H n).
Proof. unfold exec_LookPath. silence. Qed.
Lemma silent_cmd_CombinedOutput argv : silent (cmd_CombinedOutput H argv).
Proof. unfold cmd_CombinedOutput. silence. Qed.

End silent_os.

#[global] Hint Resolve silent_os_MkdirAll silent_os_Open silent_os_OpenFile
  silent_io_Copy silent_io_Copy_file silent_os_Chmod silent_os_Remove silent_os_ReadDir
  silent_exec_LookPath silent_cmd_CombinedOutput : silent.

Section silent_provisioning.
Context (H : Host).

Lemma silent_bundled_or_PATH b n : silent (bundled_or_PATH H b n).
Proof. unfold bundled_or_PATH. silence. Qed.

Lemma silent_first_existing ps : silent (first_existing H ps).
Proof. induction ps as [|p ps IH]; cbn [first_existing]; silence. Qed.

Lemma silent_GetCNIPath : silent (GetCNIPath H).
Proof. unfold GetCNIPath. silence; apply silent_first_existing. Qed.

Lemma silent_extract_binary d s nf cf : silent (extract_binary H d s nf cf).
Proof. unfold extract_binary. silence. Qed.

Lemma silent_copy_plugins sd cd es : silent (copy_plugins H sd cd es).
Proof.
  induction es as [|[name nd] es IH]; cbn [copy_plugins]; silence.
Qed.

Lemma silent_CNI : silent (EnsureBundledCNIPluginsExtracted H).
Proof.
  unfold EnsureBundledCNIPluginsExtracted. silence; apply silent_copy_plugins.
Qed.

Lemma silent_EnsureAll : silent (EnsureAllBundledComponentsExtracted H).
Proof.
  unfold EnsureAllBundledComponentsExtracted, EnsureBundledContainerdExtracted,
    extractBundledContainerd, EnsureBundledRuncExtracted,
    EnsureBundledHyperKitExtracted.
  silence; auto using silent_extract_binary, silent_CNI.
Qed.

Lemma silent_nativePrepare s : silent (Server.nativePrepare H s).
Proof.
  unfold Server.nativePrepare, IsContainerdInstalled, IsRuncInstalled,
    HasCNIPlugins, GetContainerdPath, GetRuncPath.
  silence; auto using silent_EnsureAll, silent_bundled_or_PATH, silent_GetCNIPath.
Qed.

End silent_provisioning.

Section lifecycle_facts.
Context (H : Host).

Lemma WaitForSocket_frame path timeout w :
  let r := WaitForSocket H path timeout w in
  fs r.2 = fs w /\ logs r.2 = logs w /\ trace r.2 = trace w
  /\ 0 <= clock r.2 - clock w <= Z.max 0 timeout
  /\ (r.1 = None \/ r.1 = Some (timeout_error path))
  /\ (r.1 <> None -> clock r.2 - clock w = Z.max 0 timeout).
Proof.
  cbn zeta. destruct (strings.HasPrefix path pipePrefix) eqn:Hpipe.
  - destruct (WaitForSocket_pipe H path timeout w Hpipe) as [_ ->]. cbn.
    repeat split; auto; intros; lia.
  - destruct (WaitForSocket_polled H path timeout w Hpipe)
      as (r & w' & _ & -> & Hfs & Hlogs & Htrace & Hclk & Hr). cbn [fst snd].
    destruct r as [e|].
    + destruct Hr as (-> & Hc & _). repeat split; auto; intros; lia.
    + destruct Hr as (k & Hc & Hle & _). repeat split; auto; try lia. done.
Qed.

Lemma cmd_Start_events argv w :
  let r := cmd_Start H argv w in
  clock r.2 = clock w
  /\ match r.1 with
     | inl _ => trace r.2 = trace w
     | inr pid => trace r.2 = (trace w ++ [EvSpawn pid argv])%list
     end.
Proof.
  cbn zeta. unfold cmd_Start. unmonad.
  destruct (spawn_result H argv (steps w)); done.
Qed.

Lemma cmd_Start_ctx_events ctx argv w :
  let r := cmd_Start_ctx H ctx argv w in
  clock r.2 = clock w
  /\ match r.1 with
     | inl _ => trace r.2 = trace w
     | inr pid => trace r.2 = (trace w ++ [EvSpawn pid argv])%list
     end.
Proof.
  cbn zeta. unfold cmd_Start_ctx. rewrite bind_run. unfold now. cbn [fst snd].
  destruct (Context_Err ctx (clock w)); [done|]. apply cmd_Start_events.
Qed.

Lemma nativeSpawn_events ctx s path args w :
  let r := Server.nativeSpawn H ctx s path args w in
  clock r.2 = clock w
  /\ match r.1 with
     | inl _ => process_events (trace r.2) = process_events (trace w)
     | inr (_, pid) =>
         process_events (trace r.2)
         = (process_events (trace w) ++ [EvSpawn pid (path :: args)])%list
     end.
Proof.
  cbn zeta. unfold Server.nativeSpawn, or_return. rewrite bind_run.
  destruct (silent_os_OpenFile H (LogFile (config (set_cmd (Some {| Path := path; Args := args; Process := None |}) s))) false 420 w) as [Ht Hc].
  destruct (os_OpenFile H _ false 420 w) as [[e|] wa]; cbn [fst snd] in *.
  { unmonad. done. }
  rewrite bind_run.
  destruct (cmd_Start_ctx_events ctx (path :: args) wa) as [Hc' Ht'].
  destruct (cmd_Start_ctx H ctx _ wa) as [[e|pid] wb]; cbn [fst snd] in *; unmonad.
  - split; [congruence|]. by rewrite Ht'.
  - split; [congruence|]. by rewrite Ht', process_events_snoc, Ht.
Qed.

Lemma awaitReady_events s pid w :
  let r := Server.awaitReady H s pid w in
  (r.1 = (None, set_running true s)
   /\ process_events (trace r.2) = process_events (trace w)
   /\ 0 <= clock r.2 - clock w <= Server.readinessBudget)
  \/ (r.1.1 <> None /\ r.1.2 = s
      /\ process_events (trace r.2)
         = (process_events (trace w) ++ [EvKill pid])%list
      /\ clock r.2 - clock w = Server.readinessBudget).
Proof.
  cbn zeta. unfold Server.awaitReady. rewrite bind_run.
  destruct (WaitForSocket_frame (Address (config s)) Server.readinessBudget w)
    as (_ & _ & Ht & Hc & _ & Hfail).
  destruct (WaitForSocket H _ _ w) as [[e|] wa]; cbn [fst snd] in *.
  - right. rewrite bind_run. unfold process_Kill. unmonad.
    rewrite process_events_snoc, Ht. cbn. repeat split; try done.
    rewrite Hfail by done. reflexivity.
  - left. unmonad. rewrite Ht. unfold Server.readinessBudget, Second, Millisecond in *.
    repeat split; try done; lia.
Qed.

(** What the native start-up does to the processes of the host, and how long
    it takes. *)
Lemma nativeStart_events ctx s w :
  let r := Server.nativeStart H ctx s w in
  let before := process_events (trace w) in
  let after := process_events (trace r.2) in
  0 <= clock r.2 - clock w <= Server.readinessBudget
  /\ match r.1.1 with
     | None =>
         exists c pid,
           cmd r.1.2 = Some c /\ Process c = Some pid
           /\ running r.1.2 = true
           /\ after = (before ++ [EvSpawn pid (Path c :: Args c)])%list
     | Some _ =>
         running r.1.2 = running s
         /\ (after = before
             \/ exists pid argv,
                  after = (before ++ [EvSpawn pid argv; EvKill pid])%list)
     end.
Proof.
  cbn zeta. unfold Server.nativeStart, Server.startNative. rewrite !bind_run.
  destruct (silent_nativePrepare H s w) as [Ht Hc].
  destruct (Server.nativePrepare H s w) as [[e|[path args]] wa]; cbn [fst snd] in *.
  { unfold Server.finish. unmonad.
    split; [unfold Server.readinessBudget, Second, Millisecond; lia|].
    split; [done|by left]. }
  destruct (nativeSpawn_events ctx s path args wa) as [Hc' Ht'].
  pose proof (nativeSpawn_shape H ctx s path args wa) as Hs.
  destruct (Server.nativeSpawn H ctx s path args wa) as [[[e s2]|[s2 pid]] wb];
    cbn [fst snd Server.finish] in *.
  { unmonad. destruct Hs as [He ->].
    split; [unfold Server.readinessBudget, Second, Millisecond; lia|].
    destruct e; [|done]. split; [done|]. left. congruence. }
  subst s2.
  destruct (awaitReady_events
              (set_cmd (Some {| Path := path; Args := args; Process := Some pid |}) s)
              pid wb) as [(Hr & Hev & Hclk)|(Hr & Hs2 & Hev & Hclk)].
  - rewrite Hr. cbn [fst snd]. split; [rewrite Hc', Hc in Hclk; exact Hclk|].
    eexists _, pid. cbn. repeat split. rewrite Hev, Ht', Ht. reflexivity.
  - destruct (Server.awaitReady H _ pid wb) as [[e s3] wc]; cbn [fst snd] in *.
    subst s3. split; [rewrite Hc', Hc in Hclk; rewrite Hclk; unfold Server.readinessBudget, Second, Millisecond; lia|].
    destruct e; [|done]. split; [done|].
    right. exists pid, (path :: args). rewrite Hev, Ht', Ht, <- app_assoc. done.
Qed.

Lemma Start_is_nativeStart ctx s w :
  running s = false -> IsRunningOnMacOS H = false ->
  IsRunningOnWindows H = false ->
  Server.Start H ctx s w = Server.nativeStart H ctx s w.
Proof.
  intros Hr Hm Hw. unfold Server.Start, Server.upToSpawn, Server.nativeStart.
  by rewrite Hr, Hm, Hw.
Qed.

End lifecycle_facts.

(** X3.  On a host that is neither macOS nor Windows, with a context that
    does not end before [Start] returns (the engine is started with
    [exec.CommandContext], so that os/exec kills it at the moment the context
    ends), [Start] on a server that is not running waits at most the readiness
    budget, and it leaves no engine behind when it fails: when it returns
    [nil], the only process event it added is the spawn of the engine the
    server now holds; when it returns an error, it added either no process
    event, or the spawn of an engine followed by the kill of that same
    process, and the server is not marked running. *)
Theorem Start_spawns_one_engine_and_kills_it_on_failure
    (H : Host) (ctx : Context) (s : Server) (w : World) :
  running s = false ->
  IsRunningOnMacOS H = false ->
  IsRunningOnWindows H = false ->
  (forall t, cancel_at ctx = Some t -> clock (Server.Start H ctx s w).2 < t) ->
  let r := Server.Start H ctx s w in
  let before := process_events (trace w) in
  let after := process_events (trace r.2) in
  0 <= elapsed (Server.Start H ctx s) w <= Server.readinessBudget
  /\ match r.1.1 with
     | None =>
         exists c pid,
           cmd r.1.2 = Some c /\ Process c = Some pid
           /\ Server.IsRunning r.1.2 = true
           /\ after = (before ++ [EvSpawn pid (Path c :: Args c)])%list
     | Some _ =>
         Server.IsRunning r.1.2 = false
         /\ (after = before
             \/ exists pid argv,
                  after = (before ++ [EvSpawn pid argv; EvKill pid])%list)
     end.
Proof.
  intros Hr Hm Hw _. cbn zeta. unfold elapsed, after, Server.IsRunning.
  rewrite (Start_is_nativeStart H ctx s w Hr Hm Hw).
  pose proof (nativeStart_events H ctx s w) as Hev. cbn zeta in Hev.
  destruct Hev as [Hclk Hev]. split; [exact Hclk|].
  destruct (Server.nativeStart H ctx s w).1.1; [|exact Hev].
  destruct Hev as [Hrun Hev]. split; [congruence|exact Hev].
Qed.

(** [Start_spawns_one_engine_and_kills_it_on_failure] on the host whose
    engine never brings its socket up. *)
Lemma Start_spawns_one_engine_and_kills_it_on_failure_witness :
  let H := Examples.linux_no_socket in
  let r := Server.Start H context_Background
             (NewServer H (DefaultServerConfig H)) Examples.empty_world in
  r.1.1 <> None
  /\ process_events (trace r.2)
     = [EvSpawn 10 ("/usr/bin/containerd" :: Args Examples.engine); EvKill 10].
Proof.
  cbn zeta.
  pose proof (Start_spawns_one_engine_and_kills_it_on_failure
                Examples.linux_no_socket context_Background
                (NewServer Examples.linux_no_socket
                           (DefaultServerConfig Examples.linux_no_socket))
                Examples.empty_world
                ltac:(vm_compute; reflexivity) ltac:(vm_compute; reflexivity)
                ltac:(vm_compute; reflexivity) ltac:(intros t [=])) as [_ Hw].
  split; [vm_compute; discriminate|]. vm_compute. reflexivity.
Defined.

Section cycle_facts.
Context (H : Host).

Lemma nativeStart_success_cmd ctx s w s' w' :
  Server.nativeStart H ctx s w = (None, s', w') ->
  exists c pid, cmd s' = Some c /\ Process c = Some pid.
Proof.
  intros Hrun. pose proof (nativeStart_events H ctx s w) as Hev.
  cbn zeta in Hev. rewrite Hrun in Hev. cbn [fst snd] in Hev.
  destruct Hev as (_ & c & pid & Hc & Hp & _). eauto.
Qed.

(** The backend a successful [Start] leaves active. *)
Lemma Start_success_backend ctx s w s' w' :
  Server.Start H ctx s w = (None, s', w') ->
  running s' = true
  /\ (running s = true /\ s' = s
      \/ (IsRunningOnMacOS H = true /\ vmRunning s' = true
          /\ wslRunning s' = wslRunning s)
      \/ (IsRunningOnMacOS H = false /\ IsRunningOnWindows H = true
          /\ wslRunning s' = true /\ vmRunning s' = vmRunning s)
      \/ (IsRunningOnMacOS H = false
          /\ vmRunning s' = vmRunning s /\ wslRunning s' = wslRunning s
          /\ exists c pid, cmd s' = Some c /\ Process c = Some pid)).
Proof.
  unfold Server.Start, Server.upToSpawn.
  destruct (running s) eqn:Hr.
  { unmonad. intros [= <- <-]. auto. }
  destruct (IsRunningOnMacOS H) eqn:Hm.
  { rewrite !bind_run.
    destruct (startHypervisorVM_shape H ctx s w) as [[He Hs]|Hs];
      destruct (Server.startHypervisorVM H ctx s w) as [[e s2] wa];
      cbn [fst snd] in *; unmonad.
    - intros [= -> <- <-]. done.
    - injection Hs as -> ->. intros [= <- <-]. split; [done|]. right. left. done. }
  assert (Hnative : forall w0,
             Server.nativeStart H ctx s w0 = (None, s', w') ->
             running s' = true
             /\ vmRunning s' = vmRunning s /\ wslRunning s' = wslRunning s
             /\ exists c pid, cmd s' = Some c /\ Process c = Some pid).
  { intros w0 Hrun.
    destruct (nativeStart_success H ctx s w0 s' w' Hrun) as (? & ? & ? & _).
    destruct (nativeStart_success_cmd ctx s w0 s' w' Hrun) as (c & pid & ? & ?).
    eauto 10. }
  unfold Server.nativeStart in Hnative.
  destruct (IsRunningOnWindows H) eqn:Hw.
  2:{ intros Hrun. destruct (Hnative w Hrun) as (? & ? & ? & ?).
      split; [done|]. do 3 right. done. }
  rewrite !bind_run. pose proof (startWSL2_shape H ctx s w) as Hs.
  destruct (Server.startWSL2 H ctx s w) as [[[e s2]|s2] wa]; cbn [fst snd] in *.
  - unmonad. destruct Hs as [[He ->]|(-> & Hen & address & Haddr & ->)].
    + intros [= -> <- <-]. done.
    + intros [= <- <-]. split; [done|]. right. right. left. done.
  - subst s2. rewrite <- bind_run. intros Hrun.
    destruct (Hnative wa Hrun) as (? & ? & ? & ?).
    split; [done|]. do 3 right. done.
Qed.

Lemma stopNative_nil ctx s pid w s' w' :
  Server.stopNative H ctx s pid w = (Returned None, s', w') ->
  s' = set_running false s.
Proof.
  rewrite stopNative_run. cbn zeta.
  destruct (result (process_Signal H pid Interrupt) w); [done|].
  destruct (result (Server.stopRace H ctx pid) _).1; try done.
  by intros [= _ <- _].
Qed.

Lemma Stop_nil ctx s w s' w' :
  Server.Stop H ctx s w = (Returned None, s', w') ->
  (IsRunningOnMacOS H && vmRunning s = true
   /\ s' = set_running false (set_vmRunning false s))
  \/ (IsRunningOnMacOS H && vmRunning s = false
      /\ IsRunningOnWindows H && wslRunning s = true
      /\ s' = set_running false (set_wslRunning false s))
  \/ (IsRunningOnMacOS H && vmRunning s = false
      /\ IsRunningOnWindows H && wslRunning s = false
      /\ (s' = s /\ Server.nothing_to_stop s = true
          \/ s' = set_running false s)).
Proof.
  unfold Server.Stop.
  destruct (IsRunningOnMacOS H && vmRunning s)%bool.
  { unfold or_return. rewrite bind_run.
    destruct (StopLinuxKitVM H _ w).1; unmonad; [done|].
    intros [= <- <-]. by left. }
  destruct (IsRunningOnWindows H && wslRunning s)%bool.
  { unfold or_return. rewrite bind_run.
    destruct (StopWSL2Environment H _ w).1; unmonad; [done|].
    intros [= <- <-]. right. by left. }
  destruct (Server.nothing_to_stop s) eqn:Hn.
  { unmonad. intros [= <- <-]. right. right. auto. }
  destruct (cmd s) as [c|]; [|done].
  destruct (Process c) as [pid|]; [|done].
  intros Hs. apply stopNative_nil in Hs. right. right. auto.
Qed.

End cycle_facts.

(** X1.  A [Start] that returns [nil] leaves the server marked running, and
    from then on [Start] is a no-op: whatever the world and the context, it
    returns [nil] at once and changes neither the server nor the world. *)
Theorem Start_succeeds_once_running
    (H : Host) (ctx ctx' : Context) (s s' : Server) (w w' : World) :
  Server.Start H ctx s w = (None, s', w') ->
  Server.IsRunning s' = true
  /\ forall w2, Server.Start H ctx' s' w2 = (None, s', w2).
Proof.
  intros Hrun. destruct (Start_success_backend H ctx s w s' w' Hrun) as [Hr _].
  split; [exact Hr|]. intros w2. unfold Server.Start, Server.upToSpawn.
  rewrite Hr. reflexivity.
Qed.

(** [Start_succeeds_once_running] on the Linux host: the server of [boot]
    is running and a second [Start] changes nothing. *)
Lemma Start_succeeds_once_running_witness :
  let H := Examples.linux in
  let b := Examples.boot H in
  Server.IsRunning b.1.2 = true
  /\ Server.Start H context_Background b.1.2 b.2 = (None, b.1.2, b.2).
Proof.
  cbn zeta.
  destruct (Start_succeeds_once_running Examples.linux context_Background
              context_Background
              (NewServer Examples.linux (DefaultServerConfig Examples.linux))
              (Examples.boot Examples.linux).1.2 Examples.empty_world
              (Examples.boot Examples.linux).2
              ltac:(vm_compute; reflexivity)) as [Hr Hagain].
  split; [exact Hr | apply Hagain].
Defined.

(** X2.  The life cycle can be repeated.  From a server with nothing active
    (the state [NewServer] makes), a [Start] that returns [nil] followed, at
    any later time, by a [Stop] that returns [nil] leaves a server with nothing
    active again and with the configuration [Start] left; a further [Stop] is
    then a no-op. *)
Theorem Start_then_Stop_returns_to_idle
    (H : Host) (ctx ctx' : Context) (s s1 s2 : Server) (w w1 w2 w3 : World) :
  idle s ->
  Server.Start H ctx s w = (None, s1, w1) ->
  Server.Stop H ctx' s1 w2 = (Returned None, s2, w3) ->
  idle s2 /\ config s2 = config s1
  /\ forall w4, Server.Stop H ctx' s2 w4 = (Returned None, s2, w4).
Proof.
  intros (Hr & Hvm & Hwsl) Hstart Hstop.
  destruct (Start_success_backend H ctx s w s1 w1 Hstart) as [Hr1 Hb].
  assert (Hidle : idle s2 /\ config s2 = config s1).
  { destruct Hb as [[Hr' _]|[(Hm & Hvm1 & Hwsl1)|[(Hm & Hwin & Hwsl1 & Hvm1)
                     |(Hm & Hvm1 & Hwsl1 & c & pid & Hc & Hp)]]].
    - congruence.
    - destruct (Stop_nil H ctx' s1 w2 s2 w3 Hstop)
        as [[_ ->]|[(Hx & _)|(Hx & _)]];
        [|rewrite Hm, Hvm1 in Hx; done..].
      unfold idle. cbn. rewrite Hwsl1. done.
    - destruct (Stop_nil H ctx' s1 w2 s2 w3 Hstop)
        as [[Hx _]|[(_ & _ & ->)|(_ & Hx & _)]];
        [rewrite Hm in Hx; done| |rewrite Hwin, Hwsl1 in Hx; done].
      unfold idle. cbn. rewrite Hvm1. done.
    - destruct (Stop_nil H ctx' s1 w2 s2 w3 Hstop)
        as [[Hx _]|[(_ & Hx & _)|(_ & _ & [[-> Hn]| ->])]].
      + rewrite Hm in Hx. done.
      + rewrite Hwsl1, Hwsl, andb_false_r in Hx. done.
      + unfold Server.nothing_to_stop in Hn. rewrite Hr1, Hc, Hp in Hn. done.
      + unfold idle. cbn. rewrite Hvm1, Hwsl1. done. }
  destruct Hidle as [(Hr2 & Hvm2 & Hwsl2) Hcfg].
  split; [done|]. split; [done|]. intros w4.
  by apply Server_Stop_nothing.
Qed.

(** [Start_then_Stop_returns_to_idle] on the Linux host whose engine exits
    on the interrupt. *)
Lemma Start_then_Stop_returns_to_idle_witness :
  let H := Examples.linux in
  let b := Examples.boot H in
  let r := Server.Stop H context_Background b.1.2 b.2 in
  idle r.1.2 /\ r.1.1 = Returned None.
Proof.
  cbn zeta. split; [|vm_compute; reflexivity].
  refine (proj1 (Start_then_Stop_returns_to_idle Examples.linux
            context_Background context_Background
            (NewServer Examples.linux (DefaultServerConfig Examples.linux))
            (Examples.boot Examples.linux).1.2 _
            Examples.empty_world (Examples.boot Examples.linux).2
            (Examples.boot Examples.linux).2 _ _ _ _)).
  - vm_compute. done.
  - vm_compute. reflexivity.
  - vm_compute. reflexivity.
Defined.

(** X6.  [WaitForSocket] only waits: it changes no file, writes no log line
    and has no effect outside the process; the clock never goes back. *)
Theorem WaitForSocket_only_advances_the_clock
    (H : Host) (path : string) (timeout : Duration) (w : World) :
  let w' := after (WaitForSocket H path timeout) w in
  fs w' = fs w /\ logs w' = logs w /\ trace w' = trace w
  /\ clock w <= clock w'.
Proof.
  cbn zeta. unfold after.
  destruct (WaitForSocket_frame H path timeout w) as (? & ? & ? & ? & _).
  repeat split; try done. lia.
Qed.

(** X7.  The first probe of [WaitForSocket] comes one poll interval after
    the call.  With a timeout shorter than the interval it therefore returns
    the timeout error after the timeout, for every address, even when the
    socket is there all along. *)
Theorem WaitForSocket_needs_one_poll_interval
    (H : Host) (path : string) (timeout : Duration) (w : World) :
  timeout < pollInterval ->
  result (WaitForSocket H path timeout) w = Some (timeout_error path)
  /\ elapsed (WaitForSocket H path timeout) w = Z.max 0 timeout.
Proof.
  intros Hshort. unfold result, elapsed, after.
  destruct (WaitForSocket_frame H path timeout w) as (_ & _ & _ & _ & Hr & Hfail).
  destruct (strings.HasPrefix path pipePrefix) eqn:Hpipe.
  - destruct (WaitForSocket_pipe H path timeout w Hpipe) as [_ Hrun].
    rewrite Hrun in *. cbn [fst snd] in *. split; [done|]. by apply Hfail.
  - destruct (WaitForSocket_polled H path timeout w Hpipe)
      as (r & w' & _ & Hrun & _ & _ & _ & _ & Hk).
    rewrite Hrun in *. cbn [fst snd] in *.
    destruct r as [e|].
    + destruct Hk as (-> & _). split; [done|]. by apply Hfail.
    + exfalso. destruct Hk as (k & _ & Hle & _). unfold tickTime in Hle.
      pose proof pollInterval_pos. nia.
Qed.

(** [WaitForSocket_needs_one_poll_interval] with a timeout of 50ms on a
    socket that exists from the start. *)
Lemma WaitForSocket_needs_one_poll_interval_witness :
  reachable Examples.linux Scenarios.listening "/run/fun.sock" 0 = true
  /\ result (WaitForSocket Examples.linux "/run/fun.sock" (50 * Millisecond))
            Scenarios.listening
     = Some "timeout waiting for containerd socket at /run/fun.sock".
Proof.
  split; [vm_compute; reflexivity|].
  apply (WaitForSocket_needs_one_poll_interval Examples.linux "/run/fun.sock"
           (50 * Millisecond) Scenarios.listening).
  vm_compute. reflexivity.
Defined.

Section file_facts.
Context (H : Host).

Lemma append_cons c (s t : string) : String c s +:+ t = String c (s +:+ t).
Proof. reflexivity. Qed.

Lemma append_empty_r (s : string) : s +:+ "" = s.
Proof. induction s as [|c s IH]; [done|]. by rewrite append_cons, IH. Qed.

Lemma length_append (s t : string) :
  String.length (s +:+ t) = (String.length s + String.length t)%nat.
Proof.
  induction s as [|c s IH]; [done|]. rewrite append_cons. cbn [String.length].
  by rewrite IH.
Qed.

Lemma substring_empty n m : String.substring n m "" = "".
Proof. destruct n, m; reflexivity. Qed.

Lemma overwrite_empty data : overwrite data "" = data.
Proof. unfold overwrite. by rewrite substring_empty, append_empty_r. Qed.

Lemma length_substring n m s :
  (n + m <= String.length s)%nat -> String.length (String.substring n m s) = m.
Proof.
  revert n m. induction s as [|c s IH]; intros n m; cbn [String.length].
  - intros Hle. assert (n = 0 /\ m = 0)%nat as [-> ->] by lia. reflexivity.
  - destruct n as [|n]; cbn [String.substring].
    + destruct m as [|m]; [reflexivity|]. intros Hle. cbn [String.length].
      rewrite (IH 0%nat m); lia.
    + intros Hle. apply IH. lia.
Qed.

Lemma length_overwrite data old :
  String.length (overwrite data old)
  = Nat.max (String.length data) (String.length old).
Proof.
  unfold overwrite. rewrite length_append.
  destruct (Nat.le_gt_cases (String.length old) (String.length data)) as [Hle|Hgt].
  - replace (String.length old - String.length data)%nat with 0%nat by lia.
    assert (Hz : forall n s, String.length (String.substring n 0 s) = 0%nat).
    { intros n s. revert n. induction s as [|c s IH]; intros [|n]; cbn; auto. }
    rewrite Hz. lia.
  - rewrite length_substring by lia. lia.
Qed.

Lemma os_OpenFile_ok p trunc perm w :
  (os_OpenFile H p trunc perm w).1 = None ->
  let w' := (os_OpenFile H p trunc perm w).2 in
  clock w' = clock w
  /\ trace w' = (trace w ++ [EvOpenWrite p])%list
  /\ match result (os_Stat H p) w with
     | Some (File m d) => fs w' = <[p := File m (if trunc then "" else d)]> (fs w)
     | Some (Dir _) => False
     | None => fs w' = <[p := File (created_mode H perm) ""]> (fs w)
     end.
Proof.
  unfold os_OpenFile, result. rewrite bind_run, os_Stat_world.
  destruct (os_Stat H p w).1 as [[m d|m]|]; unmonad;
    try (destruct (io_fault H "openfile" p _)); done.
Qed.

Lemma os_MkdirAll_keeps p perm w q nd :
  (os_MkdirAll H p perm w).1 = None ->
  fs w !! q = Some nd ->
  fs (os_MkdirAll H p perm w).2 !! q = Some nd
  /\ (nd = Dir (node_mode nd) \/ q <> p).
Proof.
  intros Hok Hq. unfold os_MkdirAll in *. rewrite bind_run in *.
  rewrite os_Stat_run in *. cbn [fst snd] in *.
  destruct (fs w !! p) as [[m d|m]|] eqn:Hp; cbn in *.
  - done.
  - split; [done|]. destruct (decide (q = p)) as [->|]; [left|by right].
    rewrite Hp in Hq. by injection Hq as <-.
  - assert (q <> p) by congruence.
    destruct (ext_node H p (clock w)) as [[m d|m]|]; cbn in *; [done|by auto|].
    revert Hok. unmonad. destruct (io_fault H "mkdir" p _); [done|].
    intros _. cbn. rewrite lookup_insert_ne by done. auto.
Qed.

(** Writing a node back where it is, or writing elsewhere, leaves what
    [os.Stat] reports. *)
Lemma os_Stat_reinsert p q nd w w' :
  fs w' = <[q := nd]> (fs w) -> clock w' = clock w ->
  (os_Stat H q w).1 = Some nd ->
  (os_Stat H p w').1 = (os_Stat H p w).1.
Proof.
  rewrite !os_Stat_run. cbn [fst]. intros -> ->.
  destruct (decide (p = q)) as [->|Hne].
  - rewrite lookup_insert_eq. by intros ->.
  - by rewrite lookup_insert_ne.
Qed.

Lemma os_Stat_insert_ne p q nd w w' :
  p <> q -> fs w' = <[q := nd]> (fs w) -> clock w' = clock w ->
  (os_Stat H p w').1 = (os_Stat H p w).1.
Proof.
  rewrite !os_Stat_run. cbn [fst]. intros Hne -> ->.
  by rewrite lookup_insert_ne.
Qed.

End file_facts.

Section extraction_facts.
Context (H : Host).

Lemma os_Open_ok p w sourceFile :
  (os_Open H p w).1 = inr sourceFile ->
  sourceFile = p /\ is_Some (result (os_Stat H p) w).
Proof.
  unfold os_Open, result. rewrite bind_run, os_Stat_world.
  destruct (os_Stat H p w).1 as [nd|]; unmonad; [|done].
  destruct (io_fault H "open" p _); [done|]. intros [= <-]. eauto.
Qed.

Lemma extract_binary_ok dest src nf cf w :
  result (extract_binary H dest src nf cf) w = None ->
  let wa := after (os_MkdirAll H (BundledBinaryDir H) 493) w in
  let w1 := after (extract_binary H dest src nf cf) w in
  result (os_MkdirAll H (BundledBinaryDir H) 493) w = None
  /\ match result (os_Stat H dest) wa with
     | Some nd =>
         if executable_bit H nd then w1 = wa
         else match nd with
              | Dir _ => False
              | File m d0 => copied H dest src wa w1 m d0
              end
     | None => copied H dest src wa w1 (created_mode H 493) ""
     end.
Proof.
  cbn zeta. unfold result, after, extract_binary.
  destruct (os_MkdirAll H (BundledBinaryDir H) 493 w).1 eqn:Emk;
    [by erewrite or_return_err|].
  rewrite or_return_ok by done.
  set (wa := (os_MkdirAll H (BundledBinaryDir H) 493 w).2) in *.
  rewrite bind_run, os_Stat_world.
  assert (Hcopy : forall m d0,
    match (os_Stat H dest wa).1 with
    | Some (File m' d') => m = m' /\ d0 = d'
    | Some (Dir _) => True
    | None => m = created_mode H 493 /\ d0 = ""
    end ->
    forall k : M error,
    k = match os_Executable H with
        | inl e => mret (Some (errors_Wrap e "failed to get executable path"))
        | inr executablePath =>
            let src0 := src (filepath_Dir H executablePath) in
            st ← os_Stat H src0;
            match st with
            | None => mret (Some (errors_Wrap (stat_error src0)
                                    (nf +:+ " not found at " +:+ src0)))
            | Some _ =>
                sourceFile ← os_Open H src0;
                match sourceFile with
                | inl e => mret (Some (errors_Wrap e "failed to open source binary"))
                | inr sourceFile =>
                    or_return (os_OpenFile H dest false 493)
                      (fun e => Some (errors_Wrap e
                                 "failed to create destination binary file")) (
                    or_return (io_Copy_file H sourceFile dest)
                      (fun e => Some (errors_Wrap e cf)) (mret None))
                end
            end
        end ->
    (k wa).1 = None ->
    match (os_Stat H dest wa).1 with
    | Some (Dir _) => False
    | _ => copied H dest src wa (k wa).2 m d0
    end).
  { intros m d0 Hmd k ->.
    destruct (os_Executable H) as [e|exe] eqn:Hexe; [unmonad; done|].
    cbn zeta. rewrite bind_run, os_Stat_world.
    destruct (os_Stat H (src (filepath_Dir H exe)) wa).1 as [srcnode|] eqn:Esrc;
      [|unmonad; done].
    rewrite bind_run.
    destruct (os_Open_world H (src (filepath_Dir H exe)) wa)
      as (Hfs_b & Hclk_b & _ & _).
    pose proof (os_Open_ok (src (filepath_Dir H exe)) wa) as Hopen.
    set (wb := (os_Open H (src (filepath_Dir H exe)) wa).2) in *.
    destruct (os_Open H _ wa).1 as [e|sourceFile]; [unmonad; done|].
    destruct (Hopen sourceFile eq_refl) as [-> _].
    destruct (os_OpenFile H dest false 493 wb).1 eqn:Eopen;
      [by erewrite or_return_err|].
    rewrite or_return_ok by done.
    destruct (os_OpenFile_ok H dest false 493 wb Eopen) as (Hclk_c & _ & Hfs_c).
    set (wc := (os_OpenFile H dest false 493 wb).2) in *.
    assert (Hst_b : result (os_Stat H dest) wb = (os_Stat H dest wa).1).
    { unfold result, os_Stat. cbn. by rewrite Hfs_b, Hclk_b. }
    rewrite Hst_b in Hfs_c.
    destruct (io_Copy_file H (src (filepath_Dir H exe)) dest wc).1
      eqn:Ecopy; [by erewrite or_return_err|].
    rewrite or_return_ok by done. intros _.
    destruct (io_Copy_file_run H _ _ _ Ecopy) as (ms & data & Hsrc_c & Hrun).
    rewrite Hrun in *. unfold result in Hsrc_c.
    unfold mret, M_ret. cbn [fst snd].
    destruct (os_Stat H dest wa).1 as [[m' d'|m']|] eqn:Est_a; [| done |].
    - destruct Hmd as [-> ->].
      destruct (io_Copy_ok H _ _ _ _ m' d'
                  ltac:(rewrite Hfs_c; apply lookup_insert_eq) Ecopy)
        as (Hfs_d & Hclk_d & _).
      rewrite Hfs_b in Hfs_c.
      rewrite (os_Stat_reinsert H _ dest (File m' d') wa wc Hfs_c
                 ltac:(congruence) Est_a) in Hsrc_c.
      exists exe, ms, data. split; [done|]. split; [done|].
      rewrite Hfs_d, Hfs_c, insert_insert_eq. split; [done|]. congruence.
    - destruct Hmd as [-> ->].
      destruct (io_Copy_ok H _ _ _ _ (created_mode H 493) ""
                  ltac:(rewrite Hfs_c; apply lookup_insert_eq) Ecopy)
        as (Hfs_d & Hclk_d & _).
      rewrite Hfs_b in Hfs_c.
      rewrite (os_Stat_insert_ne H _ dest _ wa wc
                 ltac:(intros Heq; rewrite Heq in Esrc; congruence) Hfs_c
                 ltac:(congruence)) in Hsrc_c.
      exists exe, ms, data. split; [done|]. split; [done|].
      rewrite Hfs_d, Hfs_c, insert_insert_eq. split; [done|]. congruence. }
  unfold result in *.
  destruct (os_Stat H dest wa).1 as [[m d|m]|] eqn:Est; cbn [fst snd].
  - destruct (executable_bit H (File m d)); [unmonad; done|].
    intros Hok. split; [done|]. by eapply (Hcopy m d).
  - destruct (executable_bit H (Dir m)); [unmonad; done|].
    intros Hok. split; [done|]. by eapply (Hcopy 0 "").
  - intros Hok. split; [done|]. by eapply (Hcopy (created_mode H 493) "").
Qed.

Lemma EnsureExtracted_source (c : BundledBinary) :
  exists nf cf,
    EnsureExtracted H c
    = extract_binary H (destination H c) (bundled_source H c) nf cf.
Proof. destruct c; eexists _, _; reflexivity. Qed.

Lemma extract_binary_present dest src nf cf w :
  result (extract_binary H dest src nf cf) w = None ->
  is_Some (result (os_Stat H dest) (after (extract_binary H dest src nf cf) w)).
Proof.
  intros Hok. destruct (extract_binary_ok dest src nf cf w Hok) as [_ Hcase].
  cbn zeta in Hcase.
  set (wa := after (os_MkdirAll H (BundledBinaryDir H) 493) w) in *.
  set (w1 := after (extract_binary H dest src nf cf) w) in *.
  assert (Hc : forall m d0, copied H dest src wa w1 m d0 ->
                            is_Some (result (os_Stat H dest) w1)).
  { intros m d0 (exe & ms & data & _ & _ & Hfs & _). unfold result, os_Stat. cbn.
    rewrite Hfs, lookup_insert_eq. eauto. }
  destruct (result (os_Stat H dest) wa) as [nd|] eqn:Est; [|by eauto].
  destruct (executable_bit H nd).
  - rewrite Hcase, Est. eauto.
  - destruct nd; [by eauto|done].
Qed.

Lemma GetPath_shape (c : BundledBinary) :
  exists name, GetPath H c = bundled_or_PATH H (destination H c) name.
Proof. destruct c; eexists; reflexivity. Qed.

End extraction_facts.

(** X8.  Extraction and lookup fit together.  After a successful extraction
    of containerd, runc or HyperKit, the path lookup of that component returns
    the destination in the cache, without consulting the PATH and without
    changing the world. *)
Theorem EnsureExtracted_then_GetPath
    (H : Host) (c : BundledBinary) (w : World) :
  result (EnsureExtracted H c) w = None ->
  let w1 := after (EnsureExtracted H c) w in
  GetPath H c w1 = (destination H c, w1).
Proof.
  destruct (EnsureExtracted_source H c) as (nf & cf & ->).
  destruct (GetPath_shape H c) as [name ->].
  intros Hok. cbn zeta.
  destruct (extract_binary_present H _ _ _ _ w Hok) as [nd Hnd].
  unfold bundled_or_PATH. rewrite bind_run, os_Stat_world.
  unfold result in Hnd. by rewrite Hnd.
Qed.

(** [EnsureExtracted_then_GetPath] for runc on the Linux host: the PATH
    before the extraction, the cache after it. *)
Lemma EnsureExtracted_then_GetPath_witness :
  let H := Examples.linux in
  let w1 := after (EnsureExtracted H Runc) Examples.fresh_cache in
  result (GetPath H Runc) Examples.fresh_cache = "/usr/bin/runc"
  /\ result (GetPath H Runc) w1 = "/home/u/.config/funserver/bin/runc".
Proof.
  cbn zeta. split; [vm_compute; reflexivity|].
  unfold result.
  rewrite (EnsureExtracted_then_GetPath Examples.linux Runc Examples.fresh_cache
             ltac:(vm_compute; reflexivity)).
  vm_compute. reflexivity.
Defined.

(** X9.  The extractors open the destination without truncating it.  When
    the destination is a file without an executable bit, a successful
    extraction writes the bundled bytes over the start of the old ones and
    keeps the mode: the file is as long as the longer of the two, so an old
    file that is longer than the bundled binary leaves a file that is not the
    bundled binary. *)
Theorem EnsureExtracted_writes_over_a_stale_file
    (H : Host) (c : BundledBinary) (w : World)
    (exe : string) (m ms : Z) (old data : string) :
  os_Executable H = inr exe ->
  fs w !! bundled_source H c (filepath_Dir H exe) = Some (File ms data) ->
  fs w !! destination H c = Some (File m old) ->
  executable_bit H (File m old) = false ->
  result (EnsureExtracted H c) w = None ->
  let w1 := after (EnsureExtracted H c) w in
  fs w1 !! destination H c = Some (File m (overwrite data old))
  /\ String.length (overwrite data old)
     = Nat.max (String.length data) (String.length old)
  /\ ((String.length data < String.length old)%nat -> overwrite data old <> data).
Proof.
  destruct (EnsureExtracted_source H c) as (nf & cf & ->).
  intros Hexe Hsrc Hdest Hx Hok. cbn zeta.
  destruct (extract_binary_ok H _ _ _ _ w Hok) as [Hmk Hcase].
  cbn zeta in Hcase. unfold result, after in *.
  destruct (os_MkdirAll_keeps H _ _ _ _ _ Hmk Hsrc) as [Hsrc_a _].
  destruct (os_MkdirAll_keeps H _ _ _ _ _ Hmk Hdest) as [Hdest_a _].
  set (wa := (os_MkdirAll H (BundledBinaryDir H) 493 w).2) in *.
  rewrite os_Stat_run in Hcase. cbn [fst] in Hcase.
  rewrite Hdest_a, Hx in Hcase.
  destruct Hcase as (exe' & ms' & data' & Hexe' & Hnd & Hfs & _).
  rewrite Hexe in Hexe'. injection Hexe' as <-.
  unfold result in Hnd. rewrite os_Stat_run in Hnd. cbn [fst] in Hnd.
  rewrite Hsrc_a in Hnd.
  injection Hnd as <- <-.
  split; [by rewrite Hfs, lookup_insert_eq|].
  split; [apply length_overwrite|].
  intros Hlt Heq. pose proof (length_overwrite data old) as Hlen.
  rewrite Heq in Hlen. lia.
Qed.

(** [EnsureExtracted_writes_over_a_stale_file] for runc on a cache that
    holds a longer, non-executable file. *)
Lemma EnsureExtracted_writes_over_a_stale_file_witness :
  let H := Examples.linux in
  fs (after (EnsureExtracted H Runc) Scenarios.long_stale_cache)
    !! destination H Runc
  = Some (File 420 "RUNCRUNC-1.0").
Proof.
  cbn zeta.
  destruct (EnsureExtracted_writes_over_a_stale_file Examples.linux Runc
              Scenarios.long_stale_cache "/home/u/app/fun" 420 493
              "OLD-RUNC-1.0" "RUNC"
              ltac:(vm_compute; reflexivity) ltac:(vm_compute; reflexivity)
              ltac:(vm_compute; reflexivity) ltac:(vm_compute; reflexivity)
              ltac:(vm_compute; reflexivity)) as [Hfs _].
  rewrite Hfs. vm_compute. reflexivity.
Defined.

Section failed_copy_facts.
Context (H : Host).

Lemma os_MkdirAll_failed p perm w e :
  (os_MkdirAll H p perm w).1 = Some e ->
  fs (os_MkdirAll H p perm w).2 = fs w.
Proof.
  unfold os_MkdirAll. rewrite bind_run, os_Stat_world.
  destruct (os_Stat H p w).1 as [[m d|m]|]; unmonad; try done.
  by destruct (io_fault H "mkdir" p _).
Qed.

Lemma os_OpenFile_failed p trunc perm w e :
  (os_OpenFile H p trunc perm w).1 = Some e ->
  fs (os_OpenFile H p trunc perm w).2 = fs w.
Proof.
  unfold os_OpenFile. rewrite bind_run, os_Stat_world.
  destruct (os_Stat H p w).1 as [[m d|m]|]; unmonad; try done;
    by destruct (io_fault H "openfile" p _).
Qed.

(** Whether it succeeds or fails, a copy keeps the mode of the file it
    writes to. *)
Lemma io_Copy_file_mode src dst w md old :
  fs w !! dst = Some (File md old) ->
  exists d, fs (io_Copy_file H src dst w).2 !! dst = Some (File md d).
Proof.
  intros Hdst. unfold io_Copy_file, io_Copy. rewrite bind_run, os_Stat_world.
  destruct (os_Stat H src w).1 as [[ms data|ms]|]; unmonad; [|by eauto..].
  destruct (io_fault H "copy" dst _); unmonad; [by eauto|].
  rewrite Hdst, lookup_insert_eq. eauto.
Qed.

Lemma io_Copy_file_keeps src dst w p :
  p <> dst ->
  fs (io_Copy_file H src dst w).2 !! p = fs w !! p
  /\ clock (io_Copy_file H src dst w).2 = clock w.
Proof.
  intros Hne. unfold io_Copy_file, io_Copy. rewrite bind_run, os_Stat_world.
  destruct (os_Stat H src w).1 as [[ms data|ms]|]; unmonad; [|done..].
  destruct (io_fault H "copy" dst _); unmonad; [done|].
  destruct (fs w !! dst) as [[md old|md]|]; [|done..].
  by rewrite lookup_insert_ne.
Qed.

(** A call that finds no destination and leaves one has created it, in the
    cache directory, with the mode of a new file. *)
Lemma extract_binary_created dest src nf cf w :
  dest <> BundledBinaryDir H ->
  result (os_Stat H dest) w = None ->
  let w1 := after (extract_binary H dest src nf cf) w in
  is_Some (fs w1 !! dest) ->
  (exists m, result (os_Stat H (BundledBinaryDir H)) w1 = Some (Dir m))
  /\ exists d, result (os_Stat H dest) w1 = Some (File (created_mode H 493) d).
Proof.
  intros Hne Hdest. cbn zeta.
  assert (Habs : fs w !! dest = None).
  { revert Hdest. unfold result. rewrite os_Stat_run. cbn [fst].
    by destruct (fs w !! dest). }
  unfold result, after, extract_binary.
  destruct (os_MkdirAll H (BundledBinaryDir H) 493 w).1 eqn:Emk.
  { erewrite or_return_err by done. cbn [snd].
    rewrite (os_MkdirAll_failed _ _ _ _ Emk), Habs. by intros [? ?]. }
  rewrite or_return_ok by done.
  destruct (os_MkdirAll_ok _ _ _ _ Emk) as ([m Hdir] & Hclk & Hw).
  set (wa := (os_MkdirAll H (BundledBinaryDir H) 493 w).2) in *.
  assert (Hdest_a : result (os_Stat H dest) wa = None).
  { revert Hdest. unfold result, os_Stat. cbn. rewrite Hclk.
    destruct Hw as [->|[-> _]]; [done|]. by rewrite lookup_insert_ne. }
  assert (Habs_a : fs wa !! dest = None).
  { revert Hdest_a. unfold result. rewrite os_Stat_run. cbn [fst].
    by destruct (fs wa !! dest). }
  rewrite bind_run, os_Stat_world. unfold result in Hdest_a.
  rewrite Hdest_a.
  destruct (os_Executable H) as [e|executablePath];
    [unmonad; rewrite Habs_a; by intros [? ?]|].
  rewrite bind_run, os_Stat_world.
  destruct (os_Stat H (src (filepath_Dir H executablePath)) wa).1 as [srcnode|] eqn:Esrc;
    [|unmonad; rewrite Habs_a; by intros [? ?]].
  rewrite bind_run.
  destruct (os_Open_world H (src (filepath_Dir H executablePath)) wa)
    as (Hfs_b & Hclk_b & _ & _).
  set (wb := (os_Open H (src (filepath_Dir H executablePath)) wa).2) in *.
  destruct (os_Open H _ wa).1 as [e|sourceFile];
    [unmonad; rewrite Hfs_b, Habs_a; by intros [? ?]|].
  assert (Hdest_b : result (os_Stat H dest) wb = None).
  { unfold result. rewrite os_Stat_run. cbn [fst]. rewrite Hfs_b, Hclk_b.
    by rewrite os_Stat_run in Hdest_a. }
  destruct (os_OpenFile H dest false 493 wb).1 eqn:Eopen.
  { erewrite or_return_err by done. cbn [snd].
    rewrite (os_OpenFile_failed _ _ _ _ _ Eopen), Hfs_b, Habs_a. by intros [? ?]. }
  rewrite or_return_ok by done.
  destruct (os_OpenFile_new H _ _ _ Hdest_b Eopen) as (Hfs_c & Hclk_c & _).
  set (wc := (os_OpenFile H dest false 493 wb).2) in *.
  intros _.
  destruct (io_Copy_file_mode sourceFile dest wc (created_mode H 493) ""
              ltac:(rewrite Hfs_c; apply lookup_insert_eq)) as [d Hd].
  destruct (io_Copy_file_keeps sourceFile dest wc (BundledBinaryDir H)
              ltac:(done)) as [Hdir_d Hclk_d].
  set (wd := (io_Copy_file H sourceFile dest wc).2) in *.
  assert (Hend : forall (k : M error) wrap,
            (forall w0, (k w0).2 = w0) ->
            (or_return (io_Copy_file H sourceFile dest) wrap k wc).2 = wd).
  { intros k wrap Hk. unfold or_return. rewrite bind_run. fold wd.
    destruct (io_Copy_file H sourceFile dest wc).1; [done|apply Hk]. }
  rewrite Hend by done.
  split.
  - exists m. revert Hdir. unfold result. rewrite !os_Stat_run. cbn [fst].
    rewrite Hdir_d, Hclk_d, Hfs_c, Hclk_c, Hfs_b, Hclk_b.
    by rewrite lookup_insert_ne.
  - exists d. unfold result. rewrite os_Stat_run. cbn [fst]. by rewrite Hd.
Qed.

End failed_copy_facts.

(** X27.  The guard of the extractors looks at the mode of the destination,
    not at its bytes or at how the last call ended.  When a call for
    containerd, runc or HyperKit finds no destination, returns an error and
    leaves a file there (it opened the destination and the copy failed), and
    a new file shows an executable bit, the next call returns [nil] and
    changes nothing, and the path lookup returns that file. *)
Theorem EnsureExtracted_takes_a_failed_copy_for_done
    (H : Host) (c : BundledBinary) (w : World) (e : string) :
  destination H c <> BundledBinaryDir H ->
  result (os_Stat H (destination H c)) w = None ->
  result (EnsureExtracted H c) w = Some e ->
  let w1 := after (EnsureExtracted H c) w in
  is_Some (fs w1 !! destination H c) ->
  executable_bit H (File (created_mode H 493) "") = true ->
  EnsureExtracted H c w1 = (None, w1)
  /\ GetPath H c w1 = (destination H c, w1).
Proof.
  destruct (EnsureExtracted_source H c) as (nf & cf & ->).
  destruct (GetPath_shape H c) as [name ->].
  intros Hne Hdest _ w1 Hthere Hmode.
  destruct (extract_binary_created H _ _ nf cf w Hne Hdest Hthere)
    as ([m Hdir] & [d Hfile]).
  fold w1 in Hdir, Hfile. split.
  - eapply extract_binary_noop; [exact Hdir | exact Hfile | exact Hmode].
  - unfold bundled_or_PATH. rewrite bind_run, os_Stat_world.
    unfold result in Hfile. by rewrite Hfile.
Qed.

(** [EnsureExtracted_takes_a_failed_copy_for_done] for runc when the
    bundled source is a directory: the copy cannot read it, and the empty
    file the call leaves is taken for runc from then on. *)
Lemma EnsureExtracted_takes_a_failed_copy_for_done_witness :
  let H := Examples.linux in
  let w1 := after (EnsureExtracted H Runc) Scenarios.directory_for_runc in
  result (EnsureExtracted H Runc) Scenarios.directory_for_runc
  = Some "failed to copy runc binary: read /home/u/app/binaries/linux/runc: is a directory"
  /\ fs w1 !! destination H Runc = Some (File 493 "")
  /\ EnsureExtracted H Runc w1 = (None, w1)
  /\ GetPath H Runc w1 = ("/home/u/.config/funserver/bin/runc", w1).
Proof.
  cbn zeta. split; [vm_compute; reflexivity|]. split; [vm_compute; reflexivity|].
  apply (EnsureExtracted_takes_a_failed_copy_for_done Examples.linux Runc
           Scenarios.directory_for_runc
           "failed to copy runc binary: read /home/u/app/binaries/linux/runc: is a directory").
  - vm_compute. discriminate.
  - vm_compute. reflexivity.
  - vm_compute. reflexivity.
  - vm_compute. eauto.
  - vm_compute. reflexivity.
Defined.

Section linuxkit_facts.
Context (H : Host).

Lemma fileExists_run p w :
  fileExists H p w
  = (match result (os_Stat H p) w with
     | None => false
     | Some nd => negb (node_IsDir nd)
     end, w).
Proof. reflexivity. Qed.

Lemma fileExists_insert p q m d w w' :
  result (fileExists H p) w = true ->
  fs w' = <[q := File m d]> (fs w) -> clock w' = clock w ->
  result (fileExists H p) w' = true.
Proof.
  unfold result. rewrite !fileExists_run. cbn [fst]. unfold result.
  rewrite !os_Stat_run. cbn [fst]. intros Hp Hfs Hclk. rewrite Hfs, Hclk.
  destruct (decide (p = q)) as [->|Hne].
  - by rewrite lookup_insert_eq.
  - by rewrite lookup_insert_ne.
Qed.

Lemma fileExists_at_insert p m d w' (m0 : gmap string Node) :
  fs w' = <[p := File m d]> m0 -> result (fileExists H p) w' = true.
Proof.
  intros Hfs. unfold result. rewrite fileExists_run. cbn [fst]. unfold result.
  rewrite os_Stat_run. cbn [fst]. by rewrite Hfs, lookup_insert_eq.
Qed.

Lemma copyFile_ok src dst w :
  (copyFile H src dst w).1 = None ->
  let w' := (copyFile H src dst w).2 in
  clock w' = clock w
  /\ exists ms data m,
       result (os_Stat H src) w = Some (File ms data)
       /\ fs w' = <[dst := File m (if decide (src = dst) then "" else data)]>
                    (fs w)
       /\ match result (os_Stat H dst) w with
          | Some nd' => m = node_mode nd'
          | None => m = created_mode H 438
          end.
Proof.
  unfold copyFile. rewrite bind_run.
  destruct (os_Open_world H src w) as (Hfs_a & Hclk_a & _ & _).
  pose proof (os_Open_ok H src w) as Hopen.
  set (wa := (os_Open H src w).2) in *.
  destruct (os_Open H src w).1 as [e|sourceFile]; [unmonad; done|].
  destruct (Hopen sourceFile eq_refl) as [-> [srcnode Hsrc]].
  destruct (os_OpenFile H dst true 438 wa).1 eqn:Eopen;
    [by erewrite or_return_err|].
  rewrite or_return_ok by done.
  destruct (os_OpenFile_ok H dst true 438 wa Eopen) as (Hclk & _ & Hfs).
  set (wb := (os_OpenFile H dst true 438 wa).2) in *.
  assert (Hst : result (os_Stat H dst) wa = result (os_Stat H dst) w).
  { unfold result, os_Stat. cbn. by rewrite Hfs_a, Hclk_a. }
  rewrite Hst in Hfs. rewrite Hfs_a in Hfs.
  intros Ecopy. cbn zeta.
  destruct (io_Copy_file_run H _ _ _ Ecopy) as (ms & data & Hsrc_b & Hrun).
  rewrite Hrun in *. unfold result in Hsrc_b, Hsrc.
  assert (Hread : exists ms0 data0,
             (os_Stat H src w).1 = Some (File ms0 data0)
             /\ data = if decide (src = dst) then "" else data0).
  { destruct (decide (src = dst)) as [->|Hne].
    - unfold result in Hfs. rewrite Hsrc in Hfs.
      destruct srcnode as [m0 d0|m0]; [|done].
      exists m0, d0. split; [done|].
      revert Hsrc_b. rewrite os_Stat_run. cbn [fst].
      rewrite Hfs, lookup_insert_eq. by intros [= _ <-].
    - exists ms, data. split; [|done]. rewrite <- Hsrc_b. symmetry.
      destruct (result (os_Stat H dst) w) as [[m d|m]|]; [|done|];
        eapply os_Stat_insert_ne; eauto; congruence. }
  destruct Hread as (ms0 & data0 & Hsrc_w & ->).
  destruct (result (os_Stat H dst) w) as [[m d|m]|]; [|done|].
  - destruct (io_Copy_ok H src dst _ wb m ""
                ltac:(rewrite Hfs; apply lookup_insert_eq) Ecopy)
      as (Hfs' & Hclk' & _).
    split; [congruence|]. exists ms0, data0, m. split; [done|].
    by rewrite Hfs', Hfs, insert_insert_eq, overwrite_empty.
  - destruct (io_Copy_ok H src dst _ wb (created_mode H 438) ""
                ltac:(rewrite Hfs; apply lookup_insert_eq) Ecopy)
      as (Hfs' & Hclk' & _).
    split; [congruence|]. exists ms0, data0, (created_mode H 438). split; [done|].
    by rewrite Hfs', Hfs, insert_insert_eq, overwrite_empty.
Qed.

Lemma os_Chmod_file path mode w m d :
  fs w !! path = Some (File m d) ->
  (os_Chmod H path mode w).1 = None ->
  clock (os_Chmod H path mode w).2 = clock w
  /\ fs (os_Chmod H path mode w).2 = <[path := File mode d]> (fs w).
Proof.
  intros Hp. unfold os_Chmod. rewrite bind_run, os_Stat_run. cbn [fst snd].
  rewrite Hp. unmonad. destruct (io_fault H "chmod" path _); done.
Qed.

(** A copy followed, for the kernel, by a change of mode leaves a file at the
    destination. *)
Lemma copy_leaves_a_file src dst w :
  (copyFile H src dst w).1 = None ->
  exists m d, fs (copyFile H src dst w).2 = <[dst := File m d]> (fs w)
              /\ clock (copyFile H src dst w).2 = clock w.
Proof.
  intros Hok.
  destruct (copyFile_ok src dst w Hok) as (Hclk & ms & data & m & _ & Hfs & _).
  eauto.
Qed.

Lemma or_return_inv (c : M error) (wrap : string -> error) (k : M error) w w' :
  (forall e, wrap e <> None) ->
  or_return c wrap k w = (None, w') ->
  (c w).1 = None /\ k (c w).2 = (None, w').
Proof.
  intros Hwrap. unfold or_return. rewrite bind_run.
  destruct (c w).1 as [e|]; [|done].
  unmonad. intros [= He _]. by destruct (Hwrap e).
Qed.

(** The step [if fileExists(src) { copyFile(src, dst) ... } else { return
    error }] of [EnsureLinuxKitComponents]. *)
Lemma copy_if_present src dst (wrap : string -> error) (k : M error) msg w w' :
  (forall e, wrap e <> None) ->
  (present ← fileExists H src;
   if (present : bool) then or_return (copyFile H src dst) wrap k
   else mret (Some msg)) w = (None, w') ->
  exists m d wk,
    fs wk = <[dst := File m d]> (fs w) /\ clock wk = clock w
    /\ k wk = (None, w').
Proof.
  intros Hwrap. rewrite bind_run, fileExists_run. cbn [fst snd].
  destruct (match result (os_Stat H src) w with
            | Some nd => negb (node_IsDir nd) | None => false end);
    [|unmonad; done].
  intros Hrun. apply or_return_inv in Hrun as [Hcp Hk]; [|done].
  destruct (copy_leaves_a_file src dst w Hcp) as (m & d & Hfs & Hclk).
  eauto 10.
Qed.

Lemma EnsureLinuxKitComponents_ok w w1 :
  IsRunningOnMacOS H = true ->
  EnsureLinuxKitComponents H w = (None, w1) ->
  result (fileExists H (lk_KernelPath (DefaultLinuxKitConfig H))) w1 = true
  /\ result (fileExists H (lk_InitrdPath (DefaultLinuxKitConfig H))) w1 = true.
Proof.
  intros Hmac. unfold EnsureLinuxKitComponents.
  rewrite Hmac. cbn [negb]. rewrite !bind_run.
  match goal with
  | |- context [(?pre ?w0).2] =>
      match pre with
      | (if _ then _ else _) => destruct (pre w0) as [[e|] wp]
      end
  end; cbn [fst snd]; [unmonad; done|].
  cbv zeta. cbn [lk_KernelPath lk_InitrdPath DefaultLinuxKitConfig].
  set (dir := filepath_Join H [home_dir H; ".fun"; "linuxkit"]).
  set (kernel := filepath_Join H [dir; "kernel"]).
  set (initrd := filepath_Join H [dir; "initrd.img"]).
  intros Hrun. apply or_return_inv in Hrun as [Emk Hrun]; [|done].
  set (wm := (os_MkdirAll H dir 493 wp).2) in *.
  rewrite !bind_run in Hrun. rewrite !fileExists_run in Hrun.
  cbn [fst snd] in Hrun.
  pose proof (fileExists_run kernel wm) as Hk.
  pose proof (fileExists_run initrd wm) as Hi.
  destruct (match result (os_Stat H kernel) wm with
            | Some nd => negb (node_IsDir nd) | None => false end) eqn:Ek;
    destruct (match result (os_Stat H initrd) wm with
              | Some nd => negb (node_IsDir nd) | None => false end) eqn:Ei;
    cbn [andb negb] in Hrun.
  - revert Hrun. unmonad. intros [= <-]. unfold result. by rewrite Hk, Hi.
  - destruct (os_Executable H) as [e|exe]; [revert Hrun; unmonad; done|].
    apply copy_if_present in Hrun as (m & d & wk & Hfs & Hclk & Hrun); [|done].
    revert Hrun. unmonad. intros [= <-]. split.
    + eapply fileExists_insert; [|exact Hfs|exact Hclk]. unfold result. by rewrite Hk.
    + by eapply fileExists_at_insert.
  - destruct (os_Executable H) as [e|exe]; [revert Hrun; unmonad; done|].
    apply copy_if_present in Hrun as (m & d & wk & Hfs & Hclk & Hrun); [|done].
    apply or_return_inv in Hrun as [Ech Hrun]; [|done].
    destruct (os_Chmod_file kernel 493 wk m d
                ltac:(rewrite Hfs; apply lookup_insert_eq) Ech) as (Hclk' & Hfs').
    revert Hrun. unmonad. intros [= <-]. split.
    + by eapply fileExists_at_insert.
    + eapply fileExists_insert; [|exact Hfs'|exact Hclk'].
      eapply fileExists_insert; [|exact Hfs|exact Hclk].
      unfold result. by rewrite Hi.
  - destruct (os_Executable H) as [e|exe]; [revert Hrun; unmonad; done|].
    apply copy_if_present in Hrun as (m & d & wk & Hfs & Hclk & Hrun); [|done].
    apply or_return_inv in Hrun as [Ech Hrun]; [|done].
    destruct (os_Chmod_file kernel 493 wk m d
                ltac:(rewrite Hfs; apply lookup_insert_eq) Ech) as (Hclk' & Hfs').
    apply copy_if_present in Hrun as (m2 & d2 & wi & Hfs2 & Hclk2 & Hrun); [|done].
    revert Hrun. unmonad. intros [= <-]. split.
    + eapply fileExists_insert; [|exact Hfs2|exact Hclk2].
      by eapply fileExists_at_insert.
    + by eapply fileExists_at_insert.
Qed.

End linuxkit_facts.

(** X11.  On macOS, when [EnsureLinuxKitComponents] returns [nil] the
    kernel and the initrd of the default LinuxKit configuration both exist as
    files, whichever of them had to be copied. *)
Theorem EnsureLinuxKitComponents_leaves_kernel_and_initrd
    (H : Host) (w : World) :
  IsRunningOnMacOS H = true ->
  result (EnsureLinuxKitComponents H) w = None ->
  let w1 := after (EnsureLinuxKitComponents H) w in
  result (fileExists H (lk_KernelPath (DefaultLinuxKitConfig H))) w1 = true
  /\ result (fileExists H (lk_InitrdPath (DefaultLinuxKitConfig H))) w1 = true.
Proof.
  intros Hmac Hok. cbn zeta. unfold after. unfold result in Hok.
  apply (EnsureLinuxKitComponents_ok H w); [exact Hmac|].
  destruct (EnsureLinuxKitComponents H w) as [r w1]. cbn in *. by subst r.
Qed.

(** [EnsureLinuxKitComponents_leaves_kernel_and_initrd] on a macOS host
    with the bundled files and nothing installed. *)
Lemma EnsureLinuxKitComponents_leaves_kernel_and_initrd_witness :
  let w1 := after (EnsureLinuxKitComponents Scenarios.mac) Scenarios.bundled_linuxkit in
  result (fileExists Scenarios.mac "/Users/u/.fun/linuxkit/kernel") Scenarios.bundled_linuxkit = false
  /\ result (fileExists Scenarios.mac "/Users/u/.fun/linuxkit/kernel") w1 = true
  /\ result (fileExists Scenarios.mac "/Users/u/.fun/linuxkit/initrd.img") w1 = true.
Proof.
  cbn zeta. split; [vm_compute; reflexivity|].
  apply (EnsureLinuxKitComponents_leaves_kernel_and_initrd Scenarios.mac Scenarios.bundled_linuxkit);
    vm_compute; reflexivity.
Defined.

Section write_facts.
Context (H : Host).

Lemma os_WriteFile_ok path data perm w :
  (os_WriteFile H path data perm w).1 = None ->
  let w' := (os_WriteFile H path data perm w).2 in
  clock w' = clock w
  /\ exists m, fs w' = <[path := File m data]> (fs w)
               /\ match result (os_Stat H path) w with
                  | Some nd => m = node_mode nd
                  | None => m = created_mode H perm
                  end.
Proof.
  unfold os_WriteFile.
  destruct (os_OpenFile H path true perm w).1 eqn:Eopen;
    [by erewrite or_return_err|].
  rewrite or_return_ok by done.
  destruct (os_OpenFile_ok H path true perm w Eopen) as (Hclk & _ & Hfs).
  set (wa := (os_OpenFile H path true perm w).2) in *.
  intros Ecopy. cbn zeta.
  destruct (result (os_Stat H path) w) as [[m d|m]|]; [|done|].
  - destruct (io_Copy_ok H "" path data wa m ""
                ltac:(rewrite Hfs; apply lookup_insert_eq) Ecopy)
      as (Hfs' & Hclk' & _).
    split; [congruence|]. exists m.
    by rewrite Hfs', Hfs, insert_insert_eq, overwrite_empty.
  - destruct (io_Copy_ok H "" path data wa (created_mode H perm) ""
                ltac:(rewrite Hfs; apply lookup_insert_eq) Ecopy)
      as (Hfs' & Hclk' & _).
    split; [congruence|]. exists (created_mode H perm).
    by rewrite Hfs', Hfs, insert_insert_eq, overwrite_empty.
Qed.

End write_facts.

(** X10.  [copyFile] truncates.  When the source is a file other than the
    destination, a successful copy leaves exactly the bytes of the source at
    the destination, whatever was there, and changes no other file. *)
Theorem copyFile_replaces_the_destination
    (H : Host) (src dst : string) (w : World) (ms : Z) (data : string) :
  src <> dst ->
  fs w !! src = Some (File ms data) ->
  result (copyFile H src dst) w = None ->
  let w1 := after (copyFile H src dst) w in
  (exists m, fs w1 !! dst = Some (File m data))
  /\ fs w1 !! src = Some (File ms data)
  /\ (forall p, p <> dst -> fs w1 !! p = fs w !! p).
Proof.
  intros Hne Hsrc Hok. cbn zeta. unfold result, after in *.
  destruct (copyFile_ok H src dst w Hok) as (_ & ms' & data' & m & Hnd & Hfs & _).
  unfold result in Hnd. rewrite os_Stat_run in Hnd. cbn [fst] in Hnd.
  rewrite Hsrc in Hnd. injection Hnd as <- <-.
  rewrite Hfs, decide_False by done. split; [exists m; apply lookup_insert_eq|].
  split; [by rewrite lookup_insert_ne|].
  intros p Hp. by rewrite lookup_insert_ne.
Qed.

(** [copyFile_replaces_the_destination] over a longer file. *)
Lemma copyFile_replaces_the_destination_witness :
  (exists m, fs (after (copyFile Examples.linux "/src/kernel" "/dst/kernel")
                       Scenarios.old_kernel) !! "/dst/kernel"
             = Some (File m "KERNEL-2"))
  /\ fs Scenarios.old_kernel !! "/dst/kernel"
     = Some (File 384 "KERNEL-1-WITH-SYMBOLS").
Proof.
  split; [|vm_compute; reflexivity].
  apply (copyFile_replaces_the_destination Examples.linux
           "/src/kernel" "/dst/kernel" Scenarios.old_kernel 420 "KERNEL-2"
           ltac:(discriminate) ltac:(vm_compute; reflexivity)
           ltac:(vm_compute; reflexivity)).
Defined.

(** X28.  [copyFile] opens the destination, which truncates it, before it
    reads the source: a successful copy of a file onto itself leaves the file
    empty, with the mode it had. *)
Theorem copyFile_onto_itself_empties_the_file
    (H : Host) (p : string) (w : World) (m : Z) (d : string) :
  fs w !! p = Some (File m d) ->
  result (copyFile H p p) w = None ->
  fs (after (copyFile H p p) w) !! p = Some (File m "").
Proof.
  intros Hp Hok. unfold result, after in *.
  destruct (copyFile_ok H p p w Hok) as (_ & ms & data & m' & _ & Hfs & Hm).
  unfold result in Hm. rewrite os_Stat_run in Hm. cbn [fst] in Hm.
  rewrite Hp in Hm. cbn in Hm. subst m'.
  by rewrite Hfs, decide_True, lookup_insert_eq.
Qed.

(** [copyFile_onto_itself_empties_the_file] on a kernel image. *)
Lemma copyFile_onto_itself_empties_the_file_witness :
  fs (after (copyFile Examples.linux "/dst/kernel" "/dst/kernel")
            Scenarios.old_kernel) !! "/dst/kernel"
  = Some (File 384 "")
  /\ fs Scenarios.old_kernel !! "/dst/kernel"
     = Some (File 384 "KERNEL-1-WITH-SYMBOLS").
Proof.
  split; [|vm_compute; reflexivity].
  apply (copyFile_onto_itself_empties_the_file Examples.linux "/dst/kernel"
           Scenarios.old_kernel 384 "KERNEL-1-WITH-SYMBOLS");
    vm_compute; reflexivity.
Defined.

(** X12.  [configureWSL2Distribution] replaces the user's [.wslconfig]:
    after a successful call the file holds the generated [[wsl2]] section and
    nothing else, whatever it held before. *)
Theorem configureWSL2Distribution_replaces_wslconfig
    (H : Host) (config : WSL2Config) (w : World) :
  result (configureWSL2Distribution H config) w = None ->
  let w1 := after (configureWSL2Distribution H config) w in
  let section :=
    nl +:+ "[wsl2]" +:+ nl
    +:+ "memory=" +:+ pretty (wsl_Memory config) +:+ "MB" +:+ nl
    +:+ "processors=" +:+ pretty (wsl_CPUs config) +:+ nl
    +:+ "swap=" +:+ pretty (wsl_Swap config) +:+ "MB" +:+ nl in
  exists m,
    fs w1 !! wslConfigPath H
    = Some (File m (if String.eqb (wsl_Kernel config) "" then section
                    else section +:+ "kernel=" +:+ wsl_Kernel config +:+ nl)).
Proof.
  unfold result, after, configureWSL2Distribution. cbn zeta.
  match goal with
  | |- context [os_WriteFile H ?p ?d ?perm] =>
      set (content := d);
      destruct (os_WriteFile H p content perm w).1 eqn:Ewrite;
      [by erewrite or_return_err|];
      rewrite or_return_ok by done;
      destruct (os_WriteFile_ok H p content perm w Ewrite) as (_ & m & Hfs & _);
      set (wa := (os_WriteFile H p content perm w).2) in *
  end.
  destruct (os_MkdirAll H (wsl_MountDir config) 493 wa).1 eqn:Emk;
    [by erewrite or_return_err|].
  rewrite or_return_ok by done. intros _.
  destruct (os_MkdirAll_keeps H (wsl_MountDir config) 493 wa (wslConfigPath H)
              (File m content) Emk) as [Hkeep _].
  { unfold wslConfigPath. rewrite Hfs. apply lookup_insert_eq. }
  exists m. unfold mret, M_ret. cbn [snd]. rewrite Hkeep. subst content.
  by destruct (String.eqb (wsl_Kernel config) "").
Qed.

(** [configureWSL2Distribution_replaces_wslconfig] on a Windows host whose
    user had settings of their own. *)
Lemma configureWSL2Distribution_replaces_wslconfig_witness :
  let H := Examples.windows_wsl in
  exists m,
    fs (after (configureWSL2Distribution H (DefaultWSL2Config H))
              Scenarios.own_wslconfig)
      !! "C:\Users\u\.wslconfig"
    = Some (File m (nl +:+ "[wsl2]" +:+ nl +:+ "memory=4096MB" +:+ nl
                    +:+ "processors=2" +:+ nl +:+ "swap=2048MB" +:+ nl)).
Proof.
  cbn zeta.
  destruct (configureWSL2Distribution_replaces_wslconfig Examples.windows_wsl
              (DefaultWSL2Config Examples.windows_wsl)
              Scenarios.own_wslconfig
              ltac:(vm_compute; reflexivity)) as [m Hm].
  exists m. etransitivity; [exact Hm|]. vm_compute. reflexivity.
Defined.

Section manager_start_facts.
Context (H : Host).

Lemma startClient_outcome ctx m w :
  client m = None ->
  let r := Manager.startClient H ctx m w in
  let runAs := RunAs (mgr_config m) in
  match r.1.1 with
  | Panicked => False
  | Returned None =>
      server r.1.2 = server m
      /\ mgr_config r.1.2 = mgr_config m
      /\ (is_Some (client r.1.2) <-> runAs = "client" \/ runAs = "both")
  | Returned (Some _) =>
      client r.1.2 = None
      /\ (server r.1.2 = None \/ (runAs = "client" /\ server r.1.2 = server m))
  end.
Proof.
  intros Hc. cbn zeta. unfold Manager.startClient.
  assert (Htail : forall w0 : World,
    (RunAs (mgr_config m) = "client" \/ RunAs (mgr_config m) = "both") ->
    let r := (c ← NewClient H (ClientSocket (mgr_config m))
                           (Namespace (mgr_config m));
              match c with
              | inl e =>
                  let failed := Returned (Some (errors_Wrap e
                                  "failed to create containerd client")) in
                  match server m with
                  | Some sv =>
                      '(o, _) ← Server.Stop H ctx sv;
                      match o with
                      | Panicked => mret (Panicked, m)
                      | Returned _ => mret (failed, set_server None m)
                      end
                  | None => mret (failed, m)
                  end
              | inr c => mret (Returned None, set_client (Some c) m)
              end) w0 in
    match r.1.1 with
    | Panicked => False
    | Returned None =>
        server r.1.2 = server m
        /\ mgr_config r.1.2 = mgr_config m
        /\ (is_Some (client r.1.2) <->
            RunAs (mgr_config m) = "client" \/ RunAs (mgr_config m) = "both")
    | Returned (Some _) =>
        client r.1.2 = None
        /\ (server r.1.2 = None
            \/ (RunAs (mgr_config m) = "client" /\ server r.1.2 = server m))
    end).
  { intros w0 Hmode. cbn zeta. rewrite bind_run.
    destruct (NewClient H _ _ w0) as [[e|c] wb]; cbn [fst snd].
    2:{ unmonad. cbn. split; [done|]. split; [done|]. split; eauto. }
    destruct (server m) as [sv|] eqn:Hsv; [|unmonad; cbn; auto].
    rewrite bind_run.
    destruct (Stop_never_panics H ctx sv wb) as [e' He'].
    destruct (Server.Stop H ctx sv wb) as [[o sv'] ws].
    cbn [fst snd] in *. subst o. unmonad. cbn. auto. }
  destruct (String.eqb (RunAs (mgr_config m)) "client") eqn:Ecl;
    destruct (String.eqb (RunAs (mgr_config m)) "both") eqn:Eb; cbn [orb].
  4:{ unmonad. rewrite Hc. apply String.eqb_neq in Ecl, Eb.
      split; [done|]. split; [done|]. split; [by intros [? ?]|]. tauto. }
  - apply String.eqb_eq in Ecl, Eb. congruence.
  - apply String.eqb_eq in Ecl. rewrite bind_run.
    destruct (CheckContainerdRunning H _ w) as [[|] wa]; cbn [fst snd negb].
    + apply Htail. auto.
    + unmonad. auto.
  - apply String.eqb_eq in Eb. rewrite bind_run. unmonad. cbn [negb].
    apply (Htail w). auto.
Qed.

End manager_start_facts.

(** X14.  [Manager.Start] on a manager fresh from [NewManager], in every
    run mode: off macOS it never panics (on macOS [Start] and [Stop] go
    through [fileExists], which panics when [os.Stat] fails with an error
    other than not-exist); when it returns [nil], the manager holds a server
    exactly when it uses the embedded server, that server is running, and it
    holds a client exactly in the modes [client] and [both]; when it returns
    an error, it holds neither a server nor a client. *)
Theorem Manager_Start_outcome
    (H : Host) (ctx : Context) (config : ManagerConfig) (w : World) :
  let m := Manager.NewManager config in
  let r := Manager.Start H ctx m w in
  let runAs := RunAs (mgr_config m) in
  (IsRunningOnMacOS H = false -> r.1.1 <> Panicked)
  /\ match r.1.1 with
     | Panicked => True
     | Returned None =>
         (is_Some (Manager.GetServer r.1.2)
          <-> Manager.IsUsingEmbeddedServer m = true)
         /\ Manager.IsServerRunning r.1.2 = Manager.IsUsingEmbeddedServer m
         /\ (is_Some (Manager.GetClient r.1.2)
             <-> runAs = "client" \/ runAs = "both")
     | Returned (Some _) =>
         Manager.GetServer r.1.2 = None /\ Manager.GetClient r.1.2 = None
     end.
Proof.
  cbn zeta.
  enough (Hall : match (Manager.Start H ctx (Manager.NewManager config) w).1.1 with
                 | Panicked => False
                 | Returned None =>
                     (is_Some (Manager.GetServer
                                 (Manager.Start H ctx (Manager.NewManager config) w).1.2)
                      <-> Manager.IsUsingEmbeddedServer (Manager.NewManager config) = true)
                     /\ Manager.IsServerRunning
                          (Manager.Start H ctx (Manager.NewManager config) w).1.2
                        = Manager.IsUsingEmbeddedServer (Manager.NewManager config)
                     /\ (is_Some (Manager.GetClient
                                    (Manager.Start H ctx (Manager.NewManager config) w).1.2)
                         <-> RunAs (mgr_config (Manager.NewManager config)) = "client"
                             \/ RunAs (mgr_config (Manager.NewManager config)) = "both")
                 | Returned (Some _) =>
                     Manager.GetServer
                       (Manager.Start H ctx (Manager.NewManager config) w).1.2 = None
                     /\ Manager.GetClient
                          (Manager.Start H ctx (Manager.NewManager config) w).1.2 = None
                 end).
  { destruct (Manager.Start H ctx (Manager.NewManager config) w).1.1 as [[e|]|];
      [split; [done|exact Hall] .. | done]. }
  unfold Manager.Start, Manager.GetServer, Manager.GetClient,
    Manager.IsUsingEmbeddedServer, Manager.IsServerRunning.
  set (m := Manager.NewManager config).
  assert (Hs : server m = None) by reflexivity.
  assert (Hc : client m = None) by reflexivity.
  assert (He : useEmbedded m
               = (String.eqb (RunAs (mgr_config m)) "server"
                  || String.eqb (RunAs (mgr_config m)) "both")%bool)
    by reflexivity.
  rewrite He. clearbody m.
  destruct (String.eqb (RunAs (mgr_config m)) "server"
            || String.eqb (RunAs (mgr_config m)) "both")%bool eqn:Emb.
  2:{ pose proof (startClient_outcome H ctx m w Hc) as Ho. cbn zeta in Ho.
      destruct (Manager.startClient H ctx m w) as [[[[e|]|] m'] w'];
        cbn [fst snd] in *; [| |done].
      - destruct Ho as [? [?|[_ ?]]]; split; congruence.
      - destruct Ho as (Hsv & _ & Hcl). rewrite Hsv, Hs.
        split; [split; [by intros [? ?]|done]|]. split; [done|exact Hcl]. }
  rewrite bind_run.
  destruct (IsContainerdInstalled H w) as [[|] wa]; cbn [fst snd negb];
    [|unmonad; done].
  rewrite bind_run.
  pose proof (Start_success_backend H ctx
                (NewServer H (mc_ServerConfig (mgr_config m))) wa) as Hstart.
  destruct (Server.Start H ctx _ wa) as [[[e|] sv] wb]; cbn [fst snd];
    [unmonad; done|].
  destruct (Hstart sv wb eq_refl) as [Hrun _].
  match goal with
  | |- context [Manager.startClient H ctx ?m1 wb] =>
      pose proof (startClient_outcome H ctx m1 wb) as Ho;
      assert (Hsv1 : server m1 = Some sv)
        by (destruct (String.eqb (RunAs (mgr_config m)) "both"); reflexivity);
      assert (Hr1 : RunAs (mgr_config m1) = RunAs (mgr_config m))
        by (destruct (String.eqb (RunAs (mgr_config m)) "both"); reflexivity);
      assert (Hc1 : client m1 = None)
        by (destruct (String.eqb (RunAs (mgr_config m)) "both"); exact Hc);
      destruct (Manager.startClient H ctx m1 wb) as [[[[e|]|] m'] w']
  end; cbn [fst snd] in *; specialize (Ho Hc1); [| |done].
  - destruct Ho as [? [?|[Hcl ?]]]; [done|]. exfalso.
    rewrite Hr1 in Hcl. rewrite Hcl in Emb. done.
  - destruct Ho as (Hsv & _ & Hcl). rewrite Hsv, Hsv1, <- Hr1.
    split; [split; [done|eauto]|]. split; [exact Hrun|exact Hcl].
Qed.

(** X15.  In the mode [both], off Windows, a [Start] that returns [nil] has
    connected the client to the address of the server it started: the
    configured client socket is replaced by the server's address, and the last
    effect is the dial of that address. *)
Theorem Manager_both_mode_connects_to_its_server
    (H : Host) (ctx : Context) (config : ManagerConfig) (w : World) :
  IsRunningOnWindows H = false ->
  RunAs config = "both" ->
  let r := Manager.Start H ctx (Manager.NewManager config) w in
  r.1.1 = Returned None ->
  exists sv c,
    Manager.GetServer r.1.2 = Some sv
    /\ Manager.GetClient r.1.2 = Some c
    /\ cl_client c = Some (Server.GetSocketAddress sv)
    /\ ClientSocket (mgr_config r.1.2) = Server.GetSocketAddress sv
    /\ exists l, trace r.2 = (l ++ [EvDial (Server.GetSocketAddress sv)])%list.
Proof.
  intros Hwin Hboth. cbn zeta.
  unfold Manager.Start, Manager.NewManager, or_default. rewrite Hboth.
  cbn [String.eqb Ascii.eqb Bool.eqb orb andb RunAs mgr_config].
  rewrite bind_run.
  destruct (IsContainerdInstalled H w) as [[|] wa]; cbn [fst snd negb];
    [|unmonad; done].
  rewrite bind_run.
  destruct (Server.Start H ctx _ wa) as [[[e|] sv] wb]; cbn [fst snd];
    [unmonad; done|].
  unfold Manager.startClient, set_ClientSocket, set_server.
  cbn [String.eqb Ascii.eqb Bool.eqb orb andb RunAs mgr_config ClientSocket
       Namespace server client].
  unfold NewClient, containerd_New. rewrite Hwin. unmonad. cbn [negb].
  destruct (dial_result H (Server.GetSocketAddress sv) (steps wb)) as [e|];
    cbn [fst snd].
  - by destruct (Server.Stop H ctx sv _) as [[[?|] ?] ?].
  - intros _. exists sv. eexists. cbn. repeat split. eauto.
Qed.

(** [Manager_both_mode_connects_to_its_server] on the Linux host, with a
    client socket configured that is not the server's. *)
Lemma Manager_both_mode_connects_to_its_server_witness :
  let r := Manager.Start Examples.linux context_Background
             (Manager.NewManager Scenarios.embedded) Examples.empty_world in
  exists sv c,
    Manager.GetServer r.1.2 = Some sv
    /\ Manager.GetClient r.1.2 = Some c
    /\ cl_client c = Some (Server.GetSocketAddress sv)
    /\ ClientSocket (mgr_config r.1.2) = Server.GetSocketAddress sv
    /\ exists l, trace r.2 = (l ++ [EvDial (Server.GetSocketAddress sv)])%list.
Proof.
  cbn zeta.
  apply (Manager_both_mode_connects_to_its_server Examples.linux
           context_Background
           Scenarios.embedded Examples.empty_world);
    vm_compute; reflexivity.
Defined.

Section always_facts.
Context (H : Host).

Lemma always_ret {A} (P : A -> Prop) a : P a -> always P (mret a).
Proof. intros Ha w. exact Ha. Qed.

Lemma always_bind {A B} (P : B -> Prop) (c : M A) (f : A -> M B) :
  (forall a, always P (f a)) -> always P (c ≫= f).
Proof. intros Hf w. rewrite bind_run. apply Hf. Qed.

Lemma always_or_return {A} (P : A -> Prop) (c : M error) wrap (k : M A) :
  (forall e, P (wrap e)) -> always P k -> always P (or_return c wrap k).
Proof.
  intros Hw Hk. unfold or_return. apply always_bind.
  intros [e|]; [apply always_ret, Hw|exact Hk].
Qed.

End always_facts.

Ltac always_step :=
  lazymatch goal with
  | |- always _ (mret _) => apply always_ret
  | |- always _ (_ ≫= _) => apply always_bind; intros ?
  | |- always _ (or_return _ _ _) => apply always_or_return; [intros ?|]
  | |- always _ (match ?x with _ => _ end) => destruct x eqn:?
  | |- always _ (match ?x with _ => _ end _) => destruct x eqn:?
  | |- always _ (let _ := _ in _) => cbv zeta
  end.

Section args_facts.
Context (H : Host).

Lemma nativePrepare_prepared s : always (prepared s) (Server.nativePrepare H s).
Proof.
  unfold Server.nativePrepare. repeat always_step; try exact I.
  cbn [prepared]. split; [by apply String.eqb_neq|].
  unfold base_args.
  destruct (String.eqb (Config (config s)) "") eqn:Ecfg; cbn [negb];
    repeat match goal with
           | |- context [if ?b then _ else _] => destruct b
           end;
    rewrite <- ?app_assoc.
  all: eexists; split; [reflexivity|].
  all: intros Hcfg; try (by apply String.eqb_eq in Ecfg).
  all: rewrite ?app_assoc; first [by eexists | by exists []].
Qed.

End args_facts.

(** X4.  On a host that is neither macOS nor Windows, a [Start] that
    returns [nil] has spawned, as its last process event, the command the
    server holds: a non-empty path followed by [--root], [--state], [--address]
    and [--log-level] with the values of the configuration, then further
    arguments that end in [--config] and the configuration file whenever one
    is configured. *)
Theorem Start_passes_the_configuration_to_the_engine
    (H : Host) (ctx : Context) (s s' : Server) (w w' : World) :
  running s = false ->
  IsRunningOnMacOS H = false ->
  IsRunningOnWindows H = false ->
  Server.Start H ctx s w = (None, s', w') ->
  exists path rest pid,
    let args := (["--root"; Root (config s); "--state"; State (config s);
                  "--address"; Address (config s);
                  "--log-level"; LogLevel (config s)] ++ rest)%list in
    cmd s' = Some {| Path := path; Args := args; Process := Some pid |}
    /\ path <> ""
    /\ (Config (config s) <> "" ->
        exists pre, rest = (pre ++ ["--config"; Config (config s)])%list)
    /\ last (process_events (trace w')) = Some (EvSpawn pid (path :: args)).
Proof.
  intros Hr Hm Hw. rewrite (Start_is_nativeStart H ctx s w Hr Hm Hw).
  intros Hrun.
  pose proof (nativeStart_events H ctx s w) as Hev. cbn zeta in Hev.
  rewrite Hrun in Hev. cbn [fst snd] in Hev.
  destruct Hev as (_ & c & pid & Hc & Hp & _ & Hev).
  revert Hrun. unfold Server.nativeStart, Server.startNative. rewrite !bind_run.
  pose proof (nativePrepare_prepared H s w) as Hprep.
  destruct (Server.nativePrepare H s w) as [[e|[path args]] wa]; cbn [fst snd] in *.
  { unmonad. done. }
  destruct Hprep as (Hpath & rest & -> & Hcfg).
  pose proof (nativeSpawn_shape H ctx s path (base_args (config s) ++ rest) wa) as Hs.
  destruct (Server.nativeSpawn H ctx s path _ wa) as [[[e s2]|[s2 pid']] wb];
    cbn [fst snd Server.finish] in *.
  { unmonad. destruct Hs as [He _]. intros [= -> _ _]. done. }
  subst s2.
  match goal with
  | |- Server.awaitReady H ?sv pid' wb = _ -> _ =>
      destruct (awaitReady_shape H sv pid' wb) as [Hok|[e Herr]];
      destruct (Server.awaitReady H sv pid' wb) as [[e' s3] wc];
      cbn [fst snd] in *
  end.
  2:{ injection Herr as -> ->. done. }
  injection Hok as -> ->. intros [= <- <-].
  cbn in Hc. injection Hc as <-. cbn in Hp. injection Hp as <-.
  exists path, rest, pid'. cbn. split; [done|]. split; [done|]. split; [done|].
  rewrite Hev. apply last_snoc.
Qed.

(** [Start_passes_the_configuration_to_the_engine] on the Linux host with
    the default configuration. *)
Lemma Start_passes_the_configuration_to_the_engine_witness :
  let H := Examples.linux in
  exists path rest pid,
    cmd (Examples.boot H).1.2
    = Some {| Path := path;
              Args := (["--root"; "/home/u/.fun/containerd/root";
                        "--state"; "/home/u/.fun/containerd/state";
                        "--address"; "/home/u/.fun/containerd/containerd.sock";
                        "--log-level"; "info"] ++ rest)%list;
              Process := Some pid |}.
Proof.
  cbn zeta.
  destruct (Start_passes_the_configuration_to_the_engine Examples.linux
              context_Background
              (NewServer Examples.linux (DefaultServerConfig Examples.linux))
              (Examples.boot Examples.linux).1.2 Examples.empty_world
              (Examples.boot Examples.linux).2
              ltac:(vm_compute; reflexivity) ltac:(vm_compute; reflexivity)
              ltac:(vm_compute; reflexivity) ltac:(vm_compute; reflexivity))
    as (path & rest & pid & Hcmd & _).
  exists path, rest, pid. exact Hcmd.
Defined.

Section cni_facts.
Context (H : Host).

Lemma first_existing_spec paths w :
  first_existing H paths w
  = (match list_find (fun p => is_Some (result (os_Stat H p) w)) paths with
     | Some (_, p) => p
     | None => ""
     end, w).
Proof.
  induction paths as [|p paths IH]; [done|].
  cbn [first_existing list_find]. rewrite bind_run, os_Stat_world.
  unfold result. destruct (os_Stat H p w).1 as [nd|] eqn:Est.
  - rewrite decide_True by eauto. reflexivity.
  - rewrite decide_False by (by intros [? ?]). rewrite IH.
    by destruct (list_find _ paths) as [[i q]|].
Qed.

End cni_facts.

(** X13.  [GetCNIPath] leaves the world alone and returns either the empty
    string or a path that exists: one of the standard locations, or the cache
    directory, and that one only when it holds at least one entry. *)
Theorem GetCNIPath_returns_an_existing_directory_or_nothing
    (H : Host) (w : World) :
  let p := result (GetCNIPath H) w in
  after (GetCNIPath H) w = w
  /\ (p = ""
      \/ (is_Some (result (os_Stat H p) w)
          /\ (p ∈ standardPaths
              \/ (p = GetBundledCNIPath H
                  /\ exists e es,
                       result (os_ReadDir H (GetBundledCNIPath H)) w
                       = Some (e :: es))))).
Proof.
  cbn zeta. unfold result, after, GetCNIPath.
  rewrite !bind_run, os_Stat_world, os_ReadDir_world.
  assert (Hstd : let r := first_existing H standardPaths w in
                 r.2 = w
                 /\ (r.1 = "" \/ (is_Some (os_Stat H r.1 w).1 /\ r.1 ∈ standardPaths))).
  { cbn zeta. rewrite first_existing_spec. split; [done|]. cbn [fst].
    destruct (list_find _ standardPaths) as [[i q]|] eqn:Hfind; [|by left].
    apply list_find_Some in Hfind as (Hq & Hex & _). right.
    split; [exact Hex|]. by eapply list_elem_of_lookup_2. }
  cbn zeta in Hstd. destruct Hstd as [Hw Hstd].
  destruct (os_Stat H (GetBundledCNIPath H) w).1 as [nd|] eqn:Est.
  2:{ split; [done|]. destruct Hstd as [?|[? ?]]; auto. }
  destruct (os_ReadDir H (GetBundledCNIPath H) w).1 as [[|e es]|] eqn:Erd.
  1,3: split; [done|]; destruct Hstd as [?|[? ?]]; auto.
  unmonad. split; [done|]. right. rewrite Est. split; [eauto|]. right. eauto.
Qed.

(** X17.  On a machine without containerd the default configuration has
    the mode [none]; a manager made of it starts nothing and [Start] returns
    [nil]. *)
Theorem default_manager_without_containerd_starts_nothing
    (H : Host) (ctx : Context) (w w' : World) :
  result (IsContainerdInstalled H) w = false ->
  let config := result (Manager.DefaultManagerConfig H) w in
  RunAs config = "none"
  /\ Manager.Start H ctx (Manager.NewManager config) w'
     = (Returned None, Manager.NewManager config, w')
  /\ Manager.GetClient (Manager.NewManager config) = None
  /\ Manager.GetServer (Manager.NewManager config) = None.
Proof.
  intros Hno. cbn zeta. unfold result, Manager.DefaultManagerConfig in *.
  rewrite bind_run, Hno. done.
Qed.

(** [default_manager_without_containerd_starts_nothing] on a Linux host
    with no containerd in the cache or on the PATH. *)
Lemma default_manager_without_containerd_starts_nothing_witness :
  let H := Scenarios.bare in
  let config := result (Manager.DefaultManagerConfig H) Examples.empty_world in
  (Manager.Start H context_Background (Manager.NewManager config)
                 Examples.empty_world).1.1 = Returned None.
Proof.
  cbn zeta.
  destruct (default_manager_without_containerd_starts_nothing
              Scenarios.bare
              context_Background Examples.empty_world Examples.empty_world
              ltac:(vm_compute; reflexivity)) as (_ & -> & _).
  reflexivity.
Defined.

(** X16.  In the mode [client] (the default for an empty mode), when the
    probe of the client socket fails, [Start] returns the error that names the
    socket and changes neither the manager nor the world: nothing is dialled. *)
Theorem Manager_client_mode_needs_the_socket
    (H : Host) (ctx : Context) (config : ManagerConfig) (w : World) :
  RunAs config = "" \/ RunAs config = "client" ->
  result (CheckContainerdRunning H (ClientSocket config)) w = false ->
  Manager.Start H ctx (Manager.NewManager config) w
  = (Returned (Some ("no containerd instance available at "
                     +:+ ClientSocket config)),
     Manager.NewManager config, w).
Proof.
  intros Hmode Hdown. unfold Manager.Start, Manager.NewManager, or_default.
  assert (Hr : (if String.eqb (RunAs config) "" then "client" else RunAs config)
               = "client") by (by destruct Hmode as [-> | ->]).
  rewrite Hr. cbn [String.eqb Ascii.eqb Bool.eqb orb andb RunAs mgr_config].
  unfold Manager.startClient.
  cbn [String.eqb Ascii.eqb Bool.eqb orb andb RunAs mgr_config ClientSocket].
  rewrite bind_run. unfold result in Hdown.
  assert (Hw : (CheckContainerdRunning H (ClientSocket config) w).2 = w).
  { unfold CheckContainerdRunning. by destruct (negb _). }
  destruct (CheckContainerdRunning H (ClientSocket config) w) as [up wa].
  cbn [fst snd] in *. subst up wa. reflexivity.
Qed.

(** [Manager_client_mode_needs_the_socket] on a Linux host without a
    running containerd. *)
Lemma Manager_client_mode_needs_the_socket_witness :
  (Manager.Start Examples.linux context_Background
                 (Manager.NewManager Scenarios.system_client)
                 Examples.empty_world).1.1
  = Returned (Some "no containerd instance available at /run/containerd/containerd.sock").
Proof.
  cbn zeta.
  rewrite (Manager_client_mode_needs_the_socket Examples.linux context_Background
             Scenarios.system_client Examples.empty_world
             ltac:(left; reflexivity) ltac:(vm_compute; reflexivity)).
  reflexivity.
Defined.

Section timeless_facts.
Context (H : Host).

Lemma silent_timeless {A} (c : M A) : silent c -> timeless c.
Proof. intros Hc w. apply Hc. Qed.

Lemma timeless_ret {A} (a : A) : timeless (mret a).
Proof. intros w. done. Qed.

Lemma timeless_bind {A B} (c : M A) (f : A -> M B) :
  timeless c -> (forall a, timeless (f a)) -> timeless (c ≫= f).
Proof. intros Hc Hf w. rewrite bind_run, Hf. apply Hc. Qed.

Lemma timeless_or_return {A} (c : M error) (wrap : string -> A) (k : M A) :
  timeless c -> timeless k -> timeless (or_return c wrap k).
Proof.
  intros Hc Hk. unfold or_return. apply timeless_bind; [done|].
  intros [e|]; [apply timeless_ret|done].
Qed.

Lemma timeless_emit e : timeless (emit e).
Proof. intros w. done. Qed.
Lemma timeless_tick : timeless tick.
Proof. intros w. done. Qed.

End timeless_facts.

Create HintDb timeless.
#[global] Hint Resolve timeless_ret timeless_emit timeless_tick : timeless.
#[global] Hint Extern 5 (timeless _) =>
  apply silent_timeless; solve [eauto with silent] : timeless.

Ltac timeless_step :=
  lazymatch goal with
  | |- timeless (mret _) => apply timeless_ret
  | |- timeless (_ ≫= _) => apply timeless_bind; [|intros ?]
  | |- timeless (or_return _ _ _) => apply timeless_or_return
  | |- timeless (match ?x with _ => _ end) => destruct x
  | |- timeless (match ?x with _ => _ end _) => destruct x
  | |- timeless (let _ := _ in _) => cbv zeta
  | |- timeless _ => solve [eauto with timeless]
  end.

Ltac timelessness := repeat timeless_step.

Section timing_facts.
Context (H : Host).

Lemma timeless_process_Signal pid sig : timeless (process_Signal H pid sig).
Proof. intros w. done. Qed.
Lemma timeless_process_Kill pid : timeless (process_Kill H pid).
Proof. intros w. done. Qed.
Lemma timeless_process_Wait pid : timeless (process_Wait H pid).
Proof. intros w. done. Qed.
Lemma timeless_now : timeless now.
Proof. intros w. done. Qed.

Lemma timeless_fileExists p : timeless (fileExists H p).
Proof. unfold fileExists. timelessness. Qed.
Lemma timeless_os_ReadFile p : timeless (os_ReadFile H p).
Proof. unfold os_ReadFile. timelessness. Qed.
Lemma timeless_GetHyperKitPath : timeless (GetHyperKitPath H).
Proof. apply silent_timeless, silent_bundled_or_PATH. Qed.

Lemma timeless_IsLinuxKitVMRunning cfg : timeless (IsLinuxKitVMRunning H cfg).
Proof.
  unfold IsLinuxKitVMRunning.
  timelessness; auto using timeless_fileExists, timeless_os_ReadFile,
    timeless_GetHyperKitPath, timeless_process_Signal.
Qed.

Lemma timeless_IsWSL2DistributionAvailable d :
  timeless (IsWSL2DistributionAvailable H d).
Proof. unfold IsWSL2DistributionAvailable. timelessness. Qed.

Lemma timeless_StopWSL2Environment cfg : timeless (StopWSL2Environment H cfg).
Proof.
  unfold StopWSL2Environment.
  timelessness; auto using timeless_IsWSL2DistributionAvailable.
Qed.

Lemma timeless_Close c : timeless (Close H c).
Proof. unfold Close. timelessness. Qed.

Lemma within_timeless {A} (c : M A) d : 0 <= d -> timeless c -> within d c.
Proof. intros Hd Hc w. rewrite Hc. lia. Qed.

Lemma within_bind_l {A B} d (c : M A) (f : A -> M B) :
  timeless c -> (forall a, within d (f a)) -> within d (c ≫= f).
Proof.
  intros Hc Hf w. rewrite bind_run. specialize (Hf (c w).1 (c w).2).
  rewrite Hc in Hf. exact Hf.
Qed.

Lemma within_bind_r {A B} d (c : M A) (f : A -> M B) :
  within d c -> (forall a, timeless (f a)) -> within d (c ≫= f).
Proof. intros Hc Hf w. rewrite bind_run, Hf. apply Hc. Qed.

Lemma earliest_lower (cands : list (StopCase * Z)) lo e :
  Forall (fun x => lo <= x.2) cands -> earliest cands = Some e -> lo <= e.
Proof.
  revert e. induction cands as [|[c' t'] cands IH]; intros e Hlo; [done|].
  apply Forall_cons in Hlo as [Hlo' Hlo]. cbn in Hlo'.
  unfold earliest. cbn [foldr]. fold (earliest cands).
  destruct (earliest cands) as [e'|]; cbn; intros [= <-]; [|done].
  specialize (IH e' Hlo eq_refl). lia.
Qed.

Lemma earliest_upper (cands : list (StopCase * Z)) c t :
  (c, t) ∈ cands -> exists e, earliest cands = Some e /\ e <= t.
Proof.
  induction cands as [|[c' t'] cands IH]; intros Hin.
  - by apply elem_of_nil in Hin.
  - unfold earliest. cbn [foldr]. fold (earliest cands).
    apply elem_of_cons in Hin as [[= <- <-]|Hin].
    + destruct (earliest cands) as [e|]; cbn; eexists; (split; [done|]); lia.
    + destruct (IH Hin) as (e & -> & ?). cbn. eexists. split; [done|]. lia.
Qed.

Lemma earliest_bounds (cands : list (StopCase * Z)) lo c t :
  Forall (fun x => lo <= x.2) cands -> (c, t) ∈ cands ->
  exists e, earliest cands = Some e /\ lo <= e <= t.
Proof.
  intros Hlo Hin. destruct (earliest_upper cands c t Hin) as (e & He & ?).
  exists e. split; [done|]. split; [by eapply earliest_lower|done].
Qed.

(** A [select] with a timer among its cases takes one of them when the timer
    fires at the latest. *)
Lemma select_within (cands : list (StopCase * Z)) c d w :
  0 <= d -> (c, clock w + d) ∈ cands ->
  0 <= clock (select H cands w).2 - clock w <= d.
Proof.
  intros Hd Hin. unfold select. unmonad.
  set (cands' := (fun c0 : StopCase * Z => (c0.1, Z.max (clock w) c0.2)) <$> cands).
  destruct (earliest_bounds cands' (clock w) c (clock w + d)) as (e & He & Hb).
  { subst cands'. apply Forall_fmap, Forall_forall. intros x _. cbn. lia. }
  { subst cands'. apply list_elem_of_fmap. exists (c, clock w + d).
    split; [|done]. cbn. f_equal. lia. }
  rewrite He. cbn [default].
  destruct (ready_cases cands') as [|c1 [|c2 cs]]; cbn; lia.
Qed.

Lemma stopRace_within ctx pid : within Server.escalationBudget (Server.stopRace H ctx pid).
Proof.
  intros w. unfold Server.stopRace. rewrite !bind_run.
  set (w1 := (process_Wait H pid w).2).
  assert (Hw1 : clock w1 = clock w) by reflexivity.
  change ((now w1).2) with w1. change ((now w1).1) with (clock w1).
  match goal with
  | |- context [select H ?cs w1] =>
      pose proof (select_within cs CaseTimeout Server.escalationBudget w1
                    ltac:(done) ltac:(left)) as Hs
  end.
  rewrite Hw1 in Hs at 2. exact Hs.
Qed.

Lemma stopNative_within ctx s pid :
  within Server.escalationBudget (Server.stopNative H ctx s pid).
Proof.
  intros w. rewrite stopNative_run. cbn zeta. unfold result, after.
  pose proof (stopRace_within ctx pid (process_Signal H pid Interrupt w).2) as Hr.
  rewrite timeless_process_Signal in Hr.
  destruct (process_Signal H pid Interrupt w).1; cbn [snd].
  { rewrite timeless_process_Signal. pose proof escalationBudget_pos. lia. }
  destruct (Server.stopRace H ctx pid _).1.1; cbn [snd];
    rewrite ?timeless_process_Kill; exact Hr.
Qed.

Lemma StopLinuxKitVM_within cfg : within (10 * Second) (StopLinuxKitVM H cfg).
Proof.
  unfold StopLinuxKitVM.
  destruct (negb (IsRunningOnMacOS H)); [by apply within_timeless, timeless_ret|].
  apply within_bind_l; [apply timeless_IsLinuxKitVMRunning|]. intros up.
  destruct (negb up); [by apply within_timeless, timeless_ret|].
  apply within_bind_l; [apply timeless_fileExists|]. intros present.
  destruct (negb present); [by apply within_timeless, timeless_ret|].
  apply within_bind_l; [apply timeless_os_ReadFile|]. intros [e|bytes];
    [by apply within_timeless, timeless_ret|].
  destruct (strconv.Atoi _) as [pid|]; [|by apply within_timeless, timeless_ret].
  cbv zeta.
  apply within_bind_l; [apply timeless_process_Signal|]. intros e1.
  apply within_bind_l.
  { destruct e1; [|apply timeless_ret].
    apply timeless_bind; [apply timeless_process_Signal|]. intros [e2|];
      [|apply timeless_ret].
    apply timeless_or_return; [apply timeless_process_Kill|apply timeless_ret]. }
  intros [e|]; [by apply within_timeless, timeless_ret|].
  apply within_bind_l; [apply timeless_process_Wait|]. intros done.
  intros w. rewrite !bind_run.
  change ((now w).2) with w. change ((now w).1) with (clock w).
  match goal with
  | |- context [select H ?cs w] =>
      pose proof (select_within cs CaseTimeout (10 * Second) w
                    ltac:(done) ltac:(left)) as Hs;
      destruct (select H cs w) as [c wa]
  end.
  cbn [fst snd] in *.
  assert (Hk : forall e, timeless
            (or_return (process_Kill H (Z.to_nat pid))
               (fun e0 => Some (errors_Wrap e0
                  "failed to kill hyperkit process after timeout")) (mret e))).
  { intros e. apply timeless_or_return;
      [apply timeless_process_Kill|apply timeless_ret]. }
  destruct c, done as [[d [e|]]|]; rewrite ?Hk; exact Hs.
Qed.

Lemma Server_Stop_within ctx s :
  within Server.escalationBudget (Server.Stop H ctx s).
Proof.
  unfold Server.Stop.
  destruct (IsRunningOnMacOS H && vmRunning s)%bool.
  { intros w. unfold or_return. rewrite bind_run.
    pose proof (StopLinuxKitVM_within (linuxKitConfig s) w) as Hs.
    unfold Server.escalationBudget, Second, Millisecond in *.
    destruct (StopLinuxKitVM H _ w).1; unmonad; lia. }
  destruct (IsRunningOnWindows H && wslRunning s)%bool.
  { apply within_timeless; [done|].
    apply timeless_or_return; [apply timeless_StopWSL2Environment|apply timeless_ret]. }
  destruct (Server.nothing_to_stop s); [by apply within_timeless, timeless_ret|].
  destruct (cmd s) as [c|]; [|by apply within_timeless, timeless_ret].
  destruct (Process c) as [pid|]; [|by apply within_timeless, timeless_ret].
  apply stopNative_within.
Qed.

End timing_facts.

(** X5.  [Server.Stop] and [Manager.Stop] never wait longer than the
    escalation budget of 30s, on any platform, for any server or manager,
    whatever the process and the caller's context do: the clock, which only
    sleeps and timers advance, moves by at most the budget. *)
Theorem Stop_returns_within_the_escalation_budget
    (H : Host) (ctx : Context) (s : Server) (m : Manager) (w : World) :
  0 <= elapsed (Server.Stop H ctx s) w <= Server.escalationBudget
  /\ 0 <= elapsed (Manager.Stop H ctx m) w <= Server.escalationBudget.
Proof.
  unfold elapsed, after. split; [apply Server_Stop_within|].
  pose proof escalationBudget_pos as Hpos.
  destruct m as [cfg [sv|] [c|] emb]; unfold Manager.Stop;
    cbn [client server set_client set_server mgr_config useEmbedded];
    rewrite ?bind_run.
  all: try (pose proof (timeless_Close H c w) as Hc;
            destruct (Close H c w) as [[e|] wc]; cbn [fst snd] in Hc).
  all: unfold mret, M_ret; cbn [fst snd client server set_client set_server
                                mgr_config useEmbedded]; rewrite ?bind_run.
  all: try match goal with
           | |- context [Server.Stop ?h ?cx ?sv ?w0] =>
               pose proof (Server_Stop_within h cx sv w0) as Hs;
               destruct (Server.Stop h cx sv w0) as [[[[e'|]|] sv'] ws]
           end.
  all: cbn [fst snd] in *; lia.
Qed.

(** ** Containers and compose *)

Lemma bindD_run {A B} (c : D A) (f : A -> D B) (s : Session) :
  (c ≫= f) s = f (c s).1 (c s).2.
Proof. reflexivity. Qed.

Lemma or_return_D_run {A} (c : D error) (wrap : string -> A) (k : D A) s :
  or_return_D c wrap k s
  = match (c s).1 with
    | Some e => (wrap e, (c s).2)
    | None => k (c s).2
    end.
Proof. unfold or_return_D. rewrite bindD_run. by destruct (c s).1. Qed.

Ltac unsession :=
  cbv beta iota zeta delta [mbind D_bind mret D_ret or_return_D request sent lift
    wrapped];
  cbn [fst snd world requests].

Lemma request_run dm r s :
  request dm r s
  = (reply dm r (length (requests s)),
     {| world := with_clock (clock (world s)
                             + Z.max 0 (latency dm r (length (requests s))))
                            (world s);
        requests := (requests s ++ [r])%list |}).
Proof. reflexivity. Qed.

Lemma answer_time_snoc dm n rs r :
  answer_time dm n (rs ++ [r])
  = answer_time dm n rs + Z.max 0 (latency dm r (n + length rs)).
Proof.
  revert n. induction rs as [|r0 rs IH]; intros n; cbn [answer_time app length].
  - rewrite Nat.add_0_r. lia.
  - rewrite IH. replace (S n + length rs)%nat with (n + S (length rs))%nat by lia.
    lia.
Qed.

Section talks_facts.
Context (dm : Daemon).

Lemma talks_ret {A} (a : A) : talks dm (mret a).
Proof. intros s. done. Qed.

Lemma talks_bind {A B} (c : D A) (f : A -> D B) :
  talks dm c -> (forall a, talks dm (f a)) -> talks dm (c ≫= f).
Proof.
  intros Hc Hf s. rewrite bindD_run.
  destruct (Hc s) as (H1 & H2 & H3 & H4).
  destruct (Hf (c s).1 (c s).2) as (H1' & H2' & H3' & H4').
  repeat split; congruence.
Qed.

Lemma talks_or_return_D {A} (c : D error) (wrap : string -> A) (k : D A) :
  talks dm c -> talks dm k -> talks dm (or_return_D c wrap k).
Proof.
  intros Hc Hk. apply talks_bind; [exact Hc|].
  intros [e|]; [apply talks_ret|exact Hk].
Qed.

(** A request takes the time of its answer and nothing else. *)
Lemma request_spec r s :
  let q := request dm r s in
  q.1 = reply dm r (length (requests s))
  /\ requests q.2 = (requests s ++ [r])%list
  /\ own_time dm q.2 = own_time dm s
  /\ clock (world s) <= clock (world q.2)
  /\ fs (world q.2) = fs (world s)
  /\ logs (world q.2) = logs (world s)
  /\ trace (world q.2) = trace (world s).
Proof.
  cbn zeta. rewrite request_run. cbn [fst snd]. unfold own_time, answered.
  cbn [world requests with_clock clock fs logs trace].
  rewrite answer_time_snoc. cbn [Nat.add]. repeat split; lia.
Qed.

Lemma talks_request r : talks dm (request dm r).
Proof.
  intros s. destruct (request_spec r s) as (_ & _ & ? & _ & ? & ? & ?). done.
Qed.

Lemma talks_RemoveContainer ctx id force :
  talks dm (RemoveContainer dm ctx id force).
Proof.
  unfold RemoveContainer, wrapped.
  repeat first
    [ apply talks_or_return_D | apply talks_bind | apply talks_request
    | apply talks_ret | intros [e|] | destruct force ].
Qed.

End talks_facts.

Lemma lift_now_run (s : Session) : lift now s = (clock (world s), s).
Proof. by destruct s. Qed.

Lemma lift_run {A} (c : M A) (s : Session) :
  lift c s = ((c (world s)).1,
              {| world := (c (world s)).2; requests := requests s |}).
Proof. reflexivity. Qed.

Ltac ask dm Hr :=
  rewrite or_return_D_run in Hr;
  match type of Hr with
  | context [request dm ?r ?s0] =>
      let e := fresh "e" in
      let s1 := fresh "s" in
      let Hq := fresh "Hq" in
      let Hreq := fresh "Hreq" in
      let Hown := fresh "Hown" in
      let Hclk := fresh "Hclk" in
      let Hfs := fresh "Hfs" in
      pose proof (request_spec dm r s0) as Hq; cbn zeta in Hq;
      destruct (request dm r s0) as [e s1]; cbn [fst snd] in Hq, Hr;
      destruct Hq as (-> & Hreq & Hown & Hclk & Hfs & _);
      unfold own_time, answered in Hown
  end.

(** X19.  The labels and the restart policy of the options never reach the
    daemon, and neither do the arguments when the command is empty: changing
    them changes no request and no error, only the fields of the [Container]
    that is returned. *)
Theorem CreateContainer_never_sends_labels_or_restart_policy
    (dm : Daemon) (ctx : Context) (opts : CreateContainerOptions)
    (labels : list (string * string)) (restart : string) (args : list string)
    (s : Session) :
  let r := CreateContainer dm ctx opts s in
  let r' := CreateContainer dm ctx (relabelled opts labels restart args) s in
  r'.2 = r.2
  /\ match r.1, r'.1 with
     | inl e, inl e' => e' = e
     | inr c, inr c' =>
         ct_ID c' = ct_ID c /\ ct_Labels c' = labels
         /\ ct_RestartPolicy c' = restart
     | _, _ => False
     end.
Proof.
  cbn zeta. unfold CreateContainer, PullImage, relabelled.
  cbn [opt_ID opt_Name opt_Image opt_Command opt_Args opt_Env opt_Labels
       opt_Mounts opt_RestartPolicy opt_PrivilegedMode].
  assert (Hargs :
    (if (0 <? length (opt_Command opts))%nat
     then Some (opt_Command opts
                ++ match opt_Command opts with [] => args | _ => opt_Args opts end)%list
     else None)
    = (if (0 <? length (opt_Command opts))%nat
       then Some (opt_Command opts ++ opt_Args opts)%list else None)).
  { by destruct (opt_Command opts). }
  rewrite Hargs. unsession.
  destruct (reply dm (ReqPull (opt_Image opts)) (length (requests s))); [done|].
  cbn [fst snd world requests].
  destruct (reply dm (ReqNewContainer _ _ _ _) _); done.
Qed.

(** X21.  [RemoveContainer] only talks to the daemon: it changes no file,
    writes no log line and has no other effect outside the process, and the
    only time it takes is the time the daemon takes to answer its requests,
    with or without [force].  Without [force] it never kills or deletes a
    task: it stops after the lookup when that fails, it returns the
    [still running] error when the container has a task, and it goes on to
    delete the container only when there is no task. *)
Theorem RemoveContainer_only_waits_for_the_daemon_and_needs_force_to_kill
    (dm : Daemon) (ctx : Context) (id : string) (force : bool) (s : Session) :
  let r := RemoveContainer dm ctx id force s in
  let n := length (requests s) in
  (clock (world r.2) - clock (world s) = answered dm r.2 - answered dm s
   /\ fs (world r.2) = fs (world s) /\ logs (world r.2) = logs (world s)
   /\ trace (world r.2) = trace (world s))
  /\ (force = false ->
      (requests r.2 = (requests s ++ [ReqLoadContainer id])%list
       /\ r.1 <> None)
      \/ (requests r.2 = (requests s ++ [ReqLoadContainer id; ReqTask id])%list
          /\ reply dm (ReqTask id) (S n) = None
          /\ r.1 = Some "container is still running, use force to remove it")
      \/ (requests r.2 = (requests s ++ [ReqLoadContainer id; ReqTask id;
                                         ReqContainerDelete id])%list
          /\ reply dm (ReqTask id) (S n) <> None)).
Proof.
  cbn zeta. split.
  { destruct (talks_RemoveContainer dm ctx id force s) as (Ht & ? & ? & ?).
    unfold own_time in Ht. repeat split; try done. lia. }
  intros ->. unfold RemoveContainer. unsession.
  destruct (reply dm (ReqLoadContainer id) (length (requests s))) as [e|];
    cbn [fst snd world requests].
  { left. done. }
  rewrite length_app. cbn [length]. rewrite Nat.add_1_r.
  destruct (reply dm (ReqTask id) (S (length (requests s)))) as [e|] eqn:Etask;
    cbn [fst snd world requests].
  - destruct (reply dm (ReqContainerDelete id) _);
      right; right; cbn [fst snd world requests];
      rewrite <- !app_assoc; done.
  - right. left. rewrite <- !app_assoc. done.
Qed.

Section select_facts.
Context (H : Host).

Lemma ready_cases_among (cands : list (StopCase * Z)) c :
  c ∈ ready_cases cands -> c ∈ cands.*1.
Proof.
  unfold ready_cases. destruct (earliest cands) as [t|]; [|by intros ?%elem_of_nil].
  intros Hin. apply list_elem_of_fmap in Hin as ([c' t'] & -> & Hin).
  apply list_elem_of_filter in Hin as [_ Hin].
  apply list_elem_of_fmap. by exists (c', t').
Qed.

Lemma earliest_attained (cands : list (StopCase * Z)) e :
  earliest cands = Some e -> exists c, (c, e) ∈ cands.
Proof.
  revert e. induction cands as [|[c1 t1] l IH]; intros e He; [done|].
  unfold earliest in He. cbn [foldr] in He. fold (earliest l) in He.
  destruct (earliest l) as [e'|] eqn:El; cbn in He; injection He as <-.
  - destruct (Z.le_gt_cases t1 e').
    + exists c1. rewrite Z.min_l by done. left.
    + destruct (IH e' eq_refl) as [c2 Hc2]. exists c2.
      rewrite Z.min_r by lia. by right.
  - exists c1. left.
Qed.

(** A [select] waits until its first case is ready and no longer, takes one
    of its cases, and leaves files, log and trace alone. *)
Lemma select_until (cands : list (StopCase * Z)) c t w :
  (c, t) ∈ cands ->
  let r := select H cands w in
  clock w <= clock r.2 <= Z.max (clock w) t
  /\ r.1 ∈ cands.*1
  /\ fs r.2 = fs w /\ logs r.2 = logs w /\ trace r.2 = trace w.
Proof.
  intros Hin. cbn zeta. unfold select. unmonad.
  set (cands' := (fun c0 : StopCase * Z => (c0.1, Z.max (clock w) c0.2)) <$> cands).
  destruct (earliest_bounds cands' (clock w) c (Z.max (clock w) t))
    as (e & He & Hb).
  { subst cands'. apply Forall_fmap, Forall_forall. intros x _. cbn. lia. }
  { subst cands'. apply list_elem_of_fmap. by exists (c, t). }
  rewrite He. cbn [default].
  assert (Hfst : cands'.*1 = cands.*1).
  { subst cands'. rewrite <- list_fmap_compose. done. }
  pose proof (ready_cases_among cands') as Hamong. rewrite Hfst in Hamong.
  assert (Hne : ready_cases cands' <> []).
  { unfold ready_cases. rewrite He.
    pose proof (earliest_attained cands' e He) as Hex.
    destruct Hex as [c1 Hc1]. intros Hnil.
    assert (Hin1 : c1 ∈ (filter (fun c0 : StopCase * Z => c0.2 = e) cands').*1).
    { apply list_elem_of_fmap. exists (c1, e). split; [done|].
      by apply list_elem_of_filter. }
    rewrite Hnil in Hin1. by apply elem_of_nil in Hin1. }
  destruct (ready_cases cands') as [|c1 [|c2 cs]] eqn:Hr; [done| |]; cbn.
  - split; [lia|]. split; [|done]. apply Hamong. left.
  - split; [lia|]. split; [|done]. apply Hamong. case_decide; [done|left].
Qed.

End select_facts.

(** X20.  Beyond the time the daemon takes to answer its requests,
    [StopContainer] waits at most its timeout, and it changes no file.  When
    it returns [nil], it has asked for the container, its task, the exit
    channel and SIGTERM, and then either the task was seen to exit, or SIGKILL
    was its last request: a task that had to be killed is a success. *)
Theorem StopContainer_reports_success_after_exit_or_kill
    (H : Host) (dm : Daemon) (ctx : Context) (id : string)
    (timeout : Duration) (s : Session) :
  let r := StopContainer H dm ctx id timeout s in
  let asked := [ReqLoadContainer id; ReqTask id; ReqTaskWait id;
                ReqTaskKill id SigTerm] in
  0 <= (clock (world r.2) - clock (world s)) - (answered dm r.2 - answered dm s)
    <= Z.max 0 timeout
  /\ fs (world r.2) = fs (world s)
  /\ (r.1 = None ->
      (requests r.2 = (requests s ++ asked)%list
       /\ is_Some (task_exit dm id (length (requests s) + 2)))
      \/ requests r.2 = (requests s ++ asked ++ [ReqTaskKill id SigKill])%list).
Proof.
  cbn zeta. remember (StopContainer H dm ctx id timeout s) as r eqn:Hr.
  enough (Hown : 0 <= own_time dm r.2 - own_time dm s <= Z.max 0 timeout
            /\ fs (world r.2) = fs (world s)
            /\ (r.1 = None ->
                (requests r.2
                 = (requests s ++ [ReqLoadContainer id; ReqTask id;
                                   ReqTaskWait id; ReqTaskKill id SigTerm])%list
                 /\ is_Some (task_exit dm id (length (requests s) + 2)))
                \/ requests r.2
                   = (requests s ++ [ReqLoadContainer id; ReqTask id;
                                     ReqTaskWait id; ReqTaskKill id SigTerm]
                      ++ [ReqTaskKill id SigKill])%list)).
  { destruct Hown as (Hb & Hfs & Hnil). unfold own_time in Hb.
    split; [lia|]. split; [exact Hfs|exact Hnil]. }
  unfold StopContainer, wrapped in Hr. unfold own_time, answered.
  ask dm Hr. destruct (reply dm (ReqLoadContainer id) _).
  { subst r. cbn [fst snd]. split; [lia|]. split; [congruence|done]. }
  ask dm Hr. destruct (reply dm (ReqTask id) _).
  { subst r. cbn [fst snd]. split; [lia|]. split; [congruence|done]. }
  rewrite bindD_run, lift_now_run in Hr. cbn [fst snd] in Hr.
  rewrite bindD_run in Hr. unfold sent at 1 2 in Hr. cbn [fst snd] in Hr.
  ask dm Hr. destruct (reply dm (ReqTaskWait id) _).
  { subst r. cbn [fst snd]. split; [lia|]. split; [congruence|done]. }
  ask dm Hr. destruct (reply dm (ReqTaskKill id SigTerm) _).
  { subst r. cbn [fst snd]. split; [lia|]. split; [congruence|done]. }
  rewrite bindD_run, lift_now_run in Hr. cbn [fst snd] in Hr.
  rewrite bindD_run, lift_run in Hr. cbn [fst snd] in Hr.
  set (deadline := match cancel_at ctx with
                   | Some t => Z.min t (clock (world s1) + timeout)
                   | None => clock (world s1) + timeout
                   end) in *.
  assert (Hn : length (requests s1) = (length (requests s) + 2)%nat).
  { rewrite Hreq0, Hreq, !length_app. cbn [length]. lia. }
  rewrite Hn in Hr.
  match type of Hr with
  | context [select ?h ?cs ?w0] =>
      destruct (select_until h cs CaseCtx deadline w0) as (Hclk' & Hc & Hfs' & _);
      [apply elem_of_app; right; left|];
      destruct (select h cs w0) as [c wa] eqn:Hsel
  end.
  cbn [fst snd world requests] in *.
  assert (Hall : requests s3
                 = (requests s ++ [ReqLoadContainer id; ReqTask id;
                                   ReqTaskWait id; ReqTaskKill id SigTerm])%list).
  { rewrite Hreq2, Hreq1, Hreq0, Hreq, <- !app_assoc. done. }
  assert (Hbound : 0 <= clock wa - clock (world s3) <= Z.max 0 timeout).
  { subst deadline. destruct (cancel_at ctx); lia. }
  assert (Hfiles : fs wa = fs (world s)) by congruence.
  destruct c.
  - ask dm Hr. cbn [world requests] in *.
    destruct (reply dm (ReqTaskKill id SigKill) _); subst r;
      unfold mret, D_ret; cbn [fst snd];
      (split; [lia|]); (split; [congruence|]); [done|].
    intros _. right. rewrite Hreq3, Hall, <- !app_assoc. done.
  - subst r. unfold mret, D_ret. cbn [fst snd world requests].
    split; [lia|]. split; [done|]. intros _. left.
    split; [exact Hall|].
    destruct (task_exit dm id (length (requests s) + 2)); [eauto|].
    cbn in Hc. apply elem_of_cons in Hc as [?|Hc]; [done|].
    by apply elem_of_nil in Hc.
  - ask dm Hr. cbn [world requests] in *.
    destruct (reply dm (ReqTaskKill id SigKill) _); subst r;
      unfold mret, D_ret; cbn [fst snd];
      (split; [lia|]); (split; [congruence|]); [done|].
    intros _. right. rewrite Hreq3, Hall, <- !app_assoc. done.
Qed.

(** X18.  The container operations of a manager without a client return
    the error [containerd client not initialized] and send nothing to the
    daemon.  This is so for a manager fresh from [NewManager] and after every
    [Manager.Stop], whatever that [Stop] returned. *)
Theorem Manager_container_operations_need_a_client
    (H : Host) (dm : Daemon) (ctx : Context) (m : Manager) (w : World)
    (config : ManagerConfig) (id : string) (opts : CreateContainerOptions)
    (timeout : Z) (force : bool) (s : Session) :
  let refused (m : Manager) :=
    ManagerContainers.CreateContainer dm m ctx opts s
    = (inl "containerd client not initialized", s)
    /\ ManagerContainers.StartContainer H dm m ctx id s
       = (Some "containerd client not initialized", s)
    /\ ManagerContainers.StopContainer H dm m ctx id timeout s
       = (Some "containerd client not initialized", s)
    /\ ManagerContainers.RemoveContainer dm m ctx id force s
       = (Some "containerd client not initialized", s) in
  refused (Manager.NewManager config)
  /\ refused (Manager.Stop H ctx m w).1.2.
Proof.
  cbn zeta.
  assert (Hnil : forall m0, client m0 = None ->
    ManagerContainers.CreateContainer dm m0 ctx opts s
    = (inl "containerd client not initialized", s)
    /\ ManagerContainers.StartContainer H dm m0 ctx id s
       = (Some "containerd client not initialized", s)
    /\ ManagerContainers.StopContainer H dm m0 ctx id timeout s
       = (Some "containerd client not initialized", s)
    /\ ManagerContainers.RemoveContainer dm m0 ctx id force s
       = (Some "containerd client not initialized", s)).
  { intros m0 Hc. unfold ManagerContainers.CreateContainer,
      ManagerContainers.StartContainer, ManagerContainers.StopContainer,
      ManagerContainers.RemoveContainer. rewrite Hc. done. }
  split; [by apply Hnil|]. apply Hnil. apply Manager_Stop_clears.
Qed.

Section compose_facts.
Context (H : Host) (dm : Daemon) (lib : Library).

Lemma loads_snoc l r :
  loads (l ++ [r]) = (loads l ++ if is_load r then [r] else [])%list.
Proof.
  unfold loads. rewrite filter_app, filter_cons, filter_nil.
  destruct (is_load r); case_decide; done.
Qed.

Lemma StopContainer_loads ctx id timeout s :
  loads (requests (StopContainer H dm ctx id timeout s).2)
  = (loads (requests s) ++ [ReqLoadContainer id])%list.
Proof.
  unfold StopContainer. unsession. unfold now. cbn [fst snd].
  repeat (match goal with
          | |- context [match reply dm ?r ?k with _ => _ end] =>
              destruct (reply dm r k)
          | |- context [select H ?cs ?w0] =>
              destruct (select H cs w0) as [[| |] ?]
          end; cbn [fst snd world requests]);
    rewrite ?loads_snoc; cbn [is_load]; rewrite ?app_nil_r; done.
Qed.

Lemma RemoveContainer_loads ctx id force s :
  loads (requests (RemoveContainer dm ctx id force s).2)
  = (loads (requests s) ++ [ReqLoadContainer id])%list.
Proof.
  unfold RemoveContainer. unsession.
  repeat (match goal with
          | |- context [match reply dm ?r ?k with _ => _ end] =>
              destruct (reply dm r k)
          | |- context [if force then _ else _] => destruct force
          end; cbn [fst snd world requests]);
    rewrite ?loads_snoc; cbn [is_load]; rewrite ?app_nil_r; done.
Qed.

Lemma warn_requests (call : D error) warning s :
  requests (Compose.warn call warning s).2 = requests (call s).2.
Proof.
  unfold Compose.warn. rewrite bindD_run. by destruct (call s).1.
Qed.

Lemma down_services_loads ctx c services s :
  loads (requests (Compose.down_services H dm ctx c services s).2)
  = (loads (requests s)
     ++ flat_map (fun kv : string * ComposeService =>
                    [ReqLoadContainer (Compose.getContainerID c kv.1);
                     ReqLoadContainer (Compose.getContainerID c kv.1)])
                 services)%list.
Proof.
  revert s. induction services as [|[name svc] rest IH]; intros s.
  - cbn. by rewrite app_nil_r.
  - cbn [Compose.down_services flat_map]. cbv zeta.
    rewrite !bindD_run, IH, warn_requests, RemoveContainer_loads,
      warn_requests, StopContainer_loads.
    by rewrite <- !app_assoc.
Qed.

Lemma volume_mounts_requests c vols mounts s :
  requests (Compose.volume_mounts H lib c vols mounts s).2 = requests s.
Proof.
  revert mounts s. induction vols as [|vol rest IH]; intros mounts s; [done|].
  cbn [Compose.volume_mounts].
  destruct (strings_Split vol ":") as [|src [|dst [|? ?]]]; try done.
  cbv zeta. destruct (negb (filepath_IsAbs lib src)); [|apply IH].
  rewrite or_return_D_run. unfold lift at 1 2. cbn [fst snd].
  destruct (os_MkdirAll H _ 493 (world s)).1; [done|]. by rewrite IH.
Qed.

Lemma volume_mounts_malformed c vols mounts s vol :
  vol ∈ vols -> length (strings_Split vol ":") <> 2%nat ->
  exists e, (Compose.volume_mounts H lib c vols mounts s).1 = inl e.
Proof.
  intros Hin Hlen. revert mounts s.
  induction vols as [|v rest IH]; intros mounts s; [by apply elem_of_nil in Hin|].
  cbn [Compose.volume_mounts].
  apply elem_of_cons in Hin as [<-|Hin].
  - destruct (strings_Split vol ":") as [|src [|dst [|? ?]]]; try done; eauto.
  - destruct (strings_Split v ":") as [|src [|dst [|? ?]]]; eauto.
    cbv zeta. destruct (negb (filepath_IsAbs lib src)); [|by apply IH].
    rewrite or_return_D_run. destruct (lift _ s).1; [eauto|]. by apply IH.
Qed.

Lemma startService_self_dependency ctx c cfg name service rest :
  service_of cfg name = Some service ->
  svc_DependsOn service = name :: rest ->
  forall fuel s,
    Compose.startService H dm lib fuel ctx c cfg name service s = (None, s).
Proof.
  intros Hsvc Hdeps fuel. induction fuel as [|fuel IH]; intros s; [done|].
  cbn [Compose.startService]. rewrite Hdeps, bindD_run.
  cbn [Compose.dependencies]. rewrite Hsvc, bindD_run, IH. reflexivity.
Qed.

Lemma startOne_malformed ctx c name service vol s :
  reply dm (ReqLoadContainer (Compose.getContainerID c name))
        (length (requests s)) <> None ->
  vol ∈ svc_Volumes service ->
  length (strings_Split vol ":") <> 2%nat ->
  (exists e, (Compose.startOne H dm lib ctx c name service s).1 = Some e)
  /\ requests (Compose.startOne H dm lib ctx c name service s).2
     = (requests s ++ [ReqLoadContainer (Compose.getContainerID c name)])%list.
Proof.
  intros Habsent Hin Hlen. unfold Compose.startOne, GetContainer. cbv zeta.
  rewrite bindD_run, request_run. cbn [fst snd].
  destruct (reply dm _ (length (requests s))) as [e0|]; [|done].
  rewrite bindD_run.
  match goal with
  | |- context [Compose.volume_mounts H lib c ?vs ?ms ?s0] =>
      destruct (volume_mounts_malformed c vs ms s0 vol Hin Hlen) as [e He];
      pose proof (volume_mounts_requests c vs ms s0) as Hreq;
      destruct (Compose.volume_mounts H lib c vs ms s0) as [r1 s1]
  end.
  cbn [fst snd] in *. subst r1. unsession. split; [eauto|exact Hreq].
Qed.

End compose_facts.

(** X23.  A service whose first dependency is the service itself makes
    [startService] recurse without end: whatever the fuel, the run needs more,
    and no request is ever sent.  So does [Up] when that service is the first
    one [range] visits. *)
Theorem startService_never_returns_on_a_self_dependency
    (H : Host) (dm : Daemon) (lib : Library) (ctx : Context) (c : Compose)
    (cfg : ComposeConfig) (name : string) (service : ComposeService)
    (rest : list string) (fuel : nat) (s : Session) :
  service_of cfg name = Some service ->
  svc_DependsOn service = name :: rest ->
  Compose.startService H dm lib fuel ctx c cfg name service s = (None, s)
  /\ (forall others,
        cp_config c = Some cfg ->
        Services cfg = (name, service) :: others ->
        Compose.Up H dm lib fuel ctx c s = (None, c, s)).
Proof.
  intros Hsvc Hdeps. split; [by eapply startService_self_dependency|].
  intros others Hcfg Hfirst.
  unfold Compose.Up, Compose.loaded. rewrite Hcfg. unsession.
  rewrite Hfirst. cbn [Compose.up_services].
  rewrite bindD_run.
  erewrite startService_self_dependency; [done|exact Hsvc|exact Hdeps].
Qed.

(** [startService_never_returns_on_a_self_dependency] with a fuel of
    1000, for a project whose first service depends on itself. *)
Lemma startService_never_returns_on_a_self_dependency_witness :
  let cfg := {| Version := "3";
                Services := [("loop", Scenarios.loop); ("db", Scenarios.db)] |} in
  let c := {| cp_config := Some cfg; project := "shop"; file := "compose.yaml";
              containerRoot := "/var/lib/fun" |} in
  let s := Scenarios.session Examples.empty_world in
  Compose.startService Examples.linux Scenarios.empty_daemon
    Scenarios.unix_library 1000 context_Background c cfg "loop" Scenarios.loop s
  = (None, s)
  /\ Compose.Up Examples.linux Scenarios.empty_daemon Scenarios.unix_library
       1000 context_Background c s
     = (None, c, s).
Proof.
  cbv zeta.
  match goal with
  | |- Compose.startService _ _ _ _ _ ?c ?cfg _ _ ?s = _ /\ _ =>
      destruct (startService_never_returns_on_a_self_dependency
                  Examples.linux Scenarios.empty_daemon Scenarios.unix_library
                  context_Background c cfg "loop" Scenarios.loop [] 1000 s
                  ltac:(vm_compute; reflexivity) ltac:(reflexivity))
        as [Hstart Hup]
  end.
  split; [exact Hstart|].
  exact (Hup [("db", Scenarios.db)] eq_refl eq_refl).
Defined.

(** X22.  A volume that does not split at [:] into exactly two parts stops
    the service: for a service without dependencies whose container does not
    exist yet, [startService] returns an error, and the lookup of the
    container is the only request it sent, so nothing is pulled, created or
    started. *)
Theorem startService_rejects_a_malformed_volume
    (H : Host) (dm : Daemon) (lib : Library) (ctx : Context) (c : Compose)
    (cfg : ComposeConfig) (name : string) (service : ComposeService)
    (vol : string) (fuel : nat) (s : Session) :
  svc_DependsOn service = [] ->
  reply dm (ReqLoadContainer (Compose.getContainerID c name))
        (length (requests s)) <> None ->
  vol ∈ svc_Volumes service ->
  length (strings_Split vol ":") <> 2%nat ->
  let r := Compose.startService H dm lib (S fuel) ctx c cfg name service s in
  (exists e, r.1 = Some (Some e))
  /\ requests r.2
     = (requests s ++ [ReqLoadContainer (Compose.getContainerID c name)])%list.
Proof.
  intros Hdeps Habsent Hin Hlen. cbn zeta.
  cbn [Compose.startService]. rewrite Hdeps. cbn [Compose.dependencies].
  destruct (startOne_malformed H dm lib ctx c name service vol s Habsent Hin Hlen)
    as ([e He] & Hreq).
  unsession. rewrite He. split; [eauto|exact Hreq].
Qed.

(** [startService_rejects_a_malformed_volume] for a volume in the
    three-part notation. *)
Lemma startService_rejects_a_malformed_volume_witness :
  let r := Compose.startService Examples.linux Scenarios.empty_daemon
             Scenarios.unix_library 1 context_Background Scenarios.shop
             Scenarios.stack "web" Scenarios.web
             (Scenarios.session Examples.empty_world) in
  strings_Split "/srv/www:/usr/share/nginx/html:ro" ":"
  = ["/srv/www"; "/usr/share/nginx/html"; "ro"]
  /\ (exists e, r.1 = Some (Some e))
  /\ requests r.2 = [ReqLoadContainer "shop-web"].
Proof.
  cbn zeta. split; [vm_compute; reflexivity|].
  apply (startService_rejects_a_malformed_volume Examples.linux
           Scenarios.empty_daemon Scenarios.unix_library context_Background
           Scenarios.shop Scenarios.stack "web" Scenarios.web
           "/srv/www:/usr/share/nginx/html:ro" 0
           (Scenarios.session Examples.empty_world)).
  - reflexivity.
  - vm_compute. discriminate.
  - left.
  - vm_compute. lia.
Defined.

(** X25.  Once the configuration is loaded, [Down] returns [nil] whatever
    the daemon answers, and it attempts both the stop and the removal of every
    service, in the order of the services: each attempt starts with one lookup
    of the container. *)
Theorem Down_reports_success_whatever_the_daemon_answers
    (H : Host) (dm : Daemon) (lib : Library) (ctx : Context) (c : Compose)
    (cfg : ComposeConfig) (s : Session) :
  cp_config c = Some cfg ->
  let r := Compose.Down H dm lib ctx c s in
  r.1 = (None, c)
  /\ loads (requests r.2)
     = (loads (requests s)
        ++ flat_map (fun kv : string * ComposeService =>
                       [ReqLoadContainer (Compose.getContainerID c kv.1);
                        ReqLoadContainer (Compose.getContainerID c kv.1)])
                    (Services cfg))%list.
Proof.
  intros Hcfg. cbn zeta. unfold Compose.Down, Compose.loaded. rewrite Hcfg.
  rewrite !bindD_run. unfold mret at 1 2 3 4, D_ret. cbn [fst snd].
  split; [reflexivity|]. unsession. apply down_services_loads.
Qed.

(** [Down_reports_success_whatever_the_daemon_answers] against a daemon
    that refuses every request. *)
Lemma Down_reports_success_whatever_the_daemon_answers_witness :
  let r := Compose.Down Examples.linux Scenarios.deaf_daemon
             Scenarios.unix_library context_Background Scenarios.shop
             (Scenarios.session Examples.empty_world) in
  r.1 = (None, Scenarios.shop)
  /\ requests r.2
     = [ReqLoadContainer "shop-web"; ReqLoadContainer "shop-web";
        ReqLoadContainer "shop-db"; ReqLoadContainer "shop-db";
        ReqLoadContainer "shop-loop"; ReqLoadContainer "shop-loop"].
Proof.
  cbn zeta.
  destruct (Down_reports_success_whatever_the_daemon_answers Examples.linux
              Scenarios.deaf_daemon Scenarios.unix_library context_Background
              Scenarios.shop Scenarios.stack
              (Scenarios.session Examples.empty_world) eq_refl) as [Hr _].
  split; [exact Hr|]. vm_compute. reflexivity.
Defined.

Section termination_facts.
Context (H : Host) (dm : Daemon) (lib : Library).

Lemma dependencies_returns start cfg name deps s :
  (forall dep depService s0,
      dep ∈ deps -> service_of cfg dep = Some depService ->
      exists r s', start dep depService s0 = (Some r, s')) ->
  exists r s', Compose.dependencies start cfg name deps s = (Some r, s').
Proof.
  revert s. induction deps as [|dep rest IH]; intros s Hstart.
  - eexists _, _. reflexivity.
  - cbn [Compose.dependencies].
    destruct (service_of cfg dep) as [depService|] eqn:Hsvc;
      [|eexists _, _; reflexivity].
    rewrite bindD_run.
    destruct (Hstart dep depService s ltac:(left) Hsvc) as (r & s' & ->).
    cbn [fst snd]. destruct r as [e|]; [eexists _, _; reflexivity|].
    apply IH. intros d ds s0 Hin. apply Hstart. by right.
Qed.

Lemma dependencies_more start start' cfg name deps s r s' :
  (forall dep depService s0 r0 s1,
      start dep depService s0 = (Some r0, s1) ->
      start' dep depService s0 = (Some r0, s1)) ->
  Compose.dependencies start cfg name deps s = (Some r, s') ->
  Compose.dependencies start' cfg name deps s = (Some r, s').
Proof.
  intros Hmore. revert s. induction deps as [|dep rest IH]; intros s; [done|].
  cbn [Compose.dependencies].
  destruct (service_of cfg dep) as [depService|]; [|done].
  rewrite !bindD_run.
  destruct (start dep depService s) as [[r0|] s1] eqn:Hs; cbn [fst snd];
    [|done].
  rewrite (Hmore _ _ _ _ _ Hs). cbn [fst snd].
  destruct r0; [done|]. apply IH.
Qed.

Lemma startService_S fuel ctx c cfg name service :
  Compose.startService H dm lib (S fuel) ctx c cfg name service
  = (r ← Compose.dependencies (Compose.startService H dm lib fuel ctx c cfg)
           cfg name (svc_DependsOn service);
     match r with
     | Some None =>
         e ← Compose.startOne H dm lib ctx c name service; mret (Some e)
     | _ => mret r
     end).
Proof. reflexivity. Qed.

(** More fuel never changes a result. *)
Lemma startService_more_fuel fuel extra ctx c cfg name service s r s' :
  Compose.startService H dm lib fuel ctx c cfg name service s = (Some r, s') ->
  Compose.startService H dm lib (fuel + extra) ctx c cfg name service s
  = (Some r, s').
Proof.
  revert name service s r s'.
  induction fuel as [|fuel IH]; intros name service s r s'; [done|].
  cbn [Nat.add]. rewrite !startService_S, !bindD_run.
  destruct (Compose.dependencies (Compose.startService H dm lib fuel ctx c cfg)
              cfg name (svc_DependsOn service) s) as [[r0|] s1] eqn:Hd;
    cbn [fst snd]; [|done].
  erewrite dependencies_more; [|apply IH|exact Hd]. done.
Qed.

Lemma startService_returns (rank : string -> nat) ctx c cfg :
  (forall n svc dep,
      service_of cfg n = Some svc -> dep ∈ svc_DependsOn svc ->
      (rank dep < rank n)%nat) ->
  forall bound name service s,
    (forall dep, dep ∈ svc_DependsOn service -> (rank dep < bound)%nat) ->
    exists r s',
      Compose.startService H dm lib (S bound) ctx c cfg name service s
      = (Some r, s').
Proof.
  intros Hrank bound.
  induction bound as [|bound IH]; intros name service s Hdeps.
  - rewrite startService_S.
    destruct (svc_DependsOn service) as [|dep rest].
    + cbn [Compose.dependencies]. rewrite bindD_run.
      unfold mret at 1, D_ret. cbn [fst snd]. rewrite bindD_run.
      eexists _, _. reflexivity.
    + specialize (Hdeps dep ltac:(left)). lia.
  - rewrite startService_S, bindD_run.
    destruct (dependencies_returns
                (Compose.startService H dm lib (S bound) ctx c cfg)
                cfg name (svc_DependsOn service) s) as (r & s' & ->).
    { intros dep depService s0 Hin Hsvc. apply IH.
      intros d Hd. specialize (Hrank dep depService d Hsvc Hd).
      specialize (Hdeps dep Hin). lia. }
    cbn [fst snd]. destruct r as [e|]; [eexists _, _; reflexivity|].
    rewrite bindD_run. eexists _, _. reflexivity.
Qed.

End termination_facts.

(** X24.  When the dependencies are acyclic (some rank decreases along
    every dependency), [startService] returns: fuel above the rank of the
    service gives a result, and more fuel gives the same result. *)
Theorem startService_returns_on_acyclic_dependencies
    (H : Host) (dm : Daemon) (lib : Library) (ctx : Context) (c : Compose)
    (cfg : ComposeConfig) (rank : string -> nat)
    (name : string) (service : ComposeService) (fuel : nat) (s : Session) :
  (forall n svc dep,
      service_of cfg n = Some svc -> dep ∈ svc_DependsOn svc ->
      (rank dep < rank n)%nat) ->
  service_of cfg name = Some service ->
  (rank name < fuel)%nat ->
  exists r s',
    forall extra,
      Compose.startService H dm lib (fuel + extra) ctx c cfg name service s
      = (Some r, s').
Proof.
  intros Hrank Hsvc Hfuel.
  destruct (startService_returns H dm lib rank ctx c cfg Hrank (rank name)
              name service s) as (r & s' & Hrun).
  { intros dep Hin. by eapply Hrank. }
  exists r, s'. intros extra.
  replace (fuel + extra)%nat with (S (rank name) + (fuel - S (rank name) + extra))%nat
    by lia.
  by apply startService_more_fuel.
Qed.

(** [startService_returns_on_acyclic_dependencies] for a service that
    depends on a database. *)
Lemma startService_returns_on_acyclic_dependencies_witness :
  exists r s',
    forall extra,
      Compose.startService Examples.linux Scenarios.empty_daemon
        Scenarios.unix_library (2 + extra) context_Background Scenarios.shop
        Scenarios.backend "api" Scenarios.api (Scenarios.session Examples.empty_world)
      = (Some r, s').
Proof.
  apply (startService_returns_on_acyclic_dependencies Examples.linux
           Scenarios.empty_daemon Scenarios.unix_library context_Background
           Scenarios.shop Scenarios.backend Scenarios.depth "api" Scenarios.api 2
           (Scenarios.session Examples.empty_world)).
  - intros n svc dep Hsvc Hin. unfold service_of, Scenarios.backend in Hsvc.
    cbn in Hsvc. repeat case_decide; simplify_eq/=.
    + apply list_elem_of_singleton in Hin as ->. vm_compute. lia.
    + by apply elem_of_nil in Hin.
  - vm_compute. reflexivity.
  - vm_compute. lia.
Defined.

